(** * Descriptive statistics of [describe.py]: an embedding and its properties

    The class [Describe] of [src/programs/analysis/describe.py] fills, for
    every numeric column of a pandas table except ["Hogwarts House"], a
    dictionary of thirteen statistics.  The embedding below follows the
    class method by method.

    Numbers.  The first part embeds the whole class over exact numbers: a
    number is the rational it denotes, extended by the two infinities and
    by NaN, and every operation returns a reduced fraction, so that a
    number has one representation.  This part carries the control flow,
    the comparisons, the exceptions and the layout of the report.  The two
    divisions of the source are kept apart: a division between Python
    numbers raises [ZeroDivisionError] on a zero divisor, a division in
    which a numpy scalar takes part yields an infinity or NaN; and a power
    of a Python float raises [OverflowError] beyond the range of binary64.

    The second part, [Machine], embeds [get_25], [get_50], [get_75],
    [get_iqr] and [get_kurtosis] again with the arithmetic of the objects
    they compute with: binary64 rounding for the floats, wrap-around for
    [numpy.int64], the rounding of numpy.  The statements about the values
    these methods store are made there. *)

From Stdlib Require Import ZArith QArith Qround Qabs Lia Lqa List Bool String.
From Stdlib Require Import Permutation Sorted.
Import ListNotations.
Local Open Scope Z_scope.
Local Open Scope Q_scope.

(** ** Exceptions and the error monad *)

Inductive exn : Type :=
| ZeroDivisionError   (* Python division, zero divisor *)
| KeyError            (* label absent from a Series, a DataFrame or a dict *)
| ValueError          (* int(nan) *)
| OverflowError.      (* int(inf); a float power out of range *)

Inductive result (A : Type) : Type :=
| Ok (a : A)
| Raise (e : exn).

Arguments Ok {A} a.
Arguments Raise {A} e.

Definition bind {A B : Type} (m : result A) (k : A -> result B) : result B :=
  match m with
  | Ok a => k a
  | Raise e => Raise e
  end.

Notation "x <- m ;; k" := (bind m (fun x => k))
  (at level 61, m at next level, right associativity).

Definition of_option {A : Type} (o : option A) (e : exn) : result A :=
  match o with
  | Some a => Ok a
  | None => Raise e
  end.

(** ** Numbers *)

Inductive float : Type :=
| Fin (q : Q)
| PInf
| NInf
| NaN.

Definition Qsign (q : Q) : comparison := q ?= 0.

(** [np.isnan] *)
Definition isnan (x : float) : bool :=
  match x with
  | NaN => true
  | _ => false
  end.

Definition fadd (x y : float) : float :=
  match x, y with
  | NaN, _ | _, NaN => NaN
  | Fin a, Fin b => Fin (Qred (a + b))
  | PInf, NInf | NInf, PInf => NaN
  | PInf, _ | _, PInf => PInf
  | NInf, _ | _, NInf => NInf
  end.

Definition fsub (x y : float) : float :=
  match x, y with
  | NaN, _ | _, NaN => NaN
  | Fin a, Fin b => Fin (Qred (a - b))
  | PInf, PInf | NInf, NInf => NaN
  | PInf, _ | _, NInf => PInf
  | NInf, _ | _, PInf => NInf
  end.

(** an infinity of the sign of [c], NaN when [c] is a zero *)
Definition signed_inf (c : comparison) : float :=
  match c with
  | Gt => PInf
  | Lt => NInf
  | Eq => NaN
  end.

Definition fsign (x : float) : option comparison :=
  match x with
  | Fin q => Some (Qsign q)
  | PInf => Some Gt
  | NInf => Some Lt
  | NaN => None
  end.

Definition sign_mul (c d : comparison) : comparison :=
  match c, d with
  | Eq, _ | _, Eq => Eq
  | Gt, Gt | Lt, Lt => Gt
  | _, _ => Lt
  end.

Definition fmul (x y : float) : float :=
  match x, y with
  | Fin a, Fin b => Fin (Qred (a * b))
  | _, _ =>
      match fsign x, fsign y with
      | Some c, Some d => signed_inf (sign_mul c d)
      | _, _ => NaN
      end
  end.

(** Division with a numpy operand: never raises. *)
Definition np_div (x y : float) : float :=
  match x, y with
  | NaN, _ | _, NaN => NaN
  | Fin a, Fin b =>
      match Qsign b with
      | Eq => signed_inf (Qsign a)
      | _ => Fin (Qred (a / b))
      end
  | Fin _, _ => Fin 0
  | _, Fin b =>
      match fsign x, Qsign b with
      | Some c, Lt => signed_inf (sign_mul c Lt)
      | Some c, _ => signed_inf c
      | None, _ => NaN
      end
  | _, _ => NaN
  end.

Definition is_zero (x : float) : bool :=
  match x with
  | Fin q => Qeq_bool q 0
  | _ => false
  end.

(** Division between Python numbers: [ZeroDivisionError] on a zero divisor,
    whatever the dividend. *)
Definition py_div (x y : float) : result float :=
  if is_zero y then Raise ZeroDivisionError else Ok (np_div x y).

(** [x ** n] for a literal exponent [n] *)
Fixpoint fpow (x : float) (n : nat) : float :=
  match n with
  | O => Fin 1
  | S m => fmul x (fpow x m)
  end.

(** the least magnitude that binary64 rounds to an infinity *)
Definition float_overflow : Q := inject_Z (2 ^ 1024 - 2 ^ 970).

(** [x ** n] between Python floats: where the power of a finite base is
    too large for a float, CPython raises [OverflowError]. *)
Definition py_pow (x : float) (n : nat) : result float :=
  match fpow x n with
  | Fin q =>
      if Qle_bool float_overflow (Qabs q) then Raise OverflowError else Ok (Fin q)
  | y => Ok y
  end.

(** a list comprehension whose element may raise *)
Fixpoint comprehension {A B : Type} (f : A -> result B) (l : list A)
    : result (list B) :=
  match l with
  | [] => Ok []
  | x :: rest =>
      y <- f x ;;
      ys <- comprehension f rest ;;
      Ok (y :: ys)
  end.

(** [x < y], [x > y], [x == y]: false as soon as one side is NaN *)
Definition flt (x y : float) : bool :=
  match x, y with
  | NaN, _ | _, NaN => false
  | Fin a, Fin b => match a ?= b with Lt => true | _ => false end
  | NInf, NInf => false
  | NInf, _ => true
  | _, NInf => false
  | PInf, _ => false
  | _, PInf => true
  end.

Definition fgt (x y : float) : bool := flt y x.

Definition feq (x y : float) : bool :=
  match x, y with
  | Fin a, Fin b => Qeq_bool a b
  | PInf, PInf | NInf, NInf => true
  | _, _ => false
  end.

Definition fle (x y : float) : bool := flt x y || feq x y.

(** *** Rounding to six decimals

    [round(x, 6)] and [ndarray.round(6)]: the nearest multiple of 10^-6,
    a tie going to the even multiple; infinities and NaN round to
    themselves.  This is the rounding of the number itself; what numpy
    computes in binary64 is [Machine.np_round6]. *)

Definition round_half_even (x : Q) : Z :=
  let f := Qfloor x in
  match Qcompare (x - inject_Z f) (1 # 2) with
  | Lt => f
  | Gt => (f + 1)%Z
  | Eq => if Z.even f then f else (f + 1)%Z
  end.

Definition million : Q := 1000000 # 1.

Definition Qround6 (q : Q) : Q :=
  Qred (inject_Z (round_half_even (q * million)) / million).

Definition round6 (x : float) : float :=
  match x with
  | Fin q => Fin (Qround6 q)
  | _ => x
  end.

(** *** [np.sqrt(v).round(6)]

    A square root is not rational in general, so the two calls are embedded
    as one function: the multiple of 10^-6 nearest to the real square root,
    computed exactly with the integer square root. *)

Definition Qsqrt_round6 (q : Q) : Q :=
  let n := q * million * million in
  let k := Z.sqrt (Qfloor n) in
  let half_sq := inject_Z (k * k + k) + (1 # 4) in   (* (k + 1/2)^2 *)
  let r := match n ?= half_sq with
           | Lt => k
           | Gt => (k + 1)%Z
           | Eq => if Z.even k then k else (k + 1)%Z
           end in
  Qred (inject_Z r / million).

Definition sqrt_round6 (x : float) : float :=
  match x with
  | Fin q => match Qsign q with
             | Lt => NaN
             | _ => Fin (Qsqrt_round6 q)
             end
  | PInf => PInf
  | _ => NaN
  end.

(** [sum(xs)]: left to right from the integer 0 *)
Definition py_sum (xs : list float) : float := fold_left fadd xs (Fin 0).

(** [x % 1]: the fractional part, in [0, 1); NaN for an infinity or NaN *)
Definition py_mod1 (x : float) : float :=
  match x with
  | Fin q => Fin (Qred (q - inject_Z (Qfloor q)))
  | _ => NaN
  end.

(** [int(x)] truncates toward zero; on NaN and on an infinity Python raises
    [ValueError] and [OverflowError]. *)
Definition Qtruncate (q : Q) : Z := Z.quot (Qnum q) (Zpos (Qden q)).

Definition of_int (n : Z) : float := Fin (inject_Z n).

(** [len(xs)] and [Series.shape[0]] *)
Definition len {A : Type} (xs : list A) : float := of_int (Z.of_nat (List.length xs)).

Definition py_int (x : float) : result Z :=
  match x with
  | Fin q => Ok (Qtruncate q)
  | NaN => Raise ValueError
  | _ => Raise OverflowError
  end.

(** ** Dictionaries, series and tables *)

(** A Python [dict]: keys in insertion order, each at most once. *)
Definition dict (V : Type) : Type := list (string * V).

Fixpoint dict_get {V : Type} (d : dict V) (k : string) : result V :=
  match d with
  | [] => Raise KeyError
  | (k', v) :: rest => if String.eqb k' k then Ok v else dict_get rest k
  end.

(** [d[k] = v]: an existing key keeps its place, a new one goes last. *)
Fixpoint dict_set {V : Type} (d : dict V) (k : string) (v : V) : dict V :=
  match d with
  | [] => [(k, v)]
  | (k', v') :: rest =>
      if String.eqb k' k then (k', v) :: rest else (k', v') :: dict_set rest k v
  end.

Definition keys {V : Type} (d : dict V) : list string := map fst d.

(** A column of the table: numeric ([int64] or [float64], NaN marking a
    missing entry) or of another dtype. *)
Inductive series : Type :=
| Numeric (values : list float)
| Object (values : list string).

Definition DataFrame : Type := list (string * series).

Definition is_numeric (s : series) : bool :=
  match s with
  | Numeric _ => true
  | Object _ => false
  end.

(** [data.select_dtypes(include=[np.number]).columns] *)
Definition numeric_cols (data : DataFrame) : list string :=
  keys (filter (fun c => is_numeric (snd c)) data).

(** [self.data[col]], for the columns statistics are asked of: the numeric
    ones. *)
Fixpoint column (data : DataFrame) (col : string) : result (list float) :=
  match data with
  | [] => Raise KeyError
  | (name, s) :: rest =>
      if String.eqb name col then
        match s with
        | Numeric vs => Ok vs
        | Object _ => Raise KeyError
        end
      else column rest col
  end.

(** [Series.dropna()] *)
Definition dropna (vs : list float) : list float :=
  filter (fun x => negb (isnan x)) vs.

(** [s[i]] on a series with the default index 0 .. len-1 *)
Definition at_label (vs : list float) (i : Z) : result float :=
  if (i <? 0)%Z then Raise KeyError
  else of_option (nth_error vs (Z.to_nat i)) KeyError.

(** [Series.sort_values().reset_index(drop=True)], ascending *)
Fixpoint insert_sorted (x : float) (l : list float) : list float :=
  match l with
  | [] => [x]
  | y :: rest => if flt y x then y :: insert_sorted x rest else x :: l
  end.

Definition sort_values (vs : list float) : list float :=
  fold_right insert_sorted [] vs.

(** ** The class [Describe]

    [self.stats] maps a column name to the dictionary of its statistics.
    Every method is a loop [for col in self.stats] whose body reads
    [self.data[col]] and reads and writes [self.stats[col]]; the body of
    the method [get_x] is embedded as [get_x_col]. *)

Definition col_stats : Type := dict float.
Definition report : Type := dict col_stats.

Fixpoint for_each_col (body : string -> col_stats -> result col_stats)
    (stats : report) : result report :=
  match stats with
  | [] => Ok []
  | (col, rec) :: rest =>
      rec' <- body col rec ;;
      rest' <- for_each_col body rest ;;
      Ok ((col, rec') :: rest')
  end.

(** a loop whose body starts by fetching [self.data[col]] *)
Definition for_each_series (data : DataFrame)
    (body : list float -> col_stats -> result col_stats) : report -> result report :=
  for_each_col (fun col rec => vs <- column data col ;; body vs rec).

Definition label_column : string := "Hogwarts House".

(** [{col: {} for col in numeric_cols if col != "Hogwarts House"}] *)
Definition init_stats (data : DataFrame) : report :=
  fold_left
    (fun stats col =>
       if String.eqb col label_column then stats else dict_set stats col [])
    (numeric_cols data) [].

Definition get_count_col (vs : list float) (rec : col_stats) : result col_stats :=
  let data_col := dropna vs in
  Ok (dict_set rec "count" (len data_col)).

Definition get_missing_values_col (data_col : list float) (rec : col_stats)
    : result col_stats :=
  let count := len data_col in
  c <- dict_get rec "count" ;;
  let missing_values := fsub count c in
  ratio <- py_div missing_values count ;;
  Ok (dict_set rec "missing(%)" (round6 (fmul ratio (of_int 100)))).

Definition get_mean_col (vs : list float) (rec : col_stats) : result col_stats :=
  let data_col := dropna vs in
  c <- dict_get rec "count" ;;
  mean <- py_div (py_sum data_col) c ;;
  Ok (dict_set rec "mean" (round6 mean)).

Definition get_var_col (vs : list float) (rec : col_stats) : result col_stats :=
  let data_col := dropna vs in
  c <- dict_get rec "count" ;;
  mean <- py_div (py_sum data_col) c ;;
  squares <- comprehension (fun i => py_pow (fsub i mean) 2) data_col ;;
  c' <- dict_get rec "count" ;;
  variance <- py_div (py_sum squares) (fsub c' (of_int 1)) ;;
  Ok (dict_set rec "var" (round6 variance)).

Definition get_std_col (rec : col_stats) : result col_stats :=
  variance <- dict_get rec "var" ;;
  Ok (dict_set rec "std" (sqrt_round6 variance)).

(** The inner loop of [get_min]: [self.stats[col]["min"]] is read back at
    every present entry and overwritten by the rounded entry when that is
    smaller. *)
Fixpoint min_loop (vs : list float) (rec : col_stats) : result col_stats :=
  match vs with
  | [] => Ok rec
  | i :: rest =>
      if negb (isnan i) then
        m <- dict_get rec "min" ;;
        if flt i m then min_loop rest (dict_set rec "min" (round6 i))
        else min_loop rest rec
      else min_loop rest rec
  end.

Definition get_min_col (vs : list float) (rec : col_stats) : result col_stats :=
  first <- at_label vs 0 ;;
  min_loop vs (dict_set rec "min" first).

(** The text shared by [get_25], [get_50] and [get_75], which differ by the
    literal [p] and by the key only. *)
Definition quartile (p : Q) (vs : list float) (rec : col_stats) : result float :=
  let data_col := sort_values (dropna vs) in
  c <- dict_get rec "count" ;;
  let value := fmul (fsub c (of_int 1)) (Fin p) in
  if feq (py_mod1 value) (of_int 0) then
    value' <- py_int value ;;
    quartile <- at_label data_col value' ;;
    Ok (round6 quartile)
  else
    lower_value <- py_int value ;;
    let upper_value := (lower_value + 1)%Z in
    let interpolation := fsub value (of_int lower_value) in
    lo <- at_label data_col lower_value ;;
    hi <- at_label data_col upper_value ;;
    let quartile :=
      fadd (fmul lo (fsub (of_int 1) interpolation)) (fmul hi interpolation) in
    Ok (round6 quartile).

Definition get_25_col (vs : list float) (rec : col_stats) : result col_stats :=
  q <- quartile (1 # 4) vs rec ;;
  Ok (dict_set rec "25%" q).

Definition get_50_col (vs : list float) (rec : col_stats) : result col_stats :=
  q <- quartile (1 # 2) vs rec ;;
  Ok (dict_set rec "50%" q).

Definition get_75_col (vs : list float) (rec : col_stats) : result col_stats :=
  q <- quartile (3 # 4) vs rec ;;
  Ok (dict_set rec "75%" q).

Fixpoint max_loop (vs : list float) (rec : col_stats) : result col_stats :=
  match vs with
  | [] => Ok rec
  | i :: rest =>
      if negb (isnan i) then
        m <- dict_get rec "max" ;;
        if fgt i m then max_loop rest (dict_set rec "max" (round6 i))
        else max_loop rest rec
      else max_loop rest rec
  end.

Definition get_max_col (vs : list float) (rec : col_stats) : result col_stats :=
  first <- at_label vs 0 ;;
  max_loop vs (dict_set rec "max" first).

(** The loop of [get_mode] over [i = 1 .. len-1]: [prev] is
    [data_col[i - 1]] and the head of [rest] is [data_col[i]].  Nothing
    follows the last iteration. *)
Fixpoint mode_loop (prev : float) (rest : list float)
    (mode : float) (count max_count : Z) : float :=
  match rest with
  | [] => mode
  | x :: rest' =>
      if feq x prev then mode_loop x rest' mode (count + 1)%Z max_count
      else if (count >? max_count)%Z then mode_loop x rest' prev 0%Z count
      else mode_loop x rest' mode 0%Z max_count
  end.

Definition mode_of (vs : list float) : result float :=
  let data_col := sort_values (dropna vs) in
  mode <- at_label data_col 0 ;;
  Ok (mode_loop mode (tl data_col) mode 0%Z 0%Z).

Definition get_mode_col (vs : list float) (rec : col_stats) : result col_stats :=
  mode <- mode_of vs ;;
  Ok (dict_set rec "mode" mode).

Definition get_iqr_col (rec : col_stats) : result col_stats :=
  p75 <- dict_get rec "75%" ;;
  p25 <- dict_get rec "25%" ;;
  Ok (dict_set rec "iqr" (fsub p75 p25)).

(** [std] is a numpy scalar, so the inner division never raises; the sum of
    an empty list is the Python integer 0, which is then divided as a
    Python number. *)
Definition kurtosis_of (data_col : list float) (mean std c : float) : result float :=
  let terms := map (fun i => fpow (np_div (fsub i mean) std) 4) data_col in
  match terms with
  | [] => py_div (of_int 0) c
  | _ :: _ => Ok (np_div (py_sum terms) c)
  end.

Definition get_kurtosis_col (vs : list float) (rec : col_stats) : result col_stats :=
  let data_col := dropna vs in
  mean <- dict_get rec "mean" ;;
  std <- dict_get rec "std" ;;
  c <- dict_get rec "count" ;;
  kurtosis <- kurtosis_of data_col mean std c ;;
  Ok (dict_set rec "kurtosis" (round6 kurtosis)).

Section Methods.

Variable data : DataFrame.

Definition get_count := for_each_series data get_count_col.
Definition get_missing_values := for_each_series data get_missing_values_col.
Definition get_mean := for_each_series data get_mean_col.
Definition get_var := for_each_series data get_var_col.
Definition get_std := for_each_col (fun _ => get_std_col).
Definition get_min := for_each_series data get_min_col.
Definition get_25 := for_each_series data get_25_col.
Definition get_50 := for_each_series data get_50_col.
Definition get_75 := for_each_series data get_75_col.
Definition get_iqr := for_each_col (fun _ => get_iqr_col).
Definition get_max := for_each_series data get_max_col.
Definition get_mode := for_each_series data get_mode_col.
Definition get_kurtosis := for_each_series data get_kurtosis_col.

(** [Describe.__init__]; the result is [self.stats]. *)
Definition Describe : result report :=
  s <- get_count (init_stats data) ;;
  s <- get_missing_values s ;;
  s <- get_mean s ;;
  s <- get_var s ;;
  s <- get_std s ;;
  s <- get_min s ;;
  s <- get_25 s ;;
  s <- get_50 s ;;
  s <- get_75 s ;;
  s <- get_iqr s ;;
  s <- get_max s ;;
  s <- get_mode s ;;
  get_kurtosis s.

End Methods.

(** ** The quantile of the specification

    Section 4.5, steps 1 to 5, word for word: sort, virtual index
    [v = (count - 1) * p], the sorted value at [v] when [v] is an integer,
    otherwise the interpolation between positions [floor v] and
    [floor v + 1], then rounding. *)

Definition spec_quantile (p : Q) (present : list float) : float :=
  let sorted := sort_values present in
  let count := Z.of_nat (List.length present) in
  let v := inject_Z (count - 1) * p in
  let lo := Qfloor v in
  let hi := (lo + 1)%Z in
  let frac := v - inject_Z lo in
  let at_ (i : Z) := nth (Z.to_nat i) sorted NaN in
  round6 (if Qeq_bool v (inject_Z lo) then at_ lo
          else fadd (fmul (at_ lo) (Fin (1 - frac))) (fmul (at_ hi) (Fin frac))).

(** ** The kurtosis of the specification *)

Definition Qsum (l : list Q) : Q := fold_right Qplus 0 l.

(** The fourth standardized moment as the specification words it: the
    mean over the present values of ((x - mean) / std)^4, rounded. *)
Definition spec_kurtosis (xs : list Q) (mean std : Q) : Q :=
  Qround6 (Qsum (map (fun x => ((x - mean) / std) ^ 4) xs)
           / inject_Z (Z.of_nat (List.length xs))).

(** ** Predicates of the statements *)

(** the names of the columns the report is made of *)
Definition qualifying (data : DataFrame) : list string :=
  filter (fun c => negb (String.eqb c label_column)) (numeric_cols data).

(** [x] is not above [y] *)
Definition not_above (x y : float) : Prop := flt y x = false.

(** number of entries of [l] equal to [x] *)
Definition occurrences (x : float) (l : list float) : nat :=
  List.length (filter (feq x) l).

(** [x] is the finite number [q] *)
Definition finite (x : float) (q : Q) : Prop :=
  exists b, x = Fin b /\ b == q.

(** [rec'] is [rec] but for the key [key] *)
Definition frame (key : string) (rec rec' : col_stats) : Prop :=
  forall k, k <> key -> dict_get rec' k = dict_get rec k.

(** the column of [col] is known and its ["count"] is the number of its
    present values *)
Definition counted (data : DataFrame) (e : string * col_stats) : Prop :=
  exists vs, column data (fst e) = Ok vs /\
             dict_get (snd e) "count" = Ok (len (dropna vs)).

(** The thirteen bodies in the order of [__init__], on one column: what
    the thirteen loops do to the entry of that column when none raises. *)
Definition describe_col (vs : list float) (rec : col_stats) : result col_stats :=
  rec <- get_count_col vs rec ;;
  rec <- get_missing_values_col vs rec ;;
  rec <- get_mean_col vs rec ;;
  rec <- get_var_col vs rec ;;
  rec <- get_std_col rec ;;
  rec <- get_min_col vs rec ;;
  rec <- get_25_col vs rec ;;
  rec <- get_50_col vs rec ;;
  rec <- get_75_col vs rec ;;
  rec <- get_iqr_col rec ;;
  rec <- get_max_col vs rec ;;
  rec <- get_mode_col vs rec ;;
  get_kurtosis_col vs rec.

(** the two exceptions that leave [__init__] *)
Definition construction_error (e : exn) : Prop :=
  e = ZeroDivisionError \/ e = OverflowError.

(** The squares that [get_var] sums, for a column with a present value:
    the list comprehension raises where a square is out of range. *)
Definition squared_deviations (vs : list float) : result (list float) :=
  let present := dropna vs in
  let mean := np_div (py_sum present) (len present) in
  comprehension (fun i => py_pow (fsub i mean) 2) present.

(** What the loops of [get_min] and [get_max] leave under ["min"] and
    ["max"], from the value [m] found there when they start. *)
Fixpoint scan_min (vs : list float) (m : float) : float :=
  match vs with
  | [] => m
  | i :: rest =>
      if negb (isnan i) && flt i m then scan_min rest (round6 i)
      else scan_min rest m
  end.

Fixpoint scan_max (vs : list float) (m : float) : float :=
  match vs with
  | [] => m
  | i :: rest =>
      if negb (isnan i) && fgt i m then scan_max rest (round6 i)
      else scan_max rest m
  end.

(** The record of a column with the entries [vs], given its mode. *)
Definition expected_record (vs : list float) (mode : float) : col_stats :=
  let present := dropna vs in
  let n := len present in
  let mean := np_div (py_sum present) n in
  let variance :=
    np_div (py_sum (map (fun i => fpow (fsub i mean) 2) present))
           (fsub n (of_int 1)) in
  let std := sqrt_round6 (round6 variance) in
  let first := hd NaN vs in
  let kurtosis :=
    np_div (py_sum (map (fun i => fpow (np_div (fsub i (round6 mean)) std) 4)
                        present)) n in
  [("count", n);
   ("missing(%)", round6 (fmul (np_div (fsub (len vs) n) (len vs)) (of_int 100)));
   ("mean", round6 mean);
   ("var", round6 variance);
   ("std", std);
   ("min", scan_min vs first);
   ("25%", spec_quantile (1 # 4) present);
   ("50%", spec_quantile (1 # 2) present);
   ("75%", spec_quantile (3 # 4) present);
   ("iqr", fsub (spec_quantile (3 # 4) present) (spec_quantile (1 # 4) present));
   ("max", scan_max vs first);
   ("mode", mode);
   ("kurtosis", round6 kurtosis)]%string.

(** the keys of a finished record, in insertion order *)
Definition stat_keys : list string :=
  ["count"; "missing(%)"; "mean"; "var"; "std"; "min"; "25%"; "50%"; "75%";
   "iqr"; "max"; "mode"; "kurtosis"]%string.

(** ** Example tables *)

(** a float given by its digits scaled by 10^-7 *)
Definition dec7 (n : Z) : float := Fin (Qred (n # 10000000)).

Definition ints (ns : list Z) : series := Numeric (map of_int ns).

Definition t12345 : DataFrame :=
  [("Index"%string, ints [0; 1; 2; 3; 4]%Z);
   ("Hogwarts House"%string, Object ["a"; "b"; "c"; "d"; "e"]%string);
   ("Arithmancy"%string, ints [1; 2; 3; 4; 5]%Z)].

(** five present values, the first of which is the smallest and has seven
    decimals *)
Definition t_order : DataFrame :=
  [("A"%string,
    Numeric [dec7 10000004; dec7 10000004; of_int 5; of_int 6; of_int 7])].

(** the present values 1, 2, 2: the longest run ends the sorted series *)
Definition t_mode : DataFrame := [("A"%string, ints [1; 2; 2]%Z)].

(** a column whose first entry is missing *)
Definition t_first_missing : DataFrame :=
  [("A"%string, Numeric [NaN; of_int 3; of_int 1])].

(** one column with a single present value *)
Definition t_single : DataFrame := [("A"%string, Numeric [of_int 7])].

(** a column with three present values beside a column with one *)
Definition t_partial : DataFrame :=
  [("A"%string, ints [1; 2; 3]%Z);
   ("B"%string, Numeric [of_int 7; NaN; NaN])].

(** the same two columns under exchanged names *)
Definition t_mirror : DataFrame :=
  [("A"%string, Numeric [of_int 7; NaN; NaN]);
   ("B"%string, ints [1; 2; 3]%Z)].

(** ** The presenter: [find_max_width], [print_stats] and [main]

    What [print_stats] prints is embedded as the list of the printed lines.
    Its first statement, [next(iter(self.stats))], raises [StopIteration] on
    an empty report; a list index out of range raises [IndexError]. *)

From Stdlib Require Import Ascii.

Inductive py_exn : Type :=
| Builtin (e : exn)
| StopIteration
| IndexError.

Inductive run (A : Type) : Type :=
| Returned (a : A)
| Aborted (e : py_exn).

Arguments Returned {A} a.
Arguments Aborted {A} e.

Definition run_bind {A B : Type} (m : run A) (k : A -> run B) : run B :=
  match m with
  | Returned a => k a
  | Aborted e => Aborted e
  end.

Notation "x <~ m ;; k" := (run_bind m (fun x => k))
  (at level 61, m at next level, right associativity).

Definition lift {A : Type} (r : result A) : run A :=
  match r with
  | Ok a => Returned a
  | Raise e => Aborted (Builtin e)
  end.

(** a loop that collects one result per element *)
Fixpoint for_each {A B : Type} (body : A -> run B) (l : list A) : run (list B) :=
  match l with
  | [] => Returned []
  | x :: rest =>
      y <~ body x ;;
      ys <~ for_each body rest ;;
      Returned (y :: ys)
  end.

(** [l[i]] on a list, for [i >= 0] *)
Definition at_index {A : Type} (l : list A) (i : nat) : run A :=
  match nth_error l i with
  | Some x => Returned x
  | None => Aborted IndexError
  end.

(** [l.index(x)]: the first position of [x]; [ValueError] when absent *)
Fixpoint list_index (x : string) (l : list string) : run nat :=
  match l with
  | [] => Aborted (Builtin ValueError)
  | y :: rest =>
      if String.eqb y x then Returned 0%nat
      else i <~ list_index x rest ;; Returned (S i)
  end.

(** [range(start, stop, step)] for [step > 0]; [fuel] bounds the number of
    elements. *)
Fixpoint py_range (fuel start stop step : nat) : list nat :=
  match fuel with
  | O => []
  | S fuel' =>
      if (start <? stop)%nat then start :: py_range fuel' (start + step) stop step
      else []
  end.

(** [enumerate(l)] *)
Definition enumerate {A : Type} (l : list A) : list (nat * A) :=
  combine (seq 0 (List.length l)) l.

Fixpoint spaces (n : nat) : string :=
  match n with
  | O => EmptyString
  | S m => String " "%char (spaces m)
  end.

(** [f"{s:<w}"]: [s] padded with spaces on the right up to the width [w],
    never cut *)
Definition ljust (s : string) (w : nat) : string :=
  (s ++ spaces (w - String.length s))%string.

(** ["".join(parts)] *)
Definition join (parts : list string) : string :=
  fold_right String.append EmptyString parts.

(** ["-" * n] *)
Fixpoint dashes (n : nat) : string :=
  match n with
  | O => EmptyString
  | S m => String "-"%char (dashes m)
  end.

Definition find_max_width (items : list string) : nat :=
  fold_left
    (fun max_width item =>
       if (max_width <? String.length item)%nat then String.length item
       else max_width)
    items 0%nat.

Section Presenter.

(** The text that lines 245 to 248 give to the object stored under
    [stats[col][stat]]: six decimals for a [float] or an [int], [str] for
    any other object, such as a numpy integer.  The class of the object is
    not part of the number model, so the text is a parameter. *)
Variable cell_text : string -> string -> float -> string.

(** [stats_data[col]], lines 242 to 248 *)
Definition column_texts (stats_headers : list string) (col : string)
    (rec : col_stats) : list string :=
  map (fun stat =>
         match dict_get rec stat with      (* .get(stat, 'NaN') *)
         | Ok value => cell_text col stat value
         | Raise _ => "NaN"%string
         end)
      stats_headers.

(** lines 254 to 270: the lines printed for one group of columns *)
Definition print_group (stats_headers : list string)
    (stats_data : dict (list string)) (selected_columns : list string)
    : run (list string) :=
  col_widths <~ for_each
    (fun col =>
       data <~ lift (dict_get stats_data col) ;;
       Returned (find_max_width (col :: data)))
    selected_columns ;;
  let column_headers := EmptyString :: selected_columns in
  cells <~ for_each
    (fun j =>
       header <~ at_index column_headers j ;;
       width <~ at_index col_widths (j - 1) ;;
       Returned (ljust header (width + 2)))
    (py_range (List.length column_headers) 1 (List.length column_headers) 1) ;;
  let header_row := join cells in
  let first_line := (ljust EmptyString 15 ++ header_row)%string in
  rows <~ for_each
    (fun stat =>
       formatted <~ for_each
         (fun jc =>
            data <~ lift (dict_get stats_data (snd jc)) ;;
            position <~ list_index stat stats_headers ;;
            text <~ at_index data position ;;
            width <~ at_index col_widths (fst jc) ;;
            Returned (ljust text (width + 2)))
         (enumerate selected_columns) ;;
       Returned (join (ljust stat 15 :: formatted)))
    stats_headers ;;
  Returned (first_line :: rows ++ [dashes 60]).

Definition print_stats (stats : report) : run (list string) :=
  match stats with
  | [] => Aborted StopIteration           (* next(iter(self.stats)) *)
  | (first_col, _) :: _ =>
      first <~ lift (dict_get stats first_col) ;;
      let stats_headers := keys first in
      let stats_data :=
        map (fun e => (fst e, column_texts stats_headers (fst e) (snd e))) stats in
      let columns := keys stats in
      let cols_per_row := 3%nat in
      groups <~ for_each
        (fun i =>
           let selected_columns := firstn cols_per_row (skipn i columns) in
           print_group stats_headers stats_data selected_columns)
        (py_range (List.length columns) 0 (List.length columns) cols_per_row) ;;
      Returned (List.concat groups)
  end.

(** [main], from the table that [load_dataset] returns *)
Definition main (data : DataFrame) : run (list string) :=
  myDescribe <~ lift (Describe data) ;;
  print_stats myDescribe.

End Presenter.

(** *** The printed table, group by group

    The lines of the further statements: the columns in groups of
    [cols_per_row], and for a group its header line, one line per
    statistic and the line of dashes. *)

Definition groups_of (cols_per_row : nat) (stats : report) : list report :=
  map (fun i => firstn cols_per_row (skipn i stats))
      (py_range (List.length stats) 0 (List.length stats) cols_per_row).

Section Layout.

Variable cell_text : string -> string -> float -> string.
Variable stats_headers : list string.

Definition cell_of (stat : string) (e : string * col_stats) : string :=
  match dict_get (snd e) stat with
  | Ok value => cell_text (fst e) stat value
  | Raise _ => "NaN"%string
  end.

Definition width_of (e : string * col_stats) : nat :=
  find_max_width (fst e :: column_texts cell_text stats_headers (fst e) (snd e)).

Definition header_line (group : report) : string :=
  (spaces 15 ++ join (map (fun e => ljust (fst e) (width_of e + 2)) group))%string.

Definition stat_line (group : report) (stat : string) : string :=
  (ljust stat 15
   ++ join (map (fun e => ljust (cell_of stat e) (width_of e + 2)) group))%string.

Definition group_lines (group : report) : list string :=
  header_line group :: map (stat_line group) stats_headers ++ [dashes 60].

(** the width of the table of a group, when no header is longer than 15 *)
Definition table_width (group : report) : nat :=
  (15 + list_sum (map (fun e => width_of e + 2) group))%nat.

End Layout.

(** A text for the examples: the name of the statistic. *)
Definition text_stub (col stat : string) (value : float) : string := stat.


(** ** The histograms of all features

    [histogram_all_features] of histogram.py draws through matplotlib; its
    effect is the sequence of the calls it makes, kept up to the point
    where an exception stops it.  The constant argument [alpha=0.3] is
    left out of the calls, and [plt.show()] without argument, which waits
    for the windows to be closed, is [show true]. *)

Inductive plot_call : Type :=
| figure (width height : nat)                  (* plt.figure(figsize=..) *)
| subplot (nrows ncols index : nat)            (* plt.subplot(..) *)
| hist (x : list float) (bins : nat) (color label : string)
| set_title (text : string)
| set_xlabel (text : string)
| set_ylabel (text : string)
| legend
| tight_layout
| show (block : bool).                         (* plt.show(block=..) *)

(** a computation that adds to the calls made so far and returns or
    raises *)
Definition plot (A : Type) : Type := list plot_call -> list plot_call * run A.

Definition plot_ret {A : Type} (a : A) : plot A := fun calls => (calls, Returned a).

Definition plot_bind {A B : Type} (m : plot A) (k : A -> plot B) : plot B :=
  fun calls =>
    match m calls with
    | (calls', Returned a) => k a calls'
    | (calls', Aborted e) => (calls', Aborted e)
    end.

Notation "x <~~ m ;; k" := (plot_bind m (fun x => k))
  (at level 61, m at next level, right associativity).

Definition call (c : plot_call) : plot unit :=
  fun calls => (calls ++ [c], Returned tt).

Definition plot_lift {A : Type} (r : run A) : plot A := fun calls => (calls, r).

Fixpoint plot_for {A : Type} (body : A -> plot unit) (l : list A) : plot unit :=
  match l with
  | [] => plot_ret tt
  | x :: rest => _ <~~ body x ;; plot_for body rest
  end.

Definition colors : dict string :=
  [("Gryffindor", "red"); ("Hufflepuff", "yellow");
   ("Ravenclaw", "blue"); ("Slytherin", "green")]%string.

(** [histogram_all_features(data)], lines 55 to 79.  [house_data] is the
    dictionary of line 59: for every house that
    [data.groupby('Hogwarts House')] yields, the rows of that house. *)
Definition histogram_all_features (data : DataFrame) (house_data : dict DataFrame)
    : plot unit :=
  let numeric_data_columns :=
    filter (fun col => negb (String.eqb col "Index")) (numeric_cols data) in
  let num_columns := List.length numeric_data_columns in
  plot_for
    (fun i =>
       _ <~~ call (figure 12 10) ;;
       _ <~~ plot_for
         (fun j =>
            if (i + j <? num_columns)%nat then
              _ <~~ call (subplot 2 2 (j + 1)) ;;
              _ <~~ plot_for
                (fun item =>
                   feature <~~ plot_lift (at_index numeric_data_columns (i + j)) ;;
                   values <~~ plot_lift (lift (column (snd item) feature)) ;;
                   color <~~ plot_lift (lift (dict_get colors (fst item))) ;;
                   call (hist (dropna values) 20 color (fst item)))
                house_data ;;
              feature <~~ plot_lift (at_index numeric_data_columns (i + j)) ;;
              _ <~~ call (set_title (feature ++ " Distribution")) ;;
              _ <~~ call (set_xlabel "Marks") ;;
              _ <~~ call (set_ylabel "Frequency") ;;
              call legend
            else plot_ret tt)
         (py_range 4 0 4 1) ;;
       _ <~~ call tight_layout ;;
       if (Z.of_nat i <? Z.of_nat num_columns - 4)%Z then call (show false)
       else call (show true))
    (py_range num_columns 0 num_columns 4).

(** *** What is drawn

    The columns that are drawn, the histogram of a feature for a house,
    and three views of a sequence of calls: its figures with their titles,
    its histograms, and the [block] of its calls of [show]. *)

Definition features_of (data : DataFrame) : list string :=
  filter (fun col => negb (String.eqb col "Index")) (numeric_cols data).

Definition hist_of (feature : string) (item : string * DataFrame) : plot_call :=
  let values := match column (snd item) feature with Ok vs => vs | Raise _ => [] end in
  let color := match dict_get colors (fst item) with
               | Ok c => c
               | Raise _ => EmptyString
               end in
  hist (dropna values) 20 color (fst item).

Definition outline_of (c : plot_call) : list plot_call :=
  match c with
  | figure _ _ | set_title _ => [c]
  | _ => []
  end.

Definition hists_of (c : plot_call) : list plot_call :=
  match c with
  | hist _ _ _ _ => [c]
  | _ => []
  end.

Definition shows_of (c : plot_call) : list bool :=
  match c with
  | show block => [block]
  | _ => []
  end.

(** [l] cut into slices of [k] elements, the last one of what is left *)
Definition slices {A : Type} (k : nat) (l : list A) : list (list A) :=
  map (fun i => firstn k (skipn i l)) (py_range (List.length l) 0 (List.length l) k).

(** the calls made for the feature at place [j] of a figure, and for the
    figure that starts at the column [i] *)
Definition feature_calls (house_data : dict DataFrame) (j : nat) (feature : string)
    : list plot_call :=
  subplot 2 2 (j + 1)
  :: map (hist_of feature) house_data
  ++ [set_title (feature ++ " Distribution"); set_xlabel "Marks";
      set_ylabel "Frequency"; legend].

Definition page_calls (house_data : dict DataFrame) (columns : list string)
    (i : nat) : list plot_call :=
  figure 12 10
  :: List.concat
       (map (fun j =>
               if (i + j <? List.length columns)%nat
               then feature_calls house_data j (nth (i + j) columns EmptyString)
               else [])
            [0; 1; 2; 3]%nat)
  ++ [tight_layout; show (negb (i + 4 <? List.length columns)%nat)].

(** a table of two pupils with five marks, and its rows by house *)
Definition t_five : DataFrame :=
  [("Index"%string, ints [0; 1]%Z);
   ("Hogwarts House"%string, Object ["Gryffindor"; "Slytherin"]%string);
   ("A"%string, ints [1; 2]%Z);
   ("B"%string, ints [3; 4]%Z);
   ("C"%string, Numeric [of_int 5; NaN]);
   ("D"%string, ints [7; 8]%Z);
   ("E"%string, ints [9; 10]%Z)].

Definition t_five_groups : dict DataFrame :=
  [("Gryffindor"%string,
    [("Index"%string, ints [0]%Z);
     ("Hogwarts House"%string, Object ["Gryffindor"%string]);
     ("A"%string, ints [1]%Z); ("B"%string, ints [3]%Z);
     ("C"%string, ints [5]%Z); ("D"%string, ints [7]%Z);
     ("E"%string, ints [9]%Z)]);
   ("Slytherin"%string,
    [("Index"%string, ints [1]%Z);
     ("Hogwarts House"%string, Object ["Slytherin"%string]);
     ("A"%string, ints [2]%Z); ("B"%string, ints [4]%Z);
     ("C"%string, Numeric [NaN]); ("D"%string, ints [8]%Z);
     ("E"%string, ints [10]%Z)])].

(** the same rows with a house that has no colour *)
Definition t_five_other : dict DataFrame :=
  [("Gryffindor"%string, snd (hd (EmptyString, []) t_five_groups));
   ("Durmstrang"%string, snd (hd (EmptyString, []) (tl t_five_groups)))].

(** * Machine numbers: the quartiles, the interquartile range and the kurtosis

    The values that [get_25], [get_50], [get_75], [get_iqr] and
    [get_kurtosis] store depend on the arithmetic of the objects they
    compute with.  This part embeds these methods again, with the four
    classes of numbers the source meets kept apart and with their own
    arithmetic:

    - a Python [int], unbounded;
    - a Python [float] and a [numpy.float64], both binary64: a finite one
      is the rational it denotes, every operation is the exact operation
      followed by the rounding to the nearest binary64 number, ties to the
      even significand, with overflow to an infinity (the sign of a zero
      is not kept);
    - a [numpy.int64], whose arithmetic wraps around modulo 2^64.

    A pandas column has the dtype [int64], without missing entries, or
    [float64].  Indexing a Series gives a numpy scalar, iterating over it
    gives Python numbers. *)

Module Machine.

(** ** binary64 *)

Definition pow2 (e : Z) : Q := Qpower 2 e.

(** the integer [e] with 2^e <= q < 2^(e+1), for q > 0 *)
Definition Qlog2 (q : Q) : Z :=
  let e := (Z.log2 (Qnum q) - Z.log2 (Z.pos (Qden q)))%Z in
  if Qle_bool (pow2 e) q then e else (e - 1)%Z.

(** Rounding of a positive rational: 53 significant bits, and multiples of
    2^-1074 below 2^-1022; what rounds to 2^1024 is infinite. *)
Definition b64_pos (q : Q) : float :=
  let e := Qlog2 q in
  let ulp := pow2 (Z.max (e - 52) (-1074)) in
  let r := inject_Z (round_half_even (q / ulp)) * ulp in
  if Qle_bool (pow2 1024) r then PInf else Fin (Qred r).

Definition fneg (x : float) : float :=
  match x with
  | Fin q => Fin (Qred (- q))
  | PInf => NInf
  | NInf => PInf
  | NaN => NaN
  end.

(** the binary64 number nearest to [q] *)
Definition b64 (q : Q) : float :=
  match Qred q ?= 0 with
  | Eq => Fin 0
  | Gt => b64_pos (Qred q)
  | Lt => fneg (b64_pos (Qred (- q)))
  end.

Definition rnd (x : float) : float :=
  match x with
  | Fin q => b64 q
  | _ => x
  end.

Definition add64 (x y : float) : float := rnd (fadd x y).
Definition sub64 (x y : float) : float := rnd (fsub x y).
Definition mul64 (x y : float) : float := rnd (fmul x y).

(** binary64 division as numpy does it: a zero divisor gives an infinity
    or NaN *)
Definition div64 (x y : float) : float := rnd (np_div x y).

(** [np.rint]: the nearest integer, ties to the even one *)
Definition rint (x : float) : float :=
  match x with
  | Fin q => Fin (inject_Z (round_half_even q))
  | _ => x
  end.

(** [numpy.float64.round(6)], and [round(x, 6)] on a [numpy.float64]:
    times 10^6, [rint], divided by 10^6, each in binary64 *)
Definition np_round6 (x : float) : float :=
  div64 (rint (mul64 x (Fin million))) (Fin million).

(** [round(x, 6)] on a Python float: the decimal rounding of the number
    that [x] denotes, then the binary64 number nearest to it *)
Definition py_round6 (x : float) : float := rnd (round6 x).

(** ** int64 *)

Definition wrap64 (z : Z) : Z := ((z + 2 ^ 63) mod 2 ^ 64 - 2 ^ 63)%Z.

(** an integer as a binary64 number *)
Definition to_double (z : Z) : float := b64 (inject_Z z).

(** ** The numbers of the source *)

Inductive scalar : Type :=
| PyInt (n : Z)          (* Python int *)
| PyFloat (x : float)    (* Python float *)
| Int64 (n : Z)          (* numpy.int64 *)
| Float64 (x : float).   (* numpy.float64 *)

(** the number a scalar denotes *)
Definition value_of (s : scalar) : float :=
  match s with
  | PyInt n | Int64 n => of_int n
  | PyFloat x | Float64 x => x
  end.

(** the operand of a floating-point operation *)
Definition as_double (s : scalar) : float :=
  match s with
  | PyInt n | Int64 n => to_double n
  | PyFloat x | Float64 x => x
  end.

Definition is_numpy (s : scalar) : bool :=
  match s with
  | Int64 _ | Float64 _ => true
  | _ => false
  end.

Definition is_integer (s : scalar) : bool :=
  match s with
  | PyInt _ | Int64 _ => true
  | _ => false
  end.

Definition integer_of (s : scalar) : Z :=
  match s with
  | PyInt n | Int64 n => n
  | _ => 0%Z
  end.

(** [x + y], [x - y], [x * y]: between integers the operation of integers,
    wrapped when an operand is a [numpy.int64]; otherwise the binary64
    operation on the operands as doubles.  The result is a numpy scalar
    when an operand is one. *)
Definition arith (op_int : Z -> Z -> Z) (op_float : float -> float -> float)
    (x y : scalar) : scalar :=
  if is_integer x && is_integer y then
    let n := op_int (integer_of x) (integer_of y) in
    if is_numpy x || is_numpy y then Int64 (wrap64 n) else PyInt n
  else
    let r := op_float (as_double x) (as_double y) in
    if is_numpy x || is_numpy y then Float64 r else PyFloat r.

Definition add : scalar -> scalar -> scalar := arith Z.add add64.
Definition sub : scalar -> scalar -> scalar := arith Z.sub sub64.
Definition mul : scalar -> scalar -> scalar := arith Z.mul mul64.

(** [x / y]: between Python numbers a zero divisor raises and two integers
    give their quotient correctly rounded; with a numpy operand the
    binary64 division of the operands as doubles, which never raises. *)
Definition div (x y : scalar) : result scalar :=
  if is_numpy x || is_numpy y then Ok (Float64 (div64 (as_double x) (as_double y)))
  else if is_zero (value_of y) then Raise ZeroDivisionError
  else if is_integer x && is_integer y then Ok (PyFloat (rnd (np_div (value_of x) (value_of y))))
  else Ok (PyFloat (div64 (as_double x) (as_double y))).

(** [round(x, 6)]: an integer is returned as it is *)
Definition round6 (x : scalar) : scalar :=
  match x with
  | PyInt n => PyInt n
  | Int64 n => Int64 n
  | PyFloat a => PyFloat (py_round6 a)
  | Float64 a => Float64 (np_round6 a)
  end.

(** ** Columns *)

Inductive column : Type :=
| Int64s (values : list Z)
| Float64s (values : list float).

(** [Series.dropna()] *)
Definition dropna (col : column) : column :=
  match col with
  | Int64s l => Int64s l
  | Float64s l => Float64s (dropna l)
  end.

(** the values of a Series as indexing returns them *)
Definition entries (col : column) : list scalar :=
  match col with
  | Int64s l => map Int64 l
  | Float64s l => map Float64 l
  end.

(** the values of a Series as iteration returns them *)
Definition items (col : column) : list scalar :=
  match col with
  | Int64s l => map PyInt l
  | Float64s l => map PyFloat l
  end.

Definition lt (x y : scalar) : bool := flt (value_of x) (value_of y).

(** [Series.sort_values().reset_index(drop=True)] *)
Fixpoint insert_sorted (x : scalar) (l : list scalar) : list scalar :=
  match l with
  | [] => [x]
  | y :: rest => if lt y x then y :: insert_sorted x rest else x :: l
  end.

Definition sort_values (l : list scalar) : list scalar :=
  fold_right insert_sorted [] l.

(** [x] is not above [y] *)
Definition not_above (x y : scalar) : Prop := lt y x = false.

(** [s[i]] on a series with the default index *)
Definition at_label (l : list scalar) (i : Z) : result scalar :=
  if (i <? 0)%Z then Raise KeyError
  else of_option (nth_error l (Z.to_nat i)) KeyError.

Definition stats : Type := dict scalar.

(** ** [get_25], [get_50], [get_75] *)

(** [value] is computed between Python numbers; the product
    [(count - 1) * p] is exact in binary64 for every count below 2^51. *)
Definition quartile (p : Q) (col : column) (rec : stats) : result scalar :=
  let data_col := sort_values (entries (dropna col)) in
  c <- dict_get rec "count" ;;
  let value := fmul (fsub (value_of c) (of_int 1)) (Fin p) in
  if feq (py_mod1 value) (of_int 0) then
    value' <- py_int value ;;
    quartile <- at_label data_col value' ;;
    Ok (round6 quartile)
  else
    lower_value <- py_int value ;;
    let upper_value := (lower_value + 1)%Z in
    let interpolation := fsub value (of_int lower_value) in
    lo <- at_label data_col lower_value ;;
    hi <- at_label data_col upper_value ;;
    let quartile :=
      add (mul lo (PyFloat (fsub (of_int 1) interpolation)))
          (mul hi (PyFloat interpolation)) in
    Ok (round6 quartile).

Definition get_25_col (col : column) (rec : stats) : result stats :=
  q <- quartile (1 # 4) col rec ;;
  Ok (dict_set rec "25%" q).

Definition get_50_col (col : column) (rec : stats) : result stats :=
  q <- quartile (1 # 2) col rec ;;
  Ok (dict_set rec "50%" q).

Definition get_75_col (col : column) (rec : stats) : result stats :=
  q <- quartile (3 # 4) col rec ;;
  Ok (dict_set rec "75%" q).

(** ** [get_iqr] *)

Definition get_iqr_col (rec : stats) : result stats :=
  p75 <- dict_get rec "75%" ;;
  p25 <- dict_get rec "25%" ;;
  Ok (dict_set rec "iqr" (sub p75 p25)).

(** The quantile of the specification (sort, virtual index, the value
    there or the interpolation between its neighbours, rounding), in the
    arithmetic of the source: the neighbours are numpy scalars, the two
    weights Python floats. *)
Definition spec_quantile (p : Q) (col : column) : scalar :=
  let sorted := sort_values (entries (dropna col)) in
  let count := Z.of_nat (List.length sorted) in
  let v := inject_Z (count - 1) * p in
  let lo := Qfloor v in
  let hi := (lo + 1)%Z in
  let frac := v - inject_Z lo in
  let at_ (i : Z) := nth (Z.to_nat i) sorted (Float64 NaN) in
  round6 (if Qeq_bool v (inject_Z lo) then at_ lo
          else add (mul (at_ lo) (PyFloat (Fin (1 - frac))))
                   (mul (at_ hi) (PyFloat (Fin frac)))).

(** [get_25], [get_50], [get_75] and [get_iqr] one after the other on the
    entry of one column *)
Definition quartiles_and_iqr (col : column) (rec : stats) : result stats :=
  rec <- get_25_col col rec ;;
  rec <- get_50_col col rec ;;
  rec <- get_75_col col rec ;;
  get_iqr_col rec.


(** ** [get_kurtosis] *)

Section Power.

(** The C function [pow] that [numpy.float64.__pow__] calls: the source
    does not fix its rounding, so it is a parameter. *)
Variable libm_pow : float -> Z -> float.

(** [x ** n] for a literal [n]: a power of integers is the power of
    integers; that of a [numpy.float64] is [pow], which returns an
    infinity on overflow; a Python float raises [OverflowError] then. *)
Definition pow (x : scalar) (n : Z) : result scalar :=
  match x with
  | PyInt a => Ok (PyInt (a ^ n))
  | Int64 a => Ok (Int64 (wrap64 (a ^ n)))
  | Float64 a => Ok (Float64 (libm_pow a n))
  | PyFloat a =>
      match a, libm_pow a n with
      | Fin _, PInf | Fin _, NInf => Raise OverflowError
      | _, r => Ok (PyFloat r)
      end
  end.

(** [sum(xs)]: the additions from the integer 0, left to right *)
Definition sum (xs : list scalar) : scalar := fold_left add xs (PyInt 0).

Definition get_kurtosis_col (col : column) (rec : stats) : result stats :=
  let data_col := dropna col in
  mean <- dict_get rec "mean" ;;
  std <- dict_get rec "std" ;;
  terms <- comprehension
             (fun i => t <- div (sub i mean) std ;; pow t 4)
             (items data_col) ;;
  c <- dict_get rec "count" ;;
  kurtosis <- div (sum terms) c ;;
  Ok (dict_set rec "kurtosis" (round6 kurtosis)).

(** The kurtosis of the specification in the arithmetic of the source:
    every present value as a double, the deviation from the stored mean
    over the stored std, its fourth power, their sum from the left, over
    the count, rounded as numpy rounds. *)
Definition spec_kurtosis (col : column) (mean std : float) : float :=
  let xs := map as_double (items (dropna col)) in
  let terms := map (fun x => libm_pow (div64 (sub64 x mean) std) 4) xs in
  np_round6 (div64 (fold_left add64 terms (Fin 0))
                   (to_double (Z.of_nat (List.length xs)))).

End Power.

(** [pow] rounded correctly, for the examples *)
Definition pow_rounded (x : float) (n : Z) : float :=
  rnd (fpow x (Z.to_nat n)).

End Machine.

(** * Properties *)

(** ** Dictionaries and loops *)

Section DictFacts.

Context {V : Type}.

Lemma dict_get_set_eq (d : dict V) (k : string) (v : V) :
  dict_get (dict_set d k v) k = Ok v.
Proof.
  induction d as [|[k' v'] d IH]; simpl.
  - now rewrite String.eqb_refl.
  - destruct (String.eqb k' k) eqn:E; simpl; rewrite E; auto.
Qed.

Lemma dict_get_set_ne (d : dict V) (k k' : string) (v : V) :
  k <> k' -> dict_get (dict_set d k v) k' = dict_get d k'.
Proof.
  intros Hne. induction d as [|[k0 v0] d IH]; simpl.
  - destruct (String.eqb_spec k k'); congruence.
  - destruct (String.eqb_spec k0 k) as [->|Hk]; simpl.
    + destruct (String.eqb_spec k k'); congruence.
    + destruct (String.eqb_spec k0 k'); auto.
Qed.

Lemma keys_dict_set_in (d : dict V) (k : string) (v : V) :
  In k (keys d) -> keys (dict_set d k v) = keys d.
Proof.
  induction d as [|[k' v'] d IH]; simpl; [tauto|].
  intros [->|Hin].
  - now rewrite String.eqb_refl.
  - destruct (String.eqb_spec k' k); simpl; [reflexivity|].
    f_equal. now apply IH.
Qed.

Lemma keys_dict_set_notin (d : dict V) (k : string) (v : V) :
  ~ In k (keys d) -> keys (dict_set d k v) = keys d ++ [k].
Proof.
  induction d as [|[k' v'] d IH]; simpl; [reflexivity|].
  intros Hnot. destruct (String.eqb_spec k' k) as [->|Hk]; [tauto|].
  simpl. f_equal. apply IH. tauto.
Qed.

Lemma dict_get_In (d : dict V) (k : string) (v : V) :
  dict_get d k = Ok v -> In (k, v) d.
Proof.
  induction d as [|[k' v'] d IH]; simpl; [discriminate|].
  destruct (String.eqb_spec k' k) as [->|Hk].
  - intros [= ->]. now left.
  - intros H. right. now apply IH.
Qed.

End DictFacts.

Lemma bind_Ok {A B : Type} (m : result A) (k : A -> result B) (b : B) :
  bind m k = Ok b -> exists a, m = Ok a /\ k a = Ok b.
Proof. destruct m; simpl; [eauto|discriminate]. Qed.

(** peels the successive methods off a successful run of [Describe] *)
Ltac peel H :=
  repeat (let s := fresh "s" in
          let Hs := fresh "Hs" in
          apply bind_Ok in H as (s & Hs & H)).

Lemma for_each_col_keys body stats stats' :
  for_each_col body stats = Ok stats' -> keys stats' = keys stats.
Proof.
  revert stats'. induction stats as [|[col rec] rest IH]; simpl; intros stats' H.
  - now inversion H.
  - apply bind_Ok in H as (rec' & _ & H).
    apply bind_Ok in H as (rest' & Hrest & H).
    inversion H; subst; simpl. f_equal. now apply IH.
Qed.

(** What a loop does to one column: its body, on that column's entry. *)
Lemma for_each_col_In body stats stats' col rec' :
  for_each_col body stats = Ok stats' ->
  In (col, rec') stats' ->
  exists rec, In (col, rec) stats /\ body col rec = Ok rec'.
Proof.
  revert stats'. induction stats as [|[c r] rest IH]; simpl; intros stats' H Hin.
  - inversion H; subst. destruct Hin.
  - apply bind_Ok in H as (r' & Hbody & H).
    apply bind_Ok in H as (rest' & Hrest & H).
    inversion H; subst. destruct Hin as [Heq|Hin].
    + inversion Heq; subst. eauto.
    + destruct (IH _ Hrest Hin) as (rec & ? & ?). eauto.
Qed.

(** ** Sorting *)

Lemma insert_sorted_perm x l : Permutation (insert_sorted x l) (x :: l).
Proof.
  induction l as [|y l IH]; simpl; [reflexivity|].
  destruct (flt y x); [|reflexivity].
  rewrite IH. apply perm_swap.
Qed.

Lemma sort_values_perm vs : Permutation (sort_values vs) vs.
Proof.
  induction vs as [|x vs IH]; simpl; [reflexivity|].
  rewrite insert_sorted_perm. now constructor.
Qed.

Lemma sort_values_length vs : List.length (sort_values vs) = List.length vs.
Proof. apply Permutation_length, sort_values_perm. Qed.

Lemma flt_asym x y : flt x y = true -> flt y x = false.
Proof.
  destruct x as [a| | |], y as [b| | |]; simpl; try congruence.
  rewrite <- (Qcompare_antisym a b). destruct (a ?= b); simpl; congruence.
Qed.

Lemma insert_sorted_HdRel a x l :
  not_above a x -> HdRel not_above a l -> HdRel not_above a (insert_sorted x l).
Proof.
  intros Hax Hal. destruct l as [|y l]; simpl; [now constructor|].
  destruct (flt y x); constructor; [now inversion Hal|assumption].
Qed.

Lemma insert_sorted_Sorted x l :
  Sorted not_above l -> Sorted not_above (insert_sorted x l).
Proof.
  induction l as [|y l IH]; simpl; intros Hs.
  - repeat constructor.
  - inversion Hs as [|? ? Hl Hy]; subst.
    destruct (flt y x) eqn:E.
    + constructor; [now apply IH|].
      apply insert_sorted_HdRel; [|assumption].
      now apply flt_asym.
    + constructor; [assumption|]. constructor. exact E.
Qed.

(** [sort_values] sorts: its result is ascending. *)
Lemma sort_values_Sorted vs : Sorted not_above (sort_values vs).
Proof.
  induction vs as [|x vs IH]; simpl; [constructor|].
  now apply insert_sorted_Sorted.
Qed.

(** ** Labels of a sorted series *)

Lemma at_label_nth vs i :
  (0 <= i < Z.of_nat (List.length vs))%Z ->
  at_label vs i = Ok (nth (Z.to_nat i) vs NaN).
Proof.
  intros [H0 Hlt]. unfold at_label.
  destruct (Z.ltb_spec i 0); [lia|].
  destruct (nth_error vs (Z.to_nat i)) eqn:E; simpl.
  - now rewrite (nth_error_nth _ _ _ E).
  - apply nth_error_None in E. lia.
Qed.

Lemma at_label_nil i : at_label [] i = Raise KeyError.
Proof.
  unfold at_label. destruct (i <? 0)%Z; [reflexivity|].
  now destruct (Z.to_nat i).
Qed.

(** ** The virtual index of a quantile *)

Lemma value_of_count (n : Z) (p : Q) :
  fmul (fsub (of_int n) (of_int 1)) (Fin p) = Fin (Qred (inject_Z (n - 1) * p)).
Proof.
  cbv [of_int fsub fmul]. f_equal. apply Qred_complete.
  rewrite Qred_correct. unfold Qeq, Qminus, Qplus, Qmult, inject_Z; simpl. lia.
Qed.

Lemma Qtruncate_floor (q : Q) : 0 <= q -> Qtruncate q = Qfloor q.
Proof.
  destruct q as [a b]. unfold Qle, Qtruncate, Qfloor; simpl. intros H.
  apply Z.quot_div_nonneg; lia.
Qed.

(** For a probability [p] the floor of [m * p] is a position of a series of
    [m + 1] values, and so is its successor when [m * p] is not an
    integer. *)
Lemma virtual_index_bounds (m : Z) (p : Q) :
  (0 <= m)%Z -> 0 <= p -> p <= 1 ->
  let v := inject_Z m * p in
  (0 <= Qfloor v <= m)%Z /\
  (~ v == inject_Z (Qfloor v) -> (Qfloor v + 1 <= m)%Z).
Proof.
  intros Hm Hp0 Hp1 v.
  assert (Hm' : 0 <= inject_Z m) by (unfold Qle, inject_Z; simpl; lia).
  assert (Hv0 : 0 <= v) by (unfold v; apply Qmult_le_0_compat; assumption).
  assert (Hvm : v <= inject_Z m).
  { unfold v. nra. }
  assert (Hlo : (0 <= Qfloor v)%Z).
  { change 0%Z with (Qfloor 0). now apply Qfloor_resp_le. }
  assert (Hhi : (Qfloor v <= m)%Z).
  { rewrite <- (Qfloor_Z m). now apply Qfloor_resp_le. }
  split; [lia|].
  intros Hfrac.
  destruct (Z.eq_dec (Qfloor v) m) as [E|E]; [|lia].
  exfalso. apply Hfrac. rewrite E.
  apply Qle_antisym; [assumption|].
  rewrite <- E. apply Qfloor_le.
Qed.

Lemma fmul_Fin_proper (a : float) (x y : Q) :
  x == y -> fmul a (Fin x) = fmul a (Fin y).
Proof.
  intros H. destruct a; cbv [fmul fsign Qsign].
  - f_equal. apply Qred_complete. now rewrite H.
  - now rewrite H.
  - now rewrite H.
  - reflexivity.
Qed.

Lemma Qeq_bool_proper (x x' y y' : Q) :
  x == x' -> y == y' -> Qeq_bool x y = Qeq_bool x' y'.
Proof.
  intros Hx Hy. apply eq_true_iff_eq. rewrite !Qeq_bool_iff, Hx, Hy. tauto.
Qed.

(** The value stored by [quartile] is the quantile of the specification. *)
Lemma quartile_spec (p : Q) (vs : list float) (rec : col_stats) :
  0 <= p -> p <= 1 ->
  dict_get rec "count" = Ok (len (dropna vs)) ->
  dropna vs <> [] ->
  quartile p vs rec = Ok (spec_quantile p (dropna vs)).
Proof.
  intros Hp0 Hp1 Hcount Hne.
  unfold quartile, spec_quantile. rewrite Hcount. cbn [bind].
  unfold len. rewrite value_of_count.
  set (n := Z.of_nat (List.length (dropna vs))).
  assert (Hn : (1 <= n)%Z).
  { unfold n. destruct (dropna vs); [congruence|simpl; lia]. }
  set (v := inject_Z (n - 1) * p).
  assert (Hv0 : 0 <= v).
  { unfold v. apply Qmult_le_0_compat; [|assumption].
    unfold Qle, inject_Z; simpl; lia. }
  assert (Hm : (0 <= n - 1)%Z) by lia.
  destruct (virtual_index_bounds (n - 1)%Z p Hm Hp0 Hp1) as [Hlo Hhi].
  fold v in Hlo, Hhi.
  assert (Hfl : Qfloor (Qred v) = Qfloor v) by (now rewrite Qred_correct).
  assert (Hint : py_int (Fin (Qred v)) = Ok (Qfloor v)).
  { cbn [py_int]. rewrite Qtruncate_floor, Hfl; [reflexivity|].
    now rewrite Qred_correct. }
  assert (Hmod : feq (py_mod1 (Fin (Qred v))) (of_int 0)
                 = Qeq_bool v (inject_Z (Qfloor v))).
  { cbv [py_mod1 feq of_int]. rewrite Hfl. apply eq_true_iff_eq.
    rewrite !Qeq_bool_iff, !Qred_correct. change (inject_Z 0) with 0.
    generalize (inject_Z (Qfloor v)). clearbody v. intros f. split; intros H; lra. }
  rewrite Hmod, Hint. cbn [bind].
  assert (Hlen : Z.of_nat (List.length (sort_values (dropna vs))) = n).
  { now rewrite sort_values_length. }
  destruct (Qeq_bool v (inject_Z (Qfloor v))) eqn:E.
  - rewrite at_label_nth by lia. reflexivity.
  - assert (Hfrac : ~ v == inject_Z (Qfloor v)) by (now apply Qeq_bool_neq).
    specialize (Hhi Hfrac).
    rewrite !at_label_nth by lia. cbn [bind]. do 3 f_equal.
    + cbv [of_int fsub]. apply fmul_Fin_proper.
      rewrite !Qred_correct. reflexivity.
    + cbv [of_int fsub]. apply fmul_Fin_proper.
      rewrite !Qred_correct. reflexivity.
Qed.

Lemma spec_quantile_single (p : Q) (x : float) :
  spec_quantile p [x] = round6 x.
Proof.
  unfold spec_quantile. simpl List.length. simpl Z.of_nat.
  change (inject_Z (1 - 1)) with (inject_Z 0).
  assert (H : inject_Z 0 * p == 0) by ring.
  rewrite (Qfloor_comp _ _ H). change (Qfloor 0) with 0%Z.
  assert (E : Qeq_bool (inject_Z 0 * p) (inject_Z 0) = true).
  { apply Qeq_bool_iff. ring. }
  rewrite E. reflexivity.
Qed.

Lemma quartile_probability (p : Q) :
  In p [1 # 4; 1 # 2; 3 # 4] -> 0 <= p /\ p <= 1.
Proof.
  simpl. intros [<-|[<-|[<-|[]]]]; split; unfold Qle; simpl; lia.
Qed.

(** C10.  With [count >= 1] present values and p among 0.25, 0.50, 0.75,
    [int(value)] is a position of the sorted series when [value] is an
    integer, and so are [int(value)] and [int(value) + 1] when it is not;
    hence every lookup succeeds and a quantile is returned.  With no present
    value at all, the lookup raises [KeyError]. *)
Theorem percentile_lookups_in_bounds (p : Q) (vs : list float) (rec : col_stats) :
  In p [1 # 4; 1 # 2; 3 # 4] ->
  dict_get rec "count" = Ok (len (dropna vs)) ->
  let data_col := sort_values (dropna vs) in
  let n := Z.of_nat (List.length data_col) in
  let value := fmul (fsub (len (dropna vs)) (of_int 1)) (Fin p) in
  ((1 <= n)%Z ->
     (exists i, py_int value = Ok i /\
        if feq (py_mod1 value) (of_int 0)
        then (0 <= i <= n - 1)%Z /\ exists x, at_label data_col i = Ok x
        else (0 <= i /\ i + 1 <= n - 1)%Z /\
             exists x y, at_label data_col i = Ok x /\
                         at_label data_col (i + 1) = Ok y) /\
     exists q, quartile p vs rec = Ok q) /\
  (n = 0%Z -> quartile p vs rec = Raise KeyError).
Proof.
  intros Hp Hcount data_col n value.
  assert (Hlen : n = Z.of_nat (List.length (dropna vs))).
  { unfold n, data_col. now rewrite sort_values_length. }
  split.
  - intros Hn. destruct (quartile_probability p Hp) as [Hp0 Hp1].
    split.
    + unfold value, len. rewrite value_of_count, <- Hlen.
      set (v := inject_Z (n - 1) * p).
      assert (Hm : (0 <= n - 1)%Z) by lia.
      destruct (virtual_index_bounds (n - 1)%Z p Hm Hp0 Hp1) as [Hlo Hhi].
      fold v in Hlo, Hhi.
      assert (Hv0 : 0 <= v).
      { unfold v. apply Qmult_le_0_compat; [|assumption].
        unfold Qle, inject_Z; simpl; lia. }
      assert (Hfl : Qfloor (Qred v) = Qfloor v) by (now rewrite Qred_correct).
      exists (Qfloor v). split.
      { cbn [py_int]. rewrite Qtruncate_floor, Hfl; [reflexivity|].
        now rewrite Qred_correct. }
      destruct (feq (py_mod1 (Fin (Qred v))) (of_int 0)) eqn:E.
      * split; [lia|]. rewrite at_label_nth by (fold data_col n; lia). eauto.
      * assert (Hfrac : ~ v == inject_Z (Qfloor v)).
        { intros Heq. cbv [py_mod1 feq of_int] in E. rewrite Hfl in E.
          apply Qeq_bool_neq in E. apply E.
          rewrite !Qred_correct. change (inject_Z 0) with 0.
          revert Heq. generalize (inject_Z (Qfloor v)). generalize v.
          intros a b Hab. lra. }
        specialize (Hhi Hfrac). split; [lia|].
        rewrite !at_label_nth by (fold data_col n; lia). eauto.
    + rewrite quartile_spec; eauto.
      intros E. rewrite Hlen, E in Hn. simpl in Hn. lia.
  - intros H0. rewrite Hlen in H0.
    assert (E : dropna vs = []) by (destruct (dropna vs); [reflexivity|simpl in H0; lia]).
    unfold quartile. rewrite Hcount, E. cbn [bind].
    simpl in Hp. destruct Hp as [<-|[<-|[<-|[]]]]; reflexivity.
Qed.

Lemma percentile_lookups_in_bounds_witness :
  let vs := [of_int 5; NaN; of_int 1; of_int 2; of_int 9] in
  let rec := [("count"%string, of_int 4)] in
  let rec0 := [("count"%string, of_int 0)] in
  In (3 # 4) [1 # 4; 1 # 2; 3 # 4] /\
  dict_get rec "count" = Ok (len (dropna vs)) /\
  (exists q, quartile (3 # 4) vs rec = Ok q) /\
  dict_get rec0 "count" = Ok (len (dropna [NaN; NaN])) /\
  quartile (3 # 4) [NaN; NaN] rec0 = Raise KeyError.
Proof.
  intros vs rec rec0.
  assert (H1 : In (3 # 4) [1 # 4; 1 # 2; 3 # 4]) by (simpl; tauto).
  assert (H2 : dict_get rec "count" = Ok (len (dropna vs))) by reflexivity.
  assert (H3 : dict_get rec0 "count" = Ok (len (dropna [NaN; NaN]))) by reflexivity.
  destruct (percentile_lookups_in_bounds (3 # 4) vs rec H1 H2) as [Hok _].
  destruct (percentile_lookups_in_bounds (3 # 4) [NaN; NaN] rec0 H1 H3) as [_ Hempty].
  split; [exact H1|]. split; [exact H2|].
  split; [apply Hok; simpl; lia|].
  split; [exact H3|]. apply Hempty. reflexivity.
Defined.

(** ** Mode *)

Example mode_tie_break :
  mode_of (map of_int [1; 1; 2; 2; 3]%Z) = Ok (of_int 1).
Proof. reflexivity. Qed.

Example mode_unsorted :
  mode_of (map of_int [5; 1; 1; 1; 2; 2]%Z) = Ok (of_int 1).
Proof. reflexivity. Qed.

Example mode_single : mode_of [of_int 7] = Ok (of_int 7).
Proof. reflexivity. Qed.

(** C2.  [get_mode] compares run lengths only when a run is followed by a
    different value; the run that ends the sorted series is never compared.
    On the present values 1, 2, 2 the value 2 occurs twice and 1 once, and
    the mode stored by [get_mode], and found in the report, is 1. *)
Theorem mode_ignores_final_run :
  let vs := map of_int [1; 2; 2]%Z in
  occurrences (of_int 1) vs = 1%nat /\
  occurrences (of_int 2) vs = 2%nat /\
  mode_of vs = Ok (of_int 1) /\
  get_mode_col vs [] = Ok [("mode"%string, of_int 1)] /\
  exists r rec,
    Describe t_mode = Ok r /\ dict_get r "A" = Ok rec /\
    dict_get rec "mode" = Ok (of_int 1).
Proof.
  do 4 (split; [reflexivity|]).
  destruct (Describe t_mode) as [r|e] eqn:E; vm_compute in E; [|discriminate].
  injection E as <-. eexists. eexists. repeat split.
Qed.

(** ** Extremes *)

Example min_max_first_present :
  get_min_col (map of_int [3; 1; 2]%Z) [] = Ok [("min"%string, of_int 1)] /\
  get_max_col (map of_int [3; 1; 5]%Z) [] = Ok [("max"%string, of_int 5)].
Proof. split; reflexivity. Qed.

(** C3.  [get_min] and [get_max] start from the first entry of the column as
    it is, missing or not, and a comparison with NaN is false: on the column
    NaN, 3, 1 both store NaN, in the report too, although the present values
    are 3 and 1.  A first entry that is the extreme is also stored as it is,
    not rounded: on 1.0000004, 2 the stored minimum is 1.0000004. *)
Theorem extremes_seeded_with_first_entry :
  let vs := [NaN; of_int 3; of_int 1] in
  dropna vs = [of_int 3; of_int 1] /\
  get_min_col vs [] = Ok [("min"%string, NaN)] /\
  get_max_col vs [] = Ok [("max"%string, NaN)] /\
  get_min_col [dec7 10000004; of_int 2] [] = Ok [("min"%string, dec7 10000004)] /\
  round6 (dec7 10000004) = of_int 1 /\
  exists r rec,
    Describe t_first_missing = Ok r /\ dict_get r "A" = Ok rec /\
    dict_get rec "count" = Ok (of_int 2) /\
    dict_get rec "min" = Ok NaN /\ dict_get rec "max" = Ok NaN.
Proof.
  do 5 (split; [reflexivity|]).
  destruct (Describe t_first_missing) as [r|e] eqn:E; vm_compute in E;
    [|discriminate].
  injection E as <-. eexists. eexists. repeat split.
Qed.

(** ** Order of the stored statistics *)

(** C4.  On the column 1.0000004, 1.0000004, 5, 6, 7 (five present values)
    the stored minimum is the first entry, not rounded, and the stored 25%
    is the rounded second smallest value 1.0: the stored [min] is greater
    than the stored [25%]. *)
Theorem stored_min_above_first_quartile :
  exists r rec,
    Describe t_order = Ok r /\
    dict_get r "A" = Ok rec /\
    dict_get rec "count" = Ok (of_int 5) /\
    dict_get rec "min" = Ok (dec7 10000004) /\
    dict_get rec "25%" = Ok (of_int 1) /\
    flt (of_int 1) (dec7 10000004) = true /\
    fle (dec7 10000004) (of_int 1) = false.
Proof.
  destruct (Describe t_order) as [r|e] eqn:E; vm_compute in E; [|discriminate].
  injection E as <-. eexists. eexists.
  repeat split.
Qed.

(** ** Kurtosis *)

Lemma finite_Fin q : finite (Fin q) q.
Proof. exists q. split; reflexivity. Qed.

Lemma finite_fadd x y a b : finite x a -> finite y b -> finite (fadd x y) (a + b).
Proof.
  intros (a' & -> & Ha) (b' & -> & Hb). eexists; split; [reflexivity|].
  now rewrite Qred_correct, Ha, Hb.
Qed.

Lemma finite_fsub x y a b : finite x a -> finite y b -> finite (fsub x y) (a - b).
Proof.
  intros (a' & -> & Ha) (b' & -> & Hb). eexists; split; [reflexivity|].
  now rewrite Qred_correct, Ha, Hb.
Qed.

Lemma finite_fmul x y a b : finite x a -> finite y b -> finite (fmul x y) (a * b).
Proof.
  intros (a' & -> & Ha) (b' & -> & Hb). eexists; split; [reflexivity|].
  now rewrite Qred_correct, Ha, Hb.
Qed.

Lemma finite_np_div x y a b :
  finite x a -> finite y b -> ~ b == 0 -> finite (np_div x y) (a / b).
Proof.
  intros (a' & -> & Ha) (b' & -> & Hb) Hnz.
  assert (Hs : Qsign b' <> Eq).
  { unfold Qsign. rewrite <- Qeq_alt, Hb. exact Hnz. }
  cbn [np_div]. destruct (Qsign b'); [congruence| |];
    (eexists; split; [reflexivity|]); now rewrite Qred_correct, Ha, Hb.
Qed.

Lemma finite_fpow4 x a : finite x a -> finite (fpow x 4) (a ^ 4).
Proof.
  intros Hx. cbn [fpow].
  pose proof (finite_fmul _ _ _ _ Hx (finite_Fin 1)) as H1.
  pose proof (finite_fmul _ _ _ _ Hx H1) as H2.
  pose proof (finite_fmul _ _ _ _ Hx H2) as H3.
  destruct (finite_fmul _ _ _ _ Hx H3) as (b & -> & Hb).
  exists b. split; [reflexivity|]. rewrite Hb. simpl. ring.
Qed.

Lemma finite_fold_fadd (l : list float) (qs : list Q) (acc : float) (a : Q) :
  Forall2 finite l qs -> finite acc a ->
  finite (fold_left fadd l acc) (a + Qsum qs).
Proof.
  intros H. revert acc a. induction H as [|x q l qs Hx Hl IH]; intros acc a Hacc.
  - simpl. destruct Hacc as (b & -> & Hb). exists b. split; [reflexivity|].
    rewrite Hb. ring.
  - simpl. destruct (IH _ _ (finite_fadd _ _ _ _ Hacc Hx)) as (b & -> & Hb).
    exists b. split; [reflexivity|]. rewrite Hb. ring.
Qed.

Lemma finite_py_sum (l : list float) (qs : list Q) :
  Forall2 finite l qs -> finite (py_sum l) (Qsum qs).
Proof.
  intros H. destruct (finite_fold_fadd l qs (Fin 0) 0 H (finite_Fin 0))
    as (b & Hb & Hq).
  exists b. split; [exact Hb|]. rewrite Hq. ring.
Qed.

Lemma round_half_even_proper (x y : Q) :
  x == y -> round_half_even x = round_half_even y.
Proof.
  intros H. unfold round_half_even.
  rewrite (Qfloor_comp _ _ H).
  assert (E : x - inject_Z (Qfloor y) == y - inject_Z (Qfloor y)) by (now rewrite H).
  now rewrite E.
Qed.

Lemma Qround6_proper (x y : Q) : x == y -> Qround6 x = Qround6 y.
Proof.
  intros H. unfold Qround6.
  rewrite (round_half_even_proper (x * million) (y * million)); [reflexivity|].
  now rewrite H.
Qed.

Lemma finite_round6 x a : finite x a -> round6 x = Fin (Qround6 a).
Proof. intros (b & -> & Hb). simpl. f_equal. now apply Qround6_proper. Qed.

(** ** The columns of the report *)

Lemma dict_set_notin {V : Type} (d : dict V) (k : string) (v : V) :
  ~ In k (keys d) -> dict_set d k v = d ++ [(k, v)].
Proof.
  induction d as [|[k' v'] d IH]; simpl; [reflexivity|].
  intros Hnot. destruct (String.eqb_spec k' k) as [->|Hk]; [tauto|].
  f_equal. apply IH. tauto.
Qed.

Lemma init_stats_fold (cols : list string) (acc : report) :
  NoDup cols ->
  (forall c, In c cols -> ~ In c (keys acc)) ->
  fold_left
    (fun stats col =>
       if String.eqb col label_column then stats else dict_set stats col [])
    cols acc
  = acc ++ map (fun c => (c, []))
             (filter (fun c => negb (String.eqb c label_column)) cols).
Proof.
  intros Hnd. revert acc. induction Hnd as [|c cols Hc Hnd IH]; intros acc Hfresh.
  - simpl. now rewrite app_nil_r.
  - simpl. destruct (String.eqb c label_column); simpl.
    + apply IH. intros c' Hin. apply Hfresh. now right.
    + rewrite IH.
      * rewrite dict_set_notin by (apply Hfresh; now left).
        now rewrite <- app_assoc.
      * intros c' Hin. rewrite keys_dict_set_notin by (apply Hfresh; now left).
        rewrite in_app_iff. simpl. intros [H|[->|[]]]; [|tauto].
        apply (Hfresh c'); [now right|exact H].
Qed.

Lemma NoDup_keys_filter {V : Type} (f : string * V -> bool) (d : dict V) :
  NoDup (keys d) -> NoDup (keys (filter f d)).
Proof.
  induction d as [|[k v] d IH]; simpl; intros H; [constructor|].
  inversion H as [|? ? Hk Hd]; subst.
  destruct (f (k, v)); simpl; [|now apply IH].
  constructor; [|now apply IH].
  intros Hin. apply Hk. unfold keys in *.
  apply in_map_iff in Hin as ([k' v'] & <- & Hin).
  apply filter_In in Hin as [Hin _]. apply in_map_iff. now exists (k', v').
Qed.

Lemma init_stats_entries (data : DataFrame) :
  NoDup (keys data) ->
  init_stats data = map (fun c => (c, [])) (qualifying data).
Proof.
  intros Hnd. unfold init_stats, qualifying.
  rewrite init_stats_fold; [reflexivity| |tauto].
  now apply NoDup_keys_filter.
Qed.

Lemma qualifying_In (data : DataFrame) (c : string) :
  In c (qualifying data) <->
  (exists vs, In (c, Numeric vs) data) /\ c <> label_column.
Proof.
  unfold qualifying, numeric_cols, keys. rewrite filter_In, in_map_iff. split.
  - intros [([c' s] & <- & Hin) Hlab]. apply filter_In in Hin as [Hin Hnum].
    simpl in *. destruct s as [vs|]; [|discriminate]. split; [eauto|].
    destruct (String.eqb_spec c' label_column); [discriminate|assumption].
  - intros [[vs Hin] Hlab]. split.
    + exists (c, Numeric vs). split; [reflexivity|].
      apply filter_In. now split.
    + destruct (String.eqb_spec c label_column); [contradiction|reflexivity].
Qed.

Lemma column_In (data : DataFrame) (c : string) (vs : list float) :
  NoDup (keys data) -> In (c, Numeric vs) data -> column data c = Ok vs.
Proof.
  induction data as [|[name s] data IH]; simpl; intros Hnd Hin; [destruct Hin|].
  inversion Hnd as [|? ? Hname Hrest]; subst.
  destruct Hin as [Heq|Hin].
  - inversion Heq; subst. now rewrite String.eqb_refl.
  - destruct (String.eqb_spec name c) as [->|Hne]; [|now apply IH].
    exfalso. apply Hname. unfold keys. apply in_map_iff.
    now exists (c, Numeric vs).
Qed.

Lemma Describe_keys (data : DataFrame) (r : report) :
  Describe data = Ok r -> keys r = keys (init_stats data).
Proof.
  unfold Describe. intros H. peel H.
  repeat match goal with
         | Hs : _ ?s0 = Ok ?s1 |- _ =>
             apply for_each_col_keys in Hs
         end.
  congruence.
Qed.

Lemma for_each_col_nil body : for_each_col body [] = Ok [].
Proof. reflexivity. Qed.

(** C9.  In a table with distinct column names, the columns selected by
    [__init__], and the columns of the report it ends with, are the numeric
    columns other than ["Hogwarts House"], in the order of the table: a
    column is in the report exactly when it is numeric and is not the label
    column.  When no column qualifies the report is empty. *)
Theorem report_columns (data : DataFrame) :
  NoDup (keys data) ->
  keys (init_stats data) = qualifying data /\
  (forall r, Describe data = Ok r ->
     keys r = qualifying data /\
     forall c, In c (keys r) <->
               (exists vs, In (c, Numeric vs) data) /\ c <> label_column) /\
  (qualifying data = [] -> Describe data = Ok []).
Proof.
  intros Hnd.
  assert (Hinit : keys (init_stats data) = qualifying data).
  { rewrite init_stats_entries by assumption.
    unfold keys. now rewrite map_map, map_id. }
  split; [exact Hinit|]. split.
  - intros r Hr. apply Describe_keys in Hr. rewrite Hinit in Hr.
    split; [exact Hr|]. intros c. rewrite Hr. apply qualifying_In.
  - intros Hq. unfold Describe.
    rewrite init_stats_entries, Hq by assumption. reflexivity.
Qed.

Lemma report_columns_witness :
  NoDup (keys t12345) /\
  (exists r, Describe t12345 = Ok r /\
             keys r = ["Index"; "Arithmancy"]%string) /\
  Describe [("Hogwarts House"%string, ints [1; 2]%Z);
            ("Best Hand"%string, Object ["Left"; "Right"]%string)] = Ok [].
Proof.
  assert (H1 : NoDup (keys t12345)).
  { repeat constructor; simpl; intros H;
      repeat (destruct H as [H|H]; [discriminate|]); exact H. }
  assert (H2 : NoDup (keys [("Hogwarts House"%string, ints [1; 2]%Z);
                            ("Best Hand"%string, Object ["Left"; "Right"]%string)])).
  { repeat constructor; simpl; intros H;
      repeat (destruct H as [H|H]; [discriminate|]); exact H. }
  split; [exact H1|]. split.
  - destruct (Describe t12345) as [r|e] eqn:E; [|vm_compute in E; discriminate].
    exists r. split; [reflexivity|].
    destruct (report_columns t12345 H1) as (_ & Hkeys & _).
    destruct (Hkeys r E) as [-> _]. reflexivity.
  - destruct (report_columns _ H2) as (_ & _ & Hempty). apply Hempty. reflexivity.
Defined.

(** ** What a method leaves alone *)

Lemma frame_dict_set key rec v : frame key rec (dict_set rec key v).
Proof. intros k Hk. apply dict_get_set_ne. congruence. Qed.

Lemma frame_trans key rec1 rec2 rec3 :
  frame key rec1 rec2 -> frame key rec2 rec3 -> frame key rec1 rec3.
Proof. intros H12 H23 k Hk. now rewrite H23, H12. Qed.

(** the frame of a body that ends by one assignment *)
Ltac frame_of_body H :=
  repeat (let x := fresh "x" in
          let Hx := fresh "Hx" in
          apply bind_Ok in H as (x & Hx & H));
  inversion H; subst; apply frame_dict_set.

Lemma min_loop_frame vs rec rec' :
  min_loop vs rec = Ok rec' -> frame "min" rec rec'.
Proof.
  revert rec. induction vs as [|i vs IH]; simpl; intros rec H.
  - inversion H; subst. intros k _. reflexivity.
  - destruct (negb (isnan i)); [|now apply IH].
    apply bind_Ok in H as (m & _ & H).
    destruct (flt i m); [|now apply IH].
    eapply frame_trans; [apply frame_dict_set|apply IH, H].
Qed.

Lemma max_loop_frame vs rec rec' :
  max_loop vs rec = Ok rec' -> frame "max" rec rec'.
Proof.
  revert rec. induction vs as [|i vs IH]; simpl; intros rec H.
  - inversion H; subst. intros k _. reflexivity.
  - destruct (negb (isnan i)); [|now apply IH].
    apply bind_Ok in H as (m & _ & H).
    destruct (fgt i m); [|now apply IH].
    eapply frame_trans; [apply frame_dict_set|apply IH, H].
Qed.

Lemma get_max_col_frame vs rec rec' :
  get_max_col vs rec = Ok rec' -> frame "max" rec rec'.
Proof.
  unfold get_max_col. intros H. apply bind_Ok in H as (first & _ & H).
  eapply frame_trans; [apply frame_dict_set|eapply max_loop_frame, H].
Qed.

Lemma get_min_col_frame vs rec rec' :
  get_min_col vs rec = Ok rec' -> frame "min" rec rec'.
Proof.
  unfold get_min_col. intros H. apply bind_Ok in H as (first & _ & H).
  eapply frame_trans; [apply frame_dict_set|eapply min_loop_frame, H].
Qed.

Lemma get_mode_col_frame vs rec rec' :
  get_mode_col vs rec = Ok rec' -> frame "mode" rec rec'.
Proof. unfold get_mode_col. intros H. frame_of_body H. Qed.

Lemma get_kurtosis_col_frame vs rec rec' :
  get_kurtosis_col vs rec = Ok rec' -> frame "kurtosis" rec rec'.
Proof. unfold get_kurtosis_col. intros H. frame_of_body H. Qed.

Lemma for_each_series_In data body stats stats' col rec' :
  for_each_series data body stats = Ok stats' ->
  In (col, rec') stats' ->
  exists rec vs,
    In (col, rec) stats /\ column data col = Ok vs /\ body vs rec = Ok rec'.
Proof.
  intros H Hin. destruct (for_each_col_In _ _ _ _ _ H Hin) as (rec & Hrec & Hb).
  apply bind_Ok in Hb as (vs & Hvs & Hb). eauto.
Qed.

(** ** Interquartile range *)

Lemma get_iqr_col_spec rec rec' :
  get_iqr_col rec = Ok rec' ->
  exists p75 p25,
    dict_get rec "75%" = Ok p75 /\ dict_get rec "25%" = Ok p25 /\
    rec' = dict_set rec "iqr" (fsub p75 p25).
Proof.
  unfold get_iqr_col. intros H.
  apply bind_Ok in H as (p75 & H75 & H).
  apply bind_Ok in H as (p25 & H25 & H).
  inversion H; subst. eauto.
Qed.

(** ** Columns with too few present values *)

Lemma for_each_col_total body stats :
  (forall c r, In (c, r) stats -> exists r', body c r = Ok r') ->
  exists stats', for_each_col body stats = Ok stats'.
Proof.
  induction stats as [|[c r] rest IH]; simpl; intros H; [eauto|].
  destruct (H c r (or_introl eq_refl)) as [r' ->].
  destruct IH as [rest' ->]; [intros; apply H; now right|].
  simpl. eauto.
Qed.

Lemma for_each_col_Forall (P Q : string * col_stats -> Prop) body stats stats' :
  Forall P stats ->
  (forall c r r', P (c, r) -> body c r = Ok r' -> Q (c, r')) ->
  for_each_col body stats = Ok stats' ->
  Forall Q stats'.
Proof.
  intros HP Hbody. revert stats'.
  induction HP as [|[c r] rest Hcr Hrest IH]; simpl; intros stats' H.
  - inversion H. constructor.
  - apply bind_Ok in H as (r' & Hr' & H).
    apply bind_Ok in H as (rest' & Hrest' & H).
    inversion H; subst. constructor; eauto.
Qed.

Lemma for_each_col_raises_only (P : string * col_stats -> Prop) body stats e0 e :
  Forall P stats ->
  (forall c r e', P (c, r) -> body c r = Raise e' -> e' = e0) ->
  for_each_col body stats = Raise e ->
  e = e0.
Proof.
  intros HP Hbody.
  induction HP as [|[c r] rest Hcr Hrest IH]; simpl; intros H; [discriminate|].
  destruct (body c r) as [r'|e'] eqn:E; simpl in H.
  - destruct (for_each_col body rest) as [rest'|e'']; simpl in H; [discriminate|].
    inversion H; subst. now apply IH.
  - inversion H; subst. eauto.
Qed.

Lemma for_each_col_raises_in (P : string * col_stats -> Prop) (E : exn -> Prop)
    body stats e :
  Forall P stats ->
  (forall c r e', P (c, r) -> body c r = Raise e' -> E e') ->
  for_each_col body stats = Raise e ->
  E e.
Proof.
  intros HP Hbody.
  induction HP as [|[c r] rest Hcr Hrest IH]; simpl; intros H; [discriminate|].
  destruct (body c r) as [r'|e'] eqn:Eb; simpl in H.
  - destruct (for_each_col body rest) as [rest'|e'']; simpl in H; [discriminate|].
    inversion H; subst. now apply IH.
  - inversion H; subst. eauto.
Qed.

Lemma for_each_col_fails body stats c r :
  In (c, r) stats ->
  (forall r', body c r <> Ok r') ->
  forall stats', for_each_col body stats <> Ok stats'.
Proof.
  induction stats as [|[c0 r0] rest IH]; simpl; intros Hin Hfail stats' H;
    [destruct Hin|].
  apply bind_Ok in H as (r' & Hr' & H).
  apply bind_Ok in H as (rest' & Hrest' & H).
  destruct Hin as [Heq|Hin].
  - inversion Heq; subst. exact (Hfail _ Hr').
  - exact (IH Hin Hfail _ Hrest').
Qed.

Lemma py_div_cases x y :
  py_div x y = Raise ZeroDivisionError \/ exists q, py_div x y = Ok q.
Proof. unfold py_div. destruct (is_zero y); eauto. Qed.

Lemma py_div_raises x y e : py_div x y = Raise e -> e = ZeroDivisionError.
Proof. destruct (py_div_cases x y) as [H|[q H]]; rewrite H; congruence. Qed.

Lemma bind_Raise {A B : Type} (m : result A) (k : A -> result B) (e : exn) :
  bind m k = Raise e -> m = Raise e \/ exists a, m = Ok a /\ k a = Raise e.
Proof. destruct m; simpl; intros H; [right; eauto|left; congruence]. Qed.

Section Stages.

Variable data : DataFrame.

Lemma get_count_counted stats :
  Forall (fun e => exists vs, column data (fst e) = Ok vs) stats ->
  exists stats', get_count data stats = Ok stats' /\ Forall (counted data) stats'.
Proof.
  intros H.
  destruct (for_each_col_total
              (fun col rec => vs <- column data col ;; get_count_col vs rec) stats)
    as [stats' Hs].
  { intros c r Hin. rewrite Forall_forall in H.
    destruct (H _ Hin) as [vs Hvs]. simpl in Hvs. rewrite Hvs.
    cbn [bind]. unfold get_count_col. eexists. reflexivity. }
  exists stats'. split; [exact Hs|].
  eapply for_each_col_Forall; [exact H| |exact Hs].
  intros c r r' [vs Hvs] Hb. simpl in Hvs. rewrite Hvs in Hb. simpl in Hb.
  inversion Hb; subst. exists vs. split; [exact Hvs|].
  apply dict_get_set_eq.
Qed.

Lemma get_missing_values_stage stats :
  Forall (counted data) stats ->
  get_missing_values data stats = Raise ZeroDivisionError \/
  exists stats', get_missing_values data stats = Ok stats' /\
                 Forall (counted data) stats'.
Proof.
  intros H. destruct (get_missing_values data stats) as [stats'|e] eqn:E.
  - right. exists stats'. split; [reflexivity|].
    eapply for_each_col_Forall; [exact H| |exact E].
    intros c r r' (vs & Hvs & Hc) Hb. simpl in Hvs. rewrite Hvs in Hb.
    cbn [bind] in Hb. unfold get_missing_values_col in Hb.
    exists vs. split; [exact Hvs|]. simpl snd in *.
    rewrite Hc in Hb. cbn [bind] in Hb.
    apply bind_Ok in Hb as (q & _ & Hb). inversion Hb; subst.
    rewrite dict_get_set_ne by discriminate. exact Hc.
  - left. f_equal.
    eapply for_each_col_raises_only; [exact H| |exact E].
    intros c r e' (vs & Hvs & Hc) Hb. simpl in Hvs, Hc. rewrite Hvs in Hb.
    cbn [bind] in Hb. unfold get_missing_values_col in Hb.
    rewrite Hc in Hb. cbn [bind] in Hb.
    apply bind_Raise in Hb as [Hb|(q & _ & Hb)]; [|discriminate].
    now apply py_div_raises in Hb.
Qed.

Lemma get_mean_stage stats :
  Forall (counted data) stats ->
  get_mean data stats = Raise ZeroDivisionError \/
  exists stats', get_mean data stats = Ok stats' /\ Forall (counted data) stats'.
Proof.
  intros H. destruct (get_mean data stats) as [stats'|e] eqn:E.
  - right. exists stats'. split; [reflexivity|].
    eapply for_each_col_Forall; [exact H| |exact E].
    intros c r r' (vs & Hvs & Hc) Hb. simpl in Hvs. rewrite Hvs in Hb.
    cbn [bind] in Hb. unfold get_mean_col in Hb.
    exists vs. split; [exact Hvs|]. simpl snd in *.
    rewrite Hc in Hb. cbn [bind] in Hb.
    apply bind_Ok in Hb as (q & _ & Hb). inversion Hb; subst.
    rewrite dict_get_set_ne by discriminate. exact Hc.
  - left. f_equal.
    eapply for_each_col_raises_only; [exact H| |exact E].
    intros c r e' (vs & Hvs & Hc) Hb. simpl in Hvs, Hc. rewrite Hvs in Hb.
    cbn [bind] in Hb. unfold get_mean_col in Hb.
    rewrite Hc in Hb. cbn [bind] in Hb.
    apply bind_Raise in Hb as [Hb|(q & _ & Hb)]; [|discriminate].
    now apply py_div_raises in Hb.
Qed.

Lemma py_pow_Ok x n y : py_pow x n = Ok y -> y = fpow x n.
Proof.
  unfold py_pow. destruct (fpow x n) as [q| | |];
    [destruct (Qle_bool _ _)|..]; congruence.
Qed.

Lemma py_pow_raises x n e : py_pow x n = Raise e -> e = OverflowError.
Proof.
  unfold py_pow. destruct (fpow x n) as [q| | |];
    [destruct (Qle_bool _ _)|..]; congruence.
Qed.

Lemma comprehension_raises {A B : Type} (f : A -> result B) (l : list A) e0 e :
  (forall x e', f x = Raise e' -> e' = e0) ->
  comprehension f l = Raise e -> e = e0.
Proof.
  intros Hf. induction l as [|x l IH]; simpl; intros H; [discriminate|].
  apply bind_Raise in H as [H|(y & _ & H)]; [now apply (Hf x)|].
  apply bind_Raise in H as [H|(ys & _ & H)]; [now apply IH|discriminate].
Qed.

Lemma comprehension_Ok_map {A B : Type} (f : A -> result B) (g : A -> B)
    (l : list A) (s : list B) :
  (forall x y, f x = Ok y -> y = g x) ->
  comprehension f l = Ok s -> s = map g l.
Proof.
  intros Hf. revert s. induction l as [|x l IH]; simpl; intros s H.
  - now inversion H.
  - apply bind_Ok in H as (y & Hy & H). apply bind_Ok in H as (ys & Hys & H).
    inversion H; subst. f_equal; [now apply Hf|now apply IH].
Qed.

(** [get_var] raises [ZeroDivisionError], from one of its two divisions,
    or [OverflowError], from a square. *)
Lemma get_var_col_raises vs rec e :
  dict_get rec "count" = Ok (len (dropna vs)) ->
  get_var_col vs rec = Raise e ->
  e = ZeroDivisionError \/ e = OverflowError.
Proof.
  intros Hc Hb. unfold get_var_col in Hb. rewrite Hc in Hb. cbn [bind] in Hb.
  apply bind_Raise in Hb as [Hb|(mean & _ & Hb)];
    [left; now apply py_div_raises in Hb|].
  apply bind_Raise in Hb as [Hb|(squares & _ & Hb)].
  { right. revert Hb. apply comprehension_raises.
    intros x e'. apply py_pow_raises. }
  apply bind_Raise in Hb as [Hb|(q & _ & Hb)]; [|discriminate].
  left. now apply py_div_raises in Hb.
Qed.

(** the square of the deviation of a single value from itself is in
    range *)
Lemma single_square_in_range (x : float) :
  exists s, py_pow (fsub x (np_div (py_sum [x]) (of_int 1))) 2 = Ok s.
Proof.
  destruct x as [q| | |]; try (eexists; reflexivity).
  cbv [py_sum fold_left fadd np_div of_int Qsign fsub py_pow fpow fmul].
  change (inject_Z 1 ?= 0) with Gt. cbv iota.
  match goal with
  | |- context [Qle_bool float_overflow (Qabs ?v)] =>
      assert (Hv : v == 0)
        by (rewrite !Qred_correct; change (inject_Z 1) with 1; field);
      destruct (Qle_bool float_overflow (Qabs v)) eqn:E; [|eauto]
  end.
  exfalso. apply Qle_bool_iff in E. rewrite Hv in E.
  revert E. vm_compute. intros E. now apply E.
Qed.

Lemma get_var_col_small vs rec :
  dict_get rec "count" = Ok (len (dropna vs)) ->
  (List.length (dropna vs) <= 1)%nat ->
  get_var_col vs rec = Raise ZeroDivisionError.
Proof.
  intros Hc Hlen. unfold get_var_col. rewrite Hc. cbn [bind].
  destruct (dropna vs) as [|x [|y l]]; [reflexivity| |simpl in Hlen; lia].
  unfold len. simpl List.length. simpl Z.of_nat.
  change (py_div (py_sum [x]) (of_int 1)) with (Ok (np_div (py_sum [x]) (of_int 1))).
  cbn [bind comprehension].
  destruct (single_square_in_range x) as [s ->]. reflexivity.
Qed.

End Stages.

Lemma init_stats_columns (data : DataFrame) :
  NoDup (keys data) ->
  Forall (fun e => exists vs, column data (fst e) = Ok vs) (init_stats data).
Proof.
  intros Hnd. rewrite init_stats_entries by assumption.
  apply Forall_forall. intros [c r] Hin.
  apply in_map_iff in Hin as (c' & Heq & Hin). inversion Heq; subst.
  apply qualifying_In in Hin as [[vs Hin] _].
  exists vs. simpl. now apply column_In.
Qed.

(** A qualifying column with at most one present value makes the
    construction raise: [ZeroDivisionError] from [get_missing_values] on
    an empty table, from [get_mean] on no present value, from [get_var] on
    a single one, unless [get_var] raised [OverflowError] on a column
    before it. *)
Lemma Describe_small_column (data : DataFrame) (col : string) (vs : list float) :
  NoDup (keys data) ->
  In (col, Numeric vs) data ->
  col <> label_column ->
  (List.length (dropna vs) <= 1)%nat ->
  exists e, Describe data = Raise e /\ construction_error e.
Proof.
  intros Hnd Hin Hlab Hlen. unfold Describe.
  destruct (get_count_counted data _ (init_stats_columns data Hnd))
    as (s1 & Hs1 & H1).
  rewrite Hs1. cbn [bind].
  destruct (get_missing_values_stage data s1 H1) as [->|(s2 & Hs2 & H2)];
    [exists ZeroDivisionError; split; [reflexivity|now left]|].
  rewrite Hs2. cbn [bind].
  destruct (get_mean_stage data s2 H2) as [->|(s3 & Hs3 & H3)];
    [exists ZeroDivisionError; split; [reflexivity|now left]|].
  rewrite Hs3. cbn [bind].
  assert (Hkeys : keys s3 = qualifying data).
  { apply for_each_col_keys in Hs1, Hs2, Hs3.
    rewrite Hs3, Hs2, Hs1, init_stats_entries by assumption.
    unfold keys. now rewrite map_map, map_id. }
  assert (Hcol : In col (keys s3)).
  { rewrite Hkeys. apply qualifying_In. eauto. }
  apply in_map_iff in Hcol as ([c rec] & Hc & Hrec). simpl in Hc. subst c.
  pose proof (column_In data col vs Hnd Hin) as Hvs.
  destruct (get_var data s3) as [s4|e] eqn:E4.
  - exfalso. revert E4. apply for_each_col_fails with (c := col) (r := rec);
      [exact Hrec|].
    intros r'. rewrite Hvs. cbn [bind].
    rewrite Forall_forall in H3. destruct (H3 _ Hrec) as (vs' & Hvs' & Hc).
    simpl in Hvs', Hc. rewrite Hvs in Hvs'. inversion Hvs'; subst vs'.
    rewrite (get_var_col_small vs rec Hc Hlen). discriminate.
  - cbn [bind]. exists e. split; [reflexivity|].
    eapply (for_each_col_raises_in _ construction_error); [exact H3| |exact E4].
    intros c r e' (vs' & Hvs' & Hc) Hb. simpl in Hvs', Hc.
    rewrite Hvs' in Hb. cbn [bind] in Hb.
    now apply (get_var_col_raises vs' r e' Hc).
Qed.

(** C6, as the code has it.  In a table with distinct column names, a
    qualifying column with exactly one present value makes the
    construction of the report end in an exception, so that no report
    exists and nothing is stored for ["var"], ["std"] or ["kurtosis"],
    neither an infinity nor NaN.  On that column [get_var] raises Python's
    [ZeroDivisionError]; the exception that leaves [__init__] is this one
    or one raised before it is reached, a [ZeroDivisionError] or the
    [OverflowError] of a square out of range. *)
Theorem single_value_raises_zero_division
    (data : DataFrame) (col : string) (vs : list float) :
  NoDup (keys data) ->
  In (col, Numeric vs) data ->
  col <> label_column ->
  List.length (dropna vs) = 1%nat ->
  (forall rec, dict_get rec "count" = Ok (len (dropna vs)) ->
               get_var_col vs rec = Raise ZeroDivisionError) /\
  (exists e, Describe data = Raise e /\ construction_error e) /\
  forall r, Describe data <> Ok r.
Proof.
  intros Hnd Hin Hlab Hlen.
  destruct (Describe_small_column data col vs Hnd Hin Hlab) as (e & H & He);
    [lia|].
  split; [|split].
  - intros rec Hc. apply get_var_col_small; [exact Hc|lia].
  - now exists e.
  - intros r. rewrite H. discriminate.
Qed.

Lemma NoDup_keys_t_single : NoDup (keys t_single).
Proof. repeat constructor. simpl. tauto. Qed.

Lemma NoDup_keys_t_partial : NoDup (keys t_partial).
Proof.
  repeat constructor; simpl; intros H;
    repeat (destruct H as [H|H]; [discriminate|]); exact H.
Qed.

Lemma single_value_raises_zero_division_witness :
  NoDup (keys t_single) /\
  In ("A"%string, Numeric [of_int 7]) t_single /\
  "A"%string <> label_column /\
  List.length (dropna [of_int 7]) = 1%nat /\
  get_var_col [of_int 7] [("count"%string, of_int 1)] = Raise ZeroDivisionError /\
  forall r, Describe t_single <> Ok r.
Proof.
  assert (H2 : In ("A"%string, Numeric [of_int 7]) t_single) by (now left).
  assert (H3 : "A"%string <> label_column) by discriminate.
  assert (H4 : List.length (dropna [of_int 7]) = 1%nat) by reflexivity.
  split; [exact NoDup_keys_t_single|].
  split; [exact H2|]. split; [exact H3|]. split; [exact H4|].
  destruct (single_value_raises_zero_division t_single "A" [of_int 7]
              NoDup_keys_t_single H2 H3 H4) as (Hvar & _ & Hno).
  split; [now apply Hvar|exact Hno].
Defined.

(** C6 as stated fails on the table whose only column holds the single
    value 7: no report is produced in which column ["A"] carries an error
    for its variance, and the exception raised is the plain
    [ZeroDivisionError] of the division by [count - 1].  It does not tell
    the column either: two tables whose single-valued column is ["B"] in
    the one and ["A"] in the other end the same way. *)
Lemma single_value_no_column_error :
  Describe t_single = Raise ZeroDivisionError /\
  ~ (exists r rec, Describe t_single = Ok r /\ dict_get r "A" = Ok rec) /\
  Describe t_partial = Describe t_mirror.
Proof.
  assert (H : Describe t_single = Raise ZeroDivisionError) by reflexivity.
  split; [exact H|]. split; [|reflexivity].
  intros (r & rec & Hr & _). rewrite H in Hr. discriminate.
Qed.

(** C7, as the code has it.  In a table with distinct column names, a
    qualifying column with no or one present value makes the whole
    construction end in an exception, a [ZeroDivisionError] or, from a
    square out of range in a column before it, an [OverflowError]: no
    record is produced for any column. *)
Theorem failing_column_aborts_report
    (data : DataFrame) (col : string) (vs : list float) :
  NoDup (keys data) ->
  In (col, Numeric vs) data ->
  col <> label_column ->
  (List.length (dropna vs) <= 1)%nat ->
  (exists e, Describe data = Raise e /\ construction_error e) /\
  forall r other rec, Describe data = Ok r -> dict_get r other <> Ok rec.
Proof.
  intros Hnd Hin Hlab Hlen.
  destruct (Describe_small_column data col vs Hnd Hin Hlab Hlen) as (e & H & He).
  split; [now exists e|]. intros r other rec Hr. rewrite H in Hr. discriminate.
Qed.

Lemma failing_column_aborts_report_witness :
  NoDup (keys t_partial) /\
  In ("B"%string, Numeric [of_int 7; NaN; NaN]) t_partial /\
  "B"%string <> label_column /\
  (List.length (dropna [of_int 7; NaN; NaN]) <= 1)%nat /\
  exists e, Describe t_partial = Raise e /\ construction_error e.
Proof.
  assert (H2 : In ("B"%string, Numeric [of_int 7; NaN; NaN]) t_partial)
    by (right; now left).
  assert (H3 : "B"%string <> label_column) by discriminate.
  assert (H4 : (List.length (dropna [of_int 7; NaN; NaN]) <= 1)%nat)
    by (simpl; lia).
  split; [exact NoDup_keys_t_partial|].
  split; [exact H2|]. split; [exact H3|]. split; [exact H4|].
  exact (proj1 (failing_column_aborts_report t_partial "B" _
                  NoDup_keys_t_partial H2 H3 H4)).
Defined.

(** C7 as stated fails on the table with the columns A = 1, 2, 3 and
    B = 7, NaN, NaN: the report holds no record for A. *)
Lemma no_partial_report :
  Describe t_partial = Raise ZeroDivisionError /\
  ~ (exists r rec, Describe t_partial = Ok r /\ dict_get r "A" = Ok rec).
Proof.
  assert (H : Describe t_partial = Raise ZeroDivisionError) by reflexivity.
  split; [exact H|]. intros (r & rec & Hr & _). rewrite H in Hr. discriminate.
Qed.

(** ** The report, column by column *)

Lemma for_each_col_ext f g stats :
  (forall c r, f c r = g c r) -> for_each_col f stats = for_each_col g stats.
Proof.
  intros H. induction stats as [|[c r] rest IH]; simpl; [reflexivity|].
  now rewrite H, IH.
Qed.

(** Two loops in a row succeed exactly when the loop of the two bodies in a
    row does, with the same result. *)
Lemma for_each_col_fuse f (rest : report -> result report) k stats r :
  (forall s, rest s = Ok r <-> for_each_col k s = Ok r) ->
  (s <- for_each_col f stats ;; rest s) = Ok r <->
  for_each_col (fun c x => y <- f c x ;; k c y) stats = Ok r.
Proof.
  intros Hrest. split.
  - intros H. apply bind_Ok in H as (s1 & Hs1 & H). apply Hrest in H.
    clear Hrest. revert s1 r Hs1 H.
    induction stats as [|[c x] stats IH]; simpl; intros s1 r Hs1 H.
    + inversion Hs1; subst. exact H.
    + apply bind_Ok in Hs1 as (y & Hy & Hs1).
      apply bind_Ok in Hs1 as (s1' & Hs1' & Hs1). inversion Hs1; subst.
      simpl in H. apply bind_Ok in H as (z & Hz & H).
      apply bind_Ok in H as (r' & Hr' & H). inversion H; subst.
      rewrite Hy. cbn [bind]. rewrite Hz. cbn [bind].
      now rewrite (IH _ _ Hs1' Hr').
  - intros H.
    assert (Hex : exists s1, for_each_col f stats = Ok s1 /\ for_each_col k s1 = Ok r).
    { clear Hrest. revert r H.
      induction stats as [|[c x] stats IH]; simpl; intros r H.
      - exists []. split; [reflexivity|exact H].
      - apply bind_Ok in H as (z & Hz & H).
        apply bind_Ok in Hz as (y & Hy & Hz).
        apply bind_Ok in H as (r' & Hr' & H). inversion H; subst.
        destruct (IH _ Hr') as (s1 & Hs1 & Hk).
        exists ((c, y) :: s1). rewrite Hy, Hs1. split; [reflexivity|].
        simpl. now rewrite Hz, Hk. }
    destruct Hex as (s1 & -> & Hk). cbn [bind]. now apply Hrest.
Qed.

(** [Describe] succeeds exactly when the thirteen bodies succeed on every
    selected column, and its report is made of their results. *)
Lemma Describe_by_column (data : DataFrame) (r : report) :
  Describe data = Ok r <->
  for_each_col (fun c rec => vs <- column data c ;; describe_col vs rec)
    (init_stats data) = Ok r.
Proof.
  unfold Describe, get_count, get_missing_values, get_mean, get_var, get_std,
    get_min, get_25, get_50, get_75, get_iqr, get_max, get_mode, get_kurtosis,
    for_each_series.
  etransitivity.
  - do 12 (apply for_each_col_fuse; intros ?). reflexivity.
  - erewrite for_each_col_ext; [reflexivity|].
    intros c x. cbv beta. unfold describe_col.
    destruct (column data c); reflexivity.
Qed.

(** ** A column with two present values or more *)

Lemma dict_set_set {V : Type} (d : dict V) (k : string) (v v' : V) :
  dict_set (dict_set d k v) k v' = dict_set d k v'.
Proof.
  induction d as [|[k0 v0] d IH]; simpl.
  - now rewrite String.eqb_refl.
  - destruct (String.eqb k0 k) eqn:E; simpl; rewrite E; [reflexivity|].
    now rewrite IH.
Qed.

Lemma min_loop_result vs rec v0 :
  min_loop vs (dict_set rec "min" v0) = Ok (dict_set rec "min" (scan_min vs v0)).
Proof.
  revert v0. induction vs as [|i vs IH]; intros v0; simpl; [reflexivity|].
  destruct (negb (isnan i)); simpl; [|apply IH].
  rewrite dict_get_set_eq. cbn [bind].
  destruct (flt i v0); [|apply IH].
  rewrite dict_set_set. apply IH.
Qed.

Lemma max_loop_result vs rec v0 :
  max_loop vs (dict_set rec "max" v0) = Ok (dict_set rec "max" (scan_max vs v0)).
Proof.
  revert v0. induction vs as [|i vs IH]; intros v0; simpl; [reflexivity|].
  destruct (negb (isnan i)); simpl; [|apply IH].
  rewrite dict_get_set_eq. cbn [bind].
  destruct (fgt i v0); [|apply IH].
  rewrite dict_set_set. apply IH.
Qed.

Lemma is_zero_len {A : Type} (l : list A) : l <> [] -> is_zero (len l) = false.
Proof. destruct l; [congruence|reflexivity]. Qed.

Lemma is_zero_len_pred {A : Type} (l : list A) :
  (2 <= List.length l)%nat -> is_zero (fsub (len l) (of_int 1)) = false.
Proof.
  intros H. cbv [len of_int fsub is_zero].
  destruct (Qeq_bool _ 0) eqn:E; [|reflexivity].
  apply Qeq_bool_eq in E. rewrite Qred_correct in E.
  unfold Qeq, Qminus, Qplus, inject_Z in E. simpl in E. lia.
Qed.

Lemma dropna_nonempty vs : dropna vs <> [] -> vs <> [].
Proof. destruct vs; [simpl; congruence|discriminate]. Qed.

Lemma get_missing_values_col_ok vs rec c :
  dict_get rec "count" = Ok c -> vs <> [] ->
  get_missing_values_col vs rec
  = Ok (dict_set rec "missing(%)"
          (round6 (fmul (np_div (fsub (len vs) c) (len vs)) (of_int 100)))).
Proof.
  intros Hc Hvs. unfold get_missing_values_col, py_div.
  rewrite Hc. cbn [bind]. now rewrite (is_zero_len vs Hvs).
Qed.

Lemma get_mean_col_ok vs rec :
  dict_get rec "count" = Ok (len (dropna vs)) -> dropna vs <> [] ->
  get_mean_col vs rec
  = Ok (dict_set rec "mean"
          (round6 (np_div (py_sum (dropna vs)) (len (dropna vs))))).
Proof.
  intros Hc Hvs. unfold get_mean_col, py_div.
  rewrite Hc. cbn [bind]. now rewrite (is_zero_len _ Hvs).
Qed.

Lemma squared_deviations_Ok vs s :
  squared_deviations vs = Ok s ->
  s = map (fun i => fpow (fsub i (np_div (py_sum (dropna vs)) (len (dropna vs)))) 2)
          (dropna vs).
Proof.
  unfold squared_deviations. apply comprehension_Ok_map.
  intros x y. apply py_pow_Ok.
Qed.

(** With two present values or more, [get_var] raises exactly when a
    square is out of range. *)
Lemma get_var_col_ok vs rec :
  dict_get rec "count" = Ok (len (dropna vs)) ->
  (2 <= List.length (dropna vs))%nat ->
  let n := len (dropna vs) in
  let mean := np_div (py_sum (dropna vs)) n in
  get_var_col vs rec
  = (_ <- squared_deviations vs ;;
     Ok (dict_set rec "var"
           (round6 (np_div (py_sum (map (fun i => fpow (fsub i mean) 2) (dropna vs)))
                           (fsub n (of_int 1)))))).
Proof.
  intros Hc Hlen n mean. unfold get_var_col, py_div.
  assert (Hne : dropna vs <> []) by (destruct (dropna vs); [simpl in Hlen; lia|discriminate]).
  rewrite Hc. cbn [bind]. rewrite (is_zero_len _ Hne). cbn [bind].
  fold n mean. change (comprehension (fun i => py_pow (fsub i mean) 2) (dropna vs))
    with (squared_deviations vs).
  destruct (squared_deviations vs) as [s|e] eqn:E; [|reflexivity].
  cbn [bind]. rewrite ?Hc. cbn [bind]. unfold n.
  rewrite (is_zero_len_pred _ Hlen). cbn [bind].
  now rewrite (squared_deviations_Ok vs s E).
Qed.

Lemma get_min_col_ok vs rec :
  vs <> [] ->
  get_min_col vs rec = Ok (dict_set rec "min" (scan_min vs (hd NaN vs))).
Proof.
  intros Hvs. unfold get_min_col. destruct vs as [|x vs]; [congruence|].
  change (at_label (x :: vs) 0) with (Ok x). cbn [bind]. apply min_loop_result.
Qed.

Lemma get_max_col_ok vs rec :
  vs <> [] ->
  get_max_col vs rec = Ok (dict_set rec "max" (scan_max vs (hd NaN vs))).
Proof.
  intros Hvs. unfold get_max_col. destruct vs as [|x vs]; [congruence|].
  change (at_label (x :: vs) 0) with (Ok x). cbn [bind]. apply max_loop_result.
Qed.

Lemma mode_of_ok vs : dropna vs <> [] -> exists m, mode_of vs = Ok m.
Proof.
  intros Hne. unfold mode_of. rewrite at_label_nth; [cbn [bind]; eauto|].
  rewrite sort_values_length. destruct (dropna vs); [congruence|simpl; lia].
Qed.

Lemma kurtosis_of_ok data_col mean std c :
  data_col <> [] ->
  kurtosis_of data_col mean std c
  = Ok (np_div (py_sum (map (fun i => fpow (np_div (fsub i mean) std) 4) data_col)) c).
Proof.
  intros Hne. unfold kurtosis_of. destruct data_col; [congruence|]. reflexivity.
Qed.

(** On a column with at least two present values the thirteen bodies
    raise exactly when a square of [get_var] is out of range, and the
    record they build otherwise is [expected_record]: the thirteen keys in
    the order of [__init__], with these values. *)
Lemma describe_col_cases (vs : list float) :
  (2 <= List.length (dropna vs))%nat ->
  exists mode,
    mode_of vs = Ok mode /\
    describe_col vs []
    = (_ <- squared_deviations vs ;; Ok (expected_record vs mode)).
Proof.
  intros Hlen.
  assert (Hne : dropna vs <> []) by (destruct (dropna vs); [simpl in Hlen; lia|discriminate]).
  pose proof (dropna_nonempty vs Hne) as Hvs.
  assert (Hq : forall p rec, In p [1 # 4; 1 # 2; 3 # 4] ->
                 dict_get rec "count" = Ok (len (dropna vs)) ->
                 quartile p vs rec = Ok (spec_quantile p (dropna vs))).
  { intros p rec Hp Hc. destruct (quartile_probability p Hp).
    now apply quartile_spec. }
  destruct (mode_of_ok vs Hne) as [m Hm]. exists m. split; [exact Hm|].
  unfold describe_col.
  change (get_count_col vs []) with (Ok [("count"%string, len (dropna vs))]).
  cbn [bind].
  erewrite get_missing_values_col_ok; [|reflexivity|exact Hvs]. cbn [bind].
  rewrite get_mean_col_ok; [|reflexivity|exact Hne]. cbn [bind].
  rewrite get_var_col_ok; [|reflexivity|exact Hlen].
  destruct (squared_deviations vs) as [s|e]; [|reflexivity]. cbn [bind].
  unfold get_std_col at 1. rewrite dict_get_set_eq. cbn [bind].
  rewrite (get_min_col_ok vs _ Hvs). cbn [bind].
  unfold get_25_col, get_50_col, get_75_col.
  rewrite (Hq (1 # 4)) by (simpl; tauto || reflexivity). cbn [bind].
  rewrite (Hq (1 # 2)) by (simpl; tauto || reflexivity). cbn [bind].
  rewrite (Hq (3 # 4)) by (simpl; tauto || reflexivity). cbn [bind].
  unfold get_iqr_col at 1. rewrite dict_get_set_eq. cbn [bind].
  rewrite dict_get_set_ne, dict_get_set_ne, dict_get_set_eq by discriminate.
  cbn [bind].
  rewrite (get_max_col_ok vs _ Hvs). cbn [bind].
  unfold get_mode_col. rewrite Hm. cbn [bind].
  unfold get_kurtosis_col.
  match goal with
  | |- context [dict_get ?r "mean"] =>
      change (dict_get r "mean")
        with (Ok (round6 (np_div (py_sum (dropna vs)) (len (dropna vs)))))
  end.
  cbn [bind].
  match goal with
  | |- context [dict_get ?r "std"] =>
      let v := eval cbv beta in
        (sqrt_round6
           (round6 (np_div
              (py_sum (map (fun i => fpow (fsub i (np_div (py_sum (dropna vs))
                                                          (len (dropna vs)))) 2)
                           (dropna vs)))
              (fsub (len (dropna vs)) (of_int 1))))) in
      change (dict_get r "std") with (Ok v)
  end.
  cbn [bind].
  match goal with
  | |- context [dict_get ?r "count"] =>
      change (dict_get r "count") with (Ok (len (dropna vs)))
  end.
  cbn [bind].
  rewrite (kurtosis_of_ok _ _ _ _ Hne). cbn [bind].
  reflexivity.
Qed.

(** In a table with distinct column names, [Describe] returns a report
    exactly when every selected column has at least two present values
    and no square of [get_var] is out of range. *)
Lemma Describe_succeeds_iff (data : DataFrame) :
  NoDup (keys data) ->
  (exists r, Describe data = Ok r) <->
  (forall c vs, In (c, Numeric vs) data -> c <> label_column ->
                (2 <= List.length (dropna vs))%nat /\
                exists s, squared_deviations vs = Ok s).
Proof.
  intros Hnd. split.
  - intros [r Hr] c vs Hin Hlab.
    assert (Hlen : (2 <= List.length (dropna vs))%nat).
    { destruct (le_lt_dec 2 (List.length (dropna vs))) as [H|H]; [exact H|].
      destruct (Describe_small_column data c vs Hnd Hin Hlab) as (e & He & _);
        [lia|].
      rewrite He in Hr. discriminate. }
    split; [exact Hlen|].
    apply Describe_by_column in Hr.
    assert (Hc : In c (keys r)).
    { rewrite (for_each_col_keys _ _ _ Hr), init_stats_entries by assumption.
      unfold keys. rewrite map_map. simpl. rewrite map_id.
      apply qualifying_In. eauto. }
    apply in_map_iff in Hc as ([c' rec] & Hc & Hrec). simpl in Hc. subst c'.
    destruct (for_each_col_In _ _ _ _ _ Hr Hrec) as (rec0 & Hin0 & Hb).
    rewrite init_stats_entries in Hin0 by assumption.
    apply in_map_iff in Hin0 as (c' & Heq & _). inversion Heq; subst.
    rewrite (column_In data c vs Hnd Hin) in Hb. cbn [bind] in Hb.
    destruct (describe_col_cases vs Hlen) as (m & _ & Hcases).
    rewrite Hcases in Hb.
    destruct (squared_deviations vs) as [s|e]; [eauto|discriminate].
  - intros Hall.
    destruct (for_each_col_total
                (fun c rec => vs <- column data c ;; describe_col vs rec)
                (init_stats data)) as [r Hr].
    + intros c r0 Hin. rewrite init_stats_entries in Hin by assumption.
      apply in_map_iff in Hin as (c' & Heq & Hin). inversion Heq; subst.
      apply qualifying_In in Hin as [[vs Hin] Hlab].
      rewrite (column_In data c vs Hnd Hin). cbn [bind].
      destruct (Hall c vs Hin Hlab) as (Hlen & s & Hs).
      destruct (describe_col_cases vs Hlen) as (m & _ & ->).
      rewrite Hs. cbn [bind]. eauto.
    + exists r. now apply Describe_by_column.
Qed.

(** Every record of a report is [expected_record] of its column. *)
Lemma Describe_records (data : DataFrame) (r : report) (c : string) (rec : col_stats) :
  NoDup (keys data) ->
  Describe data = Ok r ->
  In (c, rec) r ->
  exists vs mode,
    In (c, Numeric vs) data /\ c <> label_column /\
    (2 <= List.length (dropna vs))%nat /\
    mode_of vs = Ok mode /\
    rec = expected_record vs mode /\
    keys rec = stat_keys.
Proof.
  intros Hnd Hr Hin.
  pose proof (proj1 (Describe_succeeds_iff data Hnd) (ex_intro _ r Hr)) as Hall.
  apply Describe_by_column in Hr.
  destruct (for_each_col_In _ _ _ _ _ Hr Hin) as (rec0 & Hin0 & Hb).
  rewrite init_stats_entries in Hin0 by assumption.
  apply in_map_iff in Hin0 as (c' & Heq & Hq). inversion Heq; subst.
  apply qualifying_In in Hq as [[vs Hvs] Hlab].
  rewrite (column_In data c vs Hnd Hvs) in Hb. cbn [bind] in Hb.
  destruct (Hall c vs Hvs Hlab) as (Hlen & s & Hs).
  destruct (describe_col_cases vs Hlen) as (m & Hm & Hrec).
  rewrite Hs in Hrec. cbn [bind] in Hrec.
  rewrite Hb in Hrec. inversion Hrec; subst rec.
  exists vs, m.
  split; [exact Hvs|]. split; [exact Hlab|].
  split; [exact Hlen|]. split; [exact Hm|].
  split; reflexivity.
Qed.

(** ** A missing first entry *)

Lemma flt_NaN_r x : flt x NaN = false.
Proof. now destruct x. Qed.

Lemma scan_min_NaN vs : scan_min vs NaN = NaN.
Proof.
  induction vs as [|i vs IH]; simpl; [reflexivity|].
  now rewrite flt_NaN_r, andb_false_r.
Qed.

Lemma scan_max_NaN vs : scan_max vs NaN = NaN.
Proof.
  induction vs as [|i vs IH]; simpl; [reflexivity|].
  unfold fgt. simpl. now rewrite andb_false_r.
Qed.

(** Whatever follows a missing first entry, [get_min] and [get_max] store
    NaN. *)
Lemma extremes_of_missing_first_entry (vs : list float) (rec : col_stats) :
  get_min_col (NaN :: vs) rec = Ok (dict_set rec "min" NaN) /\
  get_max_col (NaN :: vs) rec = Ok (dict_set rec "max" NaN).
Proof.
  rewrite get_min_col_ok, get_max_col_ok by discriminate.
  cbn [hd]. now rewrite scan_min_NaN, scan_max_NaN.
Qed.

(** * Properties of the machine arithmetic part *)

(** ** Sorting *)

Lemma machine_insert_sorted_perm x l :
  Permutation (Machine.insert_sorted x l) (x :: l).
Proof.
  induction l as [|y l IH]; simpl; [reflexivity|].
  destruct (Machine.lt y x); [|reflexivity].
  rewrite IH. apply perm_swap.
Qed.

Lemma machine_sort_values_perm l : Permutation (Machine.sort_values l) l.
Proof.
  induction l as [|x l IH]; simpl; [reflexivity|].
  rewrite machine_insert_sorted_perm. now constructor.
Qed.

Lemma machine_sort_values_length l :
  List.length (Machine.sort_values l) = List.length l.
Proof. apply Permutation_length, machine_sort_values_perm. Qed.

Lemma machine_insert_sorted_HdRel a x l :
  Machine.not_above a x -> HdRel Machine.not_above a l ->
  HdRel Machine.not_above a (Machine.insert_sorted x l).
Proof.
  intros Hax Hl. destruct l as [|y l]; simpl; [now constructor|].
  destruct (Machine.lt y x); constructor; [now inversion Hl|exact Hax].
Qed.

Lemma machine_insert_sorted_Sorted x l :
  Sorted Machine.not_above l -> Sorted Machine.not_above (Machine.insert_sorted x l).
Proof.
  induction 1 as [|y l Hs IH Hhd]; simpl; [repeat constructor|].
  destruct (Machine.lt y x) eqn:E.
  - constructor; [exact IH|].
    apply machine_insert_sorted_HdRel; [|exact Hhd].
    unfold Machine.not_above, Machine.lt in *. now apply flt_asym.
  - constructor; [now constructor|]. constructor. exact E.
Qed.

Lemma machine_sort_values_Sorted l :
  Sorted Machine.not_above (Machine.sort_values l).
Proof.
  induction l as [|x l IH]; simpl; [constructor|].
  now apply machine_insert_sorted_Sorted.
Qed.

Lemma machine_at_label_nth l i :
  (0 <= i < Z.of_nat (List.length l))%Z ->
  Machine.at_label l i = Ok (nth (Z.to_nat i) l (Machine.Float64 NaN)).
Proof.
  intros [H0 Hlt]. unfold Machine.at_label.
  destruct (Z.ltb_spec i 0) as [Hneg|_]; [lia|].
  destruct (nth_error l (Z.to_nat i)) as [x|] eqn:E.
  - now rewrite (nth_error_nth _ _ _ E).
  - apply nth_error_None in E. lia.
Qed.

(** ** The quartiles *)

Lemma machine_mul_weight_proper (a : Machine.scalar) (x y : Q) :
  x == y ->
  Machine.mul a (Machine.PyFloat (Fin x)) = Machine.mul a (Machine.PyFloat (Fin y)).
Proof.
  intros H. unfold Machine.mul, Machine.arith.
  replace (Machine.is_integer a && Machine.is_integer (Machine.PyFloat (Fin x)))
    with false by (destruct a; reflexivity).
  replace (Machine.is_integer a && Machine.is_integer (Machine.PyFloat (Fin y)))
    with false by (destruct a; reflexivity).
  cbn [Machine.as_double Machine.is_numpy]. unfold Machine.mul64.
  now rewrite (fmul_Fin_proper _ x y H).
Qed.

(** The value stored by [quartile] is the quantile of the specification
    in the arithmetic of the source. *)
Lemma machine_quartile_spec (p : Q) (col : Machine.column) (rec : Machine.stats) :
  0 <= p -> p <= 1 ->
  let present := Machine.entries (Machine.dropna col) in
  dict_get rec "count" = Ok (Machine.PyInt (Z.of_nat (List.length present))) ->
  present <> [] ->
  Machine.quartile p col rec = Ok (Machine.spec_quantile p col).
Proof.
  intros Hp0 Hp1 present Hcount Hne.
  unfold Machine.quartile, Machine.spec_quantile. rewrite Hcount. cbn [bind].
  fold present. cbn [Machine.value_of]. rewrite value_of_count.
  rewrite machine_sort_values_length.
  set (n := Z.of_nat (List.length present)).
  assert (Hn : (1 <= n)%Z).
  { unfold n. destruct present; [congruence|simpl; lia]. }
  set (v := inject_Z (n - 1) * p).
  assert (Hv0 : 0 <= v).
  { unfold v. apply Qmult_le_0_compat; [|assumption].
    unfold Qle, inject_Z; simpl; lia. }
  assert (Hm : (0 <= n - 1)%Z) by lia.
  destruct (virtual_index_bounds (n - 1)%Z p Hm Hp0 Hp1) as [Hlo Hhi].
  fold v in Hlo, Hhi.
  assert (Hfl : Qfloor (Qred v) = Qfloor v) by (now rewrite Qred_correct).
  assert (Hint : py_int (Fin (Qred v)) = Ok (Qfloor v)).
  { cbn [py_int]. rewrite Qtruncate_floor, Hfl; [reflexivity|].
    now rewrite Qred_correct. }
  assert (Hmod : feq (py_mod1 (Fin (Qred v))) (of_int 0)
                 = Qeq_bool v (inject_Z (Qfloor v))).
  { cbv [py_mod1 feq of_int]. rewrite Hfl. apply eq_true_iff_eq.
    rewrite !Qeq_bool_iff, !Qred_correct. change (inject_Z 0) with 0.
    generalize (inject_Z (Qfloor v)). clearbody v. intros f. split; intros H; lra. }
  rewrite Hmod, Hint. cbn [bind].
  assert (Hlen : Z.of_nat (List.length (Machine.sort_values present)) = n).
  { now rewrite machine_sort_values_length. }
  destruct (Qeq_bool v (inject_Z (Qfloor v))) eqn:E.
  - rewrite machine_at_label_nth by lia. reflexivity.
  - assert (Hfrac : ~ v == inject_Z (Qfloor v)) by (now apply Qeq_bool_neq).
    specialize (Hhi Hfrac).
    rewrite !machine_at_label_nth by lia. cbn [bind]. do 3 f_equal.
    + cbv [of_int fsub]. apply machine_mul_weight_proper.
      rewrite !Qred_correct. reflexivity.
    + cbv [of_int fsub]. apply machine_mul_weight_proper.
      rewrite !Qred_correct. reflexivity.
Qed.

Lemma machine_spec_quantile_single (p : Q) (col : Machine.column) (x : Machine.scalar) :
  Machine.entries (Machine.dropna col) = [x] ->
  Machine.spec_quantile p col = Machine.round6 x.
Proof.
  intros H. unfold Machine.spec_quantile. rewrite H.
  simpl List.length. simpl Z.of_nat.
  change (inject_Z (1 - 1)) with (inject_Z 0).
  assert (H0 : inject_Z 0 * p == 0) by ring.
  rewrite (Qfloor_comp _ _ H0). change (Qfloor 0) with 0%Z.
  assert (E : Qeq_bool (inject_Z 0 * p) (inject_Z 0) = true).
  { apply Qeq_bool_iff. ring. }
  rewrite E. reflexivity.
Qed.

(** C1, as the code has it.  For a column of dtype int64 or float64 with at
    least one present value, whose ["count"] is the number of its present
    values, [get_25], [get_50] and [get_75] store the quantile of the
    specification computed in the arithmetic of the source: the sorted
    values are numpy scalars, each product with a weight and their sum
    are rounded to binary64, and the result is rounded as numpy rounds
    (times 10^6, nearest integer, divided by 10^6, in binary64), an
    [int64] value being stored as it is.  With a single present value each
    of the three is that value so rounded. *)
Theorem percentile_is_binary64_interpolation
    (col : Machine.column) (rec : Machine.stats) :
  let present := Machine.entries (Machine.dropna col) in
  dict_get rec "count" = Ok (Machine.PyInt (Z.of_nat (List.length present))) ->
  present <> [] ->
  Permutation (Machine.sort_values present) present /\
  Sorted Machine.not_above (Machine.sort_values present) /\
  Machine.get_25_col col rec
  = Ok (dict_set rec "25%" (Machine.spec_quantile (1 # 4) col)) /\
  Machine.get_50_col col rec
  = Ok (dict_set rec "50%" (Machine.spec_quantile (1 # 2) col)) /\
  Machine.get_75_col col rec
  = Ok (dict_set rec "75%" (Machine.spec_quantile (3 # 4) col)) /\
  (forall x, present = [x] ->
     Machine.get_25_col col rec = Ok (dict_set rec "25%" (Machine.round6 x)) /\
     Machine.get_50_col col rec = Ok (dict_set rec "50%" (Machine.round6 x)) /\
     Machine.get_75_col col rec = Ok (dict_set rec "75%" (Machine.round6 x))).
Proof.
  intros present Hcount Hne.
  assert (Hq : forall p, In p [1 # 4; 1 # 2; 3 # 4] ->
                 Machine.quartile p col rec = Ok (Machine.spec_quantile p col)).
  { intros p Hp. destruct (quartile_probability p Hp).
    now apply machine_quartile_spec. }
  unfold Machine.get_25_col, Machine.get_50_col, Machine.get_75_col.
  rewrite !Hq by (simpl; tauto). cbn [bind].
  split; [apply machine_sort_values_perm|].
  split; [apply machine_sort_values_Sorted|].
  repeat split; try reflexivity.
  all: now rewrite (machine_spec_quantile_single _ col x).
Qed.

Lemma percentile_is_binary64_interpolation_witness :
  let col := Machine.Float64s [of_int 5; NaN; of_int 1; of_int 2; of_int 9] in
  let rec := [("count"%string, Machine.PyInt 4)] in
  dict_get rec "count"
  = Ok (Machine.PyInt (Z.of_nat (List.length (Machine.entries (Machine.dropna col))))) /\
  Machine.entries (Machine.dropna col) <> [] /\
  Machine.get_25_col col rec
  = Ok (dict_set rec "25%" (Machine.Float64 (Fin (7 # 4)))) /\
  Machine.get_50_col col rec
  = Ok (dict_set rec "50%" (Machine.Float64 (Fin (7 # 2)))).
Proof.
  intros col rec.
  assert (H1 : dict_get rec "count"
               = Ok (Machine.PyInt (Z.of_nat (List.length (Machine.entries (Machine.dropna col))))))
    by reflexivity.
  assert (H2 : Machine.entries (Machine.dropna col) <> []) by discriminate.
  destruct (percentile_is_binary64_interpolation col rec H1 H2)
    as (_ & _ & H25 & H50 & _).
  split; [exact H1|]. split; [exact H2|].
  split; [rewrite H25|rewrite H50]; vm_compute; reflexivity.
Defined.

(** C1 as stated fails on the float64 column whose single entry is the
    double nearest to 10^305: the column has one present value, a finite
    number, and the stored 25% is an infinity, because numpy's rounding
    multiplies by 10^6 first.  It fails on the column 2.033339, -28.061719
    too: the interpolation of the two doubles is below the tie
    -20.5379545 and rounds to -20.537955, the stored 25% is the double
    -20.537954. *)
Lemma percentile_of_huge_single_value :
  let x := Machine.b64 (inject_Z (10 ^ 305)) in
  let rec := [("count"%string, Machine.PyInt 1)] in
  let a := Machine.b64 (2033339 # 1000000) in
  let b := Machine.b64 (-28061719 # 1000000) in
  let rec2 := [("count"%string, Machine.PyInt 2)] in
  (exists q, x = Fin q /\ spec_quantile (1 # 4) [x] = Fin q) /\
  Machine.get_25_col (Machine.Float64s [x]) rec
  = Ok (dict_set rec "25%" (Machine.Float64 PInf)) /\
  spec_quantile (1 # 4) [a; b] = Fin (Qred (-20537955 # 1000000)) /\
  Machine.get_25_col (Machine.Float64s [a; b]) rec2
  = Ok (dict_set rec2 "25%" (Machine.Float64 (Machine.b64 (-20537954 # 1000000)))).
Proof.
  intros x rec a b rec2. split; [|split; [|split]].
  - eexists. split; vm_compute; reflexivity.
  - vm_compute. reflexivity.
  - vm_compute. reflexivity.
  - vm_compute. reflexivity.
Qed.

(** ** The interquartile range *)

Lemma wrap64_small (z : Z) :
  (- 2 ^ 63 <= z < 2 ^ 63)%Z -> Machine.wrap64 z = z.
Proof.
  intros H. unfold Machine.wrap64. rewrite Z.mod_small; lia.
Qed.

Lemma wrap64_range (z : Z) : (- 2 ^ 63 <= Machine.wrap64 z < 2 ^ 63)%Z.
Proof.
  unfold Machine.wrap64.
  pose proof (Z.mod_pos_bound (z + 2 ^ 63) (2 ^ 64) ltac:(lia)). lia.
Qed.

Lemma b64_Qred (q : Q) : Machine.b64 (Qred q) = Machine.b64 q.
Proof.
  unfold Machine.b64.
  replace (Qred (Qred q)) with (Qred q)
    by (symmetry; apply Qred_complete, Qred_correct).
  replace (Qred (- Qred q)) with (Qred (- q)); [reflexivity|].
  apply Qred_complete. now rewrite Qred_correct.
Qed.

Lemma machine_sub_int64 (m n : Z) :
  Machine.sub (Machine.Int64 m) (Machine.Int64 n)
  = Machine.Int64 (Machine.wrap64 (m - n)).
Proof. reflexivity. Qed.

Lemma machine_sub_float64 (a b : Q) :
  Machine.sub (Machine.Float64 (Fin a)) (Machine.Float64 (Fin b))
  = Machine.Float64 (Machine.b64 (a - b)).
Proof.
  cbv [Machine.sub Machine.arith Machine.is_integer Machine.is_numpy andb orb
       Machine.as_double Machine.sub64 fsub Machine.rnd].
  now rewrite b64_Qred.
Qed.

Lemma machine_round6_numpy x :
  Machine.is_numpy x = true -> Machine.is_numpy (Machine.round6 x) = true.
Proof. destruct x; simpl; congruence. Qed.

Lemma machine_arith_numpy op_int op_float x y :
  Machine.is_numpy x = true ->
  Machine.is_numpy (Machine.arith op_int op_float x y) = true.
Proof.
  intros H. unfold Machine.arith. rewrite H. cbn [orb].
  destruct (Machine.is_integer x && Machine.is_integer y); reflexivity.
Qed.

(** a stored quantile is a numpy scalar *)
Lemma machine_spec_quantile_numpy (p : Q) (col : Machine.column) :
  Machine.is_numpy (Machine.spec_quantile p col) = true.
Proof.
  unfold Machine.spec_quantile. apply machine_round6_numpy.
  set (sorted := Machine.sort_values (Machine.entries (Machine.dropna col))).
  assert (Hall : forall i, Machine.is_numpy (nth i sorted (Machine.Float64 NaN)) = true).
  { intros i. destruct (nth_in_or_default i sorted (Machine.Float64 NaN)) as [Hin| ->];
      [|reflexivity].
    apply (Permutation_in _ (machine_sort_values_perm _)) in Hin.
    destruct (Machine.dropna col) as [l|l]; simpl in Hin;
      apply in_map_iff in Hin as (? & <- & _); reflexivity. }
  destruct (Qeq_bool _ _); [apply Hall|].
  apply machine_arith_numpy, machine_arith_numpy, Hall.
Qed.

(** C8, as the code has it.  On the entry of a column with at least one
    present value, [get_25], [get_50], [get_75] and [get_iqr] leave under
    ["iqr"] the stored ["75%"] minus the stored ["25%"], both numpy
    scalars, subtracted as numpy subtracts them and not rounded again:
    two [int64] give their difference modulo 2^64, which is their
    difference when that lies between -2^63 and 2^63 - 1; two [float64]
    give the binary64 number nearest to their difference. *)
Theorem iqr_is_machine_difference (col : Machine.column) (rec : Machine.stats) :
  let present := Machine.entries (Machine.dropna col) in
  let q25 := Machine.spec_quantile (1 # 4) col in
  let q75 := Machine.spec_quantile (3 # 4) col in
  dict_get rec "count" = Ok (Machine.PyInt (Z.of_nat (List.length present))) ->
  present <> [] ->
  exists rec',
    Machine.quartiles_and_iqr col rec = Ok rec' /\
    dict_get rec' "25%" = Ok q25 /\
    dict_get rec' "75%" = Ok q75 /\
    dict_get rec' "iqr" = Ok (Machine.sub q75 q25) /\
    Machine.is_numpy q25 = true /\ Machine.is_numpy q75 = true /\
    (forall m n, q75 = Machine.Int64 m -> q25 = Machine.Int64 n ->
       Machine.sub q75 q25 = Machine.Int64 (Machine.wrap64 (m - n)) /\
       ((- 2 ^ 63 <= m - n < 2 ^ 63)%Z ->
        Machine.sub q75 q25 = Machine.Int64 (m - n))) /\
    (forall a b, q75 = Machine.Float64 (Fin a) -> q25 = Machine.Float64 (Fin b) ->
       Machine.sub q75 q25 = Machine.Float64 (Machine.b64 (a - b))).
Proof.
  intros present q25 q75 Hcount Hne.
  assert (Hq : forall p r, In p [1 # 4; 1 # 2; 3 # 4] ->
                 dict_get r "count" = dict_get rec "count" ->
                 Machine.quartile p col r = Ok (Machine.spec_quantile p col)).
  { intros p r Hp Hr. destruct (quartile_probability p Hp).
    apply machine_quartile_spec; try assumption. now rewrite Hr. }
  unfold Machine.quartiles_and_iqr, Machine.get_25_col, Machine.get_50_col,
    Machine.get_75_col, Machine.get_iqr_col.
  rewrite (Hq (1 # 4) rec) by (simpl; tauto). cbn [bind].
  rewrite (Hq (1 # 2)) by (simpl; rewrite ?dict_get_set_ne by discriminate; tauto).
  cbn [bind].
  rewrite (Hq (3 # 4)) by (simpl; rewrite ?dict_get_set_ne by discriminate; tauto).
  cbn [bind]. fold q25 q75.
  rewrite dict_get_set_eq. cbn [bind].
  rewrite !dict_get_set_ne by discriminate. rewrite dict_get_set_eq. cbn [bind].
  eexists. split; [reflexivity|].
  rewrite !dict_get_set_ne by discriminate.
  rewrite !dict_get_set_eq.
  rewrite !dict_get_set_ne by discriminate.
  rewrite !dict_get_set_eq.
  split; [reflexivity|]. split; [reflexivity|]. split; [reflexivity|].
  split; [apply machine_spec_quantile_numpy|].
  split; [apply machine_spec_quantile_numpy|]. split.
  - intros m n -> ->. rewrite machine_sub_int64. split; [reflexivity|].
    intros Hr. now rewrite wrap64_small.
  - intros a b -> ->. apply machine_sub_float64.
Qed.

Lemma iqr_is_machine_difference_witness :
  let col := Machine.Int64s [5; 1; 2; 9; 7]%Z in
  let rec := [("count"%string, Machine.PyInt 5)] in
  dict_get rec "count"
  = Ok (Machine.PyInt (Z.of_nat (List.length (Machine.entries (Machine.dropna col))))) /\
  Machine.entries (Machine.dropna col) <> [] /\
  exists rec',
    Machine.quartiles_and_iqr col rec = Ok rec' /\
    dict_get rec' "25%" = Ok (Machine.Int64 2) /\
    dict_get rec' "75%" = Ok (Machine.Int64 7) /\
    dict_get rec' "iqr" = Ok (Machine.Int64 5).
Proof.
  intros col rec.
  assert (H1 : dict_get rec "count"
               = Ok (Machine.PyInt (Z.of_nat (List.length (Machine.entries (Machine.dropna col))))))
    by reflexivity.
  assert (H2 : Machine.entries (Machine.dropna col) <> []) by discriminate.
  split; [exact H1|]. split; [exact H2|].
  destruct (iqr_is_machine_difference col rec H1 H2)
    as (rec' & Hrun & H25 & H75 & Hiqr & _).
  exists rec'. split; [exact Hrun|].
  split; [rewrite H25|split; [rewrite H75|rewrite Hiqr]]; vm_compute; reflexivity.
Defined.

(** C8 as stated fails on the int64 column -2^62, -2^62, 0, 2^62, 2^62:
    the stored 75% is 2^62, the stored 25% is -2^62 and the stored iqr is
    -2^63, not their difference 2^63.  It fails on the float64 column
    0.1, 0.1, 1, 10^16, 10^16 as well: the stored quartiles are the
    doubles 0.1 and 10^16, the stored iqr is 10^16, which is not the
    difference of the two numbers. *)
Lemma iqr_wraps_on_int64 :
  let col := Machine.Int64s [- 2 ^ 62; - 2 ^ 62; 0; 2 ^ 62; 2 ^ 62]%Z in
  let tenth := Machine.b64 (1 # 10) in
  let big := Machine.b64 (inject_Z (10 ^ 16)) in
  let col2 := Machine.Float64s [tenth; tenth; of_int 1; big; big] in
  let rec := [("count"%string, Machine.PyInt 5)] in
  (exists rec',
     Machine.quartiles_and_iqr col rec = Ok rec' /\
     dict_get rec' "75%" = Ok (Machine.Int64 (2 ^ 62)) /\
     dict_get rec' "25%" = Ok (Machine.Int64 (- 2 ^ 62)) /\
     dict_get rec' "iqr" = Ok (Machine.Int64 (- 2 ^ 63)) /\
     (2 ^ 62 - - 2 ^ 62 <> - 2 ^ 63)%Z) /\
  (exists rec' a b,
     Machine.quartiles_and_iqr col2 rec = Ok rec' /\
     dict_get rec' "75%" = Ok (Machine.Float64 (Fin a)) /\
     dict_get rec' "25%" = Ok (Machine.Float64 (Fin b)) /\
     dict_get rec' "iqr" = Ok (Machine.Float64 (Fin a)) /\
     ~ a - b == a).
Proof.
  intros col tenth big col2 rec. split.
  - eexists. split; [vm_compute; reflexivity|].
    repeat split; try (vm_compute; reflexivity). discriminate.
  - eexists. eexists. eexists. split; [vm_compute; reflexivity|].
    split; [vm_compute; reflexivity|]. split; [vm_compute; reflexivity|].
    split; [vm_compute; reflexivity|]. vm_compute. discriminate.
Qed.

(** ** The kurtosis *)

Lemma comprehension_map {A B : Type} (f : A -> result B) (g : A -> B) (l : list A) :
  (forall x, In x l -> f x = Ok (g x)) ->
  comprehension f l = Ok (map g l).
Proof.
  induction l as [|x l IH]; intros H; [reflexivity|].
  cbn [comprehension map]. rewrite (H x) by now left. cbn [bind].
  rewrite IH by (intros y Hy; apply H; now right). reflexivity.
Qed.

Lemma machine_items_python col i :
  In i (Machine.items col) -> Machine.is_numpy i = false.
Proof.
  destruct col as [l|l]; simpl; intros H;
    apply in_map_iff in H as (? & <- & _); reflexivity.
Qed.

Lemma machine_fold_add_float64 (ts : list float) (a : float) :
  fold_left Machine.add (map Machine.Float64 ts) (Machine.Float64 a)
  = Machine.Float64 (fold_left Machine.add64 ts a).
Proof.
  revert a. induction ts as [|t ts IH]; intros a; [reflexivity|].
  cbn [map fold_left]. now rewrite <- IH.
Qed.

(** the sum of numpy floats, from the integer 0 *)
Lemma machine_sum_float64 (ts : list float) :
  ts <> [] ->
  Machine.sum (map Machine.Float64 ts)
  = Machine.Float64 (fold_left Machine.add64 ts (Fin 0)).
Proof.
  destruct ts as [|t ts]; [congruence|]. intros _.
  unfold Machine.sum. cbn [map fold_left].
  change (Machine.add (Machine.PyInt 0) (Machine.Float64 t))
    with (Machine.Float64 (Machine.add64 (Machine.to_double 0) t)).
  change (Machine.to_double 0) with (Fin 0).
  apply machine_fold_add_float64.
Qed.




(** * Further properties *)

(** ** Rounding *)

Lemma round_half_even_near (x : Q) :
  inject_Z (round_half_even x) - (1 # 2) <= x /\
  x <= inject_Z (round_half_even x) + (1 # 2).
Proof.
  unfold round_half_even.
  pose proof (Qfloor_le x) as Hlo. pose proof (Qlt_floor x) as Hhi.
  rewrite inject_Z_plus in Hhi. change (inject_Z 1) with 1 in Hhi.
  set (f := Qfloor x) in *.
  destruct (Qcompare (x - inject_Z f) (1 # 2)) eqn:E.
  - apply Qeq_alt in E. destruct (Z.even f).
    + split; lra.
    + rewrite inject_Z_plus. change (inject_Z 1) with 1. split; lra.
  - apply Qlt_alt in E. split; lra.
  - apply Qgt_alt in E. rewrite inject_Z_plus. change (inject_Z 1) with 1.
    split; lra.
Qed.

Lemma round_half_even_Z (z : Z) : round_half_even (inject_Z z) = z.
Proof.
  unfold round_half_even. rewrite Qfloor_Z.
  assert (E : Qcompare (inject_Z z - inject_Z z) (1 # 2) = Lt).
  { apply Qlt_alt. setoid_replace (inject_Z z - inject_Z z) with 0 by ring.
    reflexivity. }
  now rewrite E.
Qed.

Lemma inject_Z_lt_inv (a b : Z) : inject_Z a < inject_Z b -> (a < b)%Z.
Proof. unfold Qlt, inject_Z; simpl. lia. Qed.

Lemma inject_Z_of_le (a b : Z) : (a <= b)%Z -> inject_Z a <= inject_Z b.
Proof. unfold Qle, inject_Z; simpl. lia. Qed.

(** turns an equation on [Qcompare] into the order it states *)
Ltac compare_to_order H :=
  match type of H with
  | _ = Eq => apply Qeq_alt in H
  | _ = Lt => apply Qlt_alt in H
  | _ = Gt => apply Qgt_alt in H
  end.

Lemma round_half_even_mono (x y : Q) :
  x <= y -> (round_half_even x <= round_half_even y)%Z.
Proof.
  intros Hxy. pose proof (Qfloor_resp_le x y Hxy) as Hf.
  unfold round_half_even.
  pose proof (Qfloor_le x) as Hx. pose proof (Qlt_floor y) as Hy.
  rewrite inject_Z_plus in Hy. change (inject_Z 1) with 1 in Hy.
  set (f := Qfloor x) in *. set (g := Qfloor y) in *.
  destruct (Z.eq_dec f g) as [E|E].
  - rewrite <- E in *. clear E.
    destruct (Qcompare (x - inject_Z f) (1 # 2)) eqn:Ex;
      destruct (Qcompare (y - inject_Z f) (1 # 2)) eqn:Ey;
      try (destruct (Z.even f)); try lia;
      compare_to_order Ex; compare_to_order Ey; exfalso; lra.
  - assert (f + 1 <= g)%Z by lia.
    destruct (Qcompare (x - inject_Z f) (1 # 2));
      destruct (Qcompare (y - inject_Z g) (1 # 2));
      try (destruct (Z.even f)); try (destruct (Z.even g)); lia.
Qed.

Lemma Qround6_eq (x : Q) :
  Qround6 x == inject_Z (round_half_even (x * million)) / million.
Proof. unfold Qround6. apply Qred_correct. Qed.

Lemma million_pos : 0 < million.
Proof. reflexivity. Qed.

Lemma Qround6_mono (x y : Q) : x <= y -> Qround6 x <= Qround6 y.
Proof.
  intros H. rewrite !Qround6_eq.
  apply Qmult_le_compat_r; [|now apply Qlt_le_weak, Qinv_lt_0_compat].
  apply inject_Z_of_le, round_half_even_mono.
  apply Qmult_le_compat_r; [exact H|]. now apply Qlt_le_weak.
Qed.

(** a multiple of 10^-6 rounds to itself *)
Lemma Qround6_multiple (k : Z) :
  Qround6 (inject_Z k / million) == inject_Z k / million.
Proof.
  rewrite Qround6_eq.
  assert (E : inject_Z k / million * million == inject_Z k) by (field; discriminate).
  now rewrite (round_half_even_proper _ _ E), round_half_even_Z.
Qed.

Lemma Qround6_idem (x : Q) : Qround6 (Qround6 x) = Qround6 x.
Proof.
  assert (E : Qround6 x * million == inject_Z (round_half_even (x * million))).
  { rewrite Qround6_eq. field. discriminate. }
  unfold Qround6 at 1.
  now rewrite (round_half_even_proper _ _ E), round_half_even_Z.
Qed.

Lemma Qround6_Z (z : Z) : Qround6 (inject_Z z) == inject_Z z.
Proof.
  assert (E : inject_Z z == inject_Z (z * 1000000) / million).
  { rewrite inject_Z_mult. change (inject_Z 1000000) with million. field. discriminate. }
  rewrite (Qround6_proper _ _ E), Qround6_multiple. now rewrite <- E.
Qed.

(** rounding moves a number by half of 10^-6 at most *)
(** ** Extremes of a column whose first entry is present *)

Lemma flt_Fin_true (a b : Q) : flt (Fin a) (Fin b) = true <-> a < b.
Proof.
  simpl. rewrite Qlt_alt. destruct (a ?= b); split; congruence.
Qed.

Lemma flt_Fin_false (a b : Q) : flt (Fin a) (Fin b) = false <-> b <= a.
Proof.
  rewrite <- not_true_iff_false, flt_Fin_true. split; intros H.
  - now apply Qnot_lt_le.
  - now apply Qle_not_lt.
Qed.

Lemma Qround6_eq_of_Qeq (a b : Q) : Qround6 a == Qround6 b -> Qround6 a = Qround6 b.
Proof.
  unfold Qround6. intros H. apply Qred_complete.
  now rewrite !Qred_correct in H.
Qed.

(** Two numbers that enclose a rounded number round to it. *)
Lemma Qround6_squeeze_below (lo x : Q) :
  lo <= x -> x <= Qround6 lo -> Qround6 x = Qround6 lo.
Proof.
  intros H1 H2. apply Qround6_eq_of_Qeq. apply Qle_antisym.
  - rewrite <- (Qround6_idem lo). now apply Qround6_mono.
  - now apply Qround6_mono.
Qed.

Lemma Qround6_squeeze_above (hi x : Q) :
  x <= hi -> Qround6 hi <= x -> Qround6 x = Qround6 hi.
Proof.
  intros H1 H2. apply Qround6_eq_of_Qeq. apply Qle_antisym.
  - now apply Qround6_mono.
  - rewrite <- (Qround6_idem hi). now apply Qround6_mono.
Qed.

Lemma dropna_Fin_cons (x : Q) (rest : list float) (xs : list Q) :
  dropna (Fin x :: rest) = map Fin xs ->
  exists xs', xs = x :: xs' /\ dropna rest = map Fin xs'.
Proof.
  unfold dropna. cbn [filter isnan negb].
  destruct xs as [|y xs']; cbn [map]; [discriminate|].
  intros H. inversion H; subst. eauto.
Qed.

Lemma scan_min_invariant (x0 : Q) (rest : list float) :
  forall (xs seen : list Q) (s lo : Q),
    dropna rest = map Fin xs ->
    In lo seen -> (forall y, In y seen -> lo <= y) ->
    (s = x0 /\ lo == x0) \/ (lo < x0 /\ s = Qround6 lo) ->
    exists lo',
      In lo' (seen ++ xs) /\ (forall y, In y (seen ++ xs) -> lo' <= y) /\
      scan_min rest (Fin s) = Fin (if Qle_bool x0 lo' then x0 else Qround6 lo').
Proof.
  induction rest as [|i rest IH]; intros xs seen s lo Hxs Hin Hmin Hinv.
  - destruct xs; [|discriminate]. rewrite app_nil_r.
    exists lo. split; [exact Hin|]. split; [exact Hmin|].
    cbn [scan_min]. f_equal. destruct Hinv as [[-> Hlo]|[Hlo ->]].
    + assert (E : Qle_bool x0 lo = true) by (apply Qle_bool_iff; rewrite Hlo; apply Qle_refl).
      now rewrite E.
    + destruct (Qle_bool x0 lo) eqn:E; [|reflexivity].
      apply Qle_bool_iff in E. lra.
  - destruct i as [x| | |].
    + apply dropna_Fin_cons in Hxs as (xs' & -> & Hxs').
      cbn [scan_min isnan negb andb].
      replace (seen ++ x :: xs') with ((seen ++ [x]) ++ xs')
        by (now rewrite <- app_assoc).
      destruct (flt (Fin x) (Fin s)) eqn:E.
      * apply flt_Fin_true in E. cbn [round6].
        destruct (Qlt_le_dec x lo) as [Hx|Hx].
        -- (* a new minimum *)
           apply (IH xs' (seen ++ [x]) (Qround6 x) x Hxs').
           ++ apply in_or_app. right. now left.
           ++ intros y Hy. apply in_app_or in Hy as [Hy|[<-|[]]];
                [|apply Qle_refl]. specialize (Hmin y Hy). lra.
           ++ right. split; [|reflexivity].
              destruct Hinv as [[-> Hlo]|[Hlo ->]]; lra.
        -- (* between the minimum and its rounding *)
           destruct Hinv as [[-> Hlo]|[Hlo ->]]; [lra|].
           apply (IH xs' (seen ++ [x]) (Qround6 x) lo Hxs').
           ++ apply in_or_app. now left.
           ++ intros y Hy. apply in_app_or in Hy as [Hy|[<-|[]]]; auto.
           ++ right. split; [exact Hlo|].
              apply Qround6_squeeze_below; [exact Hx|lra].
      * apply flt_Fin_false in E.
        destruct (Qlt_le_dec x lo) as [Hx|Hx].
        -- (* below the minimum, not below its rounding *)
           destruct Hinv as [[-> Hlo]|[Hlo ->]]; [lra|].
           apply (IH xs' (seen ++ [x]) (Qround6 lo) x Hxs').
           ++ apply in_or_app. right. now left.
           ++ intros y Hy. apply in_app_or in Hy as [Hy|[<-|[]]];
                [|apply Qle_refl]. specialize (Hmin y Hy). lra.
           ++ right. split; [lra|]. symmetry.
              apply Qround6_squeeze_above; [lra|exact E].
        -- apply (IH xs' (seen ++ [x]) s lo Hxs').
           ++ apply in_or_app. now left.
           ++ intros y Hy. apply in_app_or in Hy as [Hy|[<-|[]]]; auto.
           ++ exact Hinv.
    + exfalso. unfold dropna in Hxs. cbn [filter isnan negb] in Hxs.
      destruct xs; discriminate.
    + exfalso. unfold dropna in Hxs. cbn [filter isnan negb] in Hxs.
      destruct xs; discriminate.
    + cbn [scan_min isnan negb andb]. apply (IH xs seen s lo); auto.
Qed.



Lemma scan_max_invariant (x0 : Q) (rest : list float) :
  forall (xs seen : list Q) (s hi : Q),
    dropna rest = map Fin xs ->
    In hi seen -> (forall y, In y seen -> y <= hi) ->
    (s = x0 /\ hi == x0) \/ (x0 < hi /\ s = Qround6 hi) ->
    exists hi',
      In hi' (seen ++ xs) /\ (forall y, In y (seen ++ xs) -> y <= hi') /\
      scan_max rest (Fin s) = Fin (if Qle_bool hi' x0 then x0 else Qround6 hi').
Proof.
  induction rest as [|i rest IH]; intros xs seen s hi Hxs Hin Hmax Hinv.
  - destruct xs; [|discriminate]. rewrite app_nil_r.
    exists hi. split; [exact Hin|]. split; [exact Hmax|].
    cbn [scan_max]. f_equal. destruct Hinv as [[-> Hhi]|[Hhi ->]].
    + assert (E : Qle_bool hi x0 = true) by (apply Qle_bool_iff; rewrite Hhi; apply Qle_refl).
      now rewrite E.
    + destruct (Qle_bool hi x0) eqn:E; [|reflexivity].
      apply Qle_bool_iff in E. lra.
  - destruct i as [x| | |].
    + apply dropna_Fin_cons in Hxs as (xs' & -> & Hxs').
      cbn [scan_max isnan negb andb]. unfold fgt.
      replace (seen ++ x :: xs') with ((seen ++ [x]) ++ xs')
        by (now rewrite <- app_assoc).
      destruct (flt (Fin s) (Fin x)) eqn:E.
      * apply flt_Fin_true in E. cbn [round6].
        destruct (Qlt_le_dec hi x) as [Hx|Hx].
        -- apply (IH xs' (seen ++ [x]) (Qround6 x) x Hxs').
           ++ apply in_or_app. right. now left.
           ++ intros y Hy. apply in_app_or in Hy as [Hy|[<-|[]]];
                [|apply Qle_refl]. specialize (Hmax y Hy). lra.
           ++ right. split; [|reflexivity].
              destruct Hinv as [[-> Hhi]|[Hhi ->]]; lra.
        -- destruct Hinv as [[-> Hhi]|[Hhi ->]]; [lra|].
           apply (IH xs' (seen ++ [x]) (Qround6 x) hi Hxs').
           ++ apply in_or_app. now left.
           ++ intros y Hy. apply in_app_or in Hy as [Hy|[<-|[]]]; auto.
           ++ right. split; [exact Hhi|].
              apply Qround6_squeeze_above; [exact Hx|lra].
      * apply flt_Fin_false in E.
        destruct (Qlt_le_dec hi x) as [Hx|Hx].
        -- destruct Hinv as [[-> Hhi]|[Hhi ->]]; [lra|].
           apply (IH xs' (seen ++ [x]) (Qround6 hi) x Hxs').
           ++ apply in_or_app. right. now left.
           ++ intros y Hy. apply in_app_or in Hy as [Hy|[<-|[]]];
                [|apply Qle_refl]. specialize (Hmax y Hy). lra.
           ++ right. split; [lra|]. symmetry.
              apply Qround6_squeeze_below; [lra|exact E].
        -- apply (IH xs' (seen ++ [x]) s hi Hxs').
           ++ apply in_or_app. now left.
           ++ intros y Hy. apply in_app_or in Hy as [Hy|[<-|[]]]; auto.
           ++ exact Hinv.
    + exfalso. unfold dropna in Hxs. cbn [filter isnan negb] in Hxs.
      destruct xs; discriminate.
    + exfalso. unfold dropna in Hxs. cbn [filter isnan negb] in Hxs.
      destruct xs; discriminate.
    + cbn [scan_max isnan negb andb]. apply (IH xs seen s hi); auto.
Qed.



(** ** The presenter *)

Lemma find_max_width_fold (items : list string) (m : nat) :
  let r := fold_left
             (fun max_width item =>
                if (max_width <? String.length item)%nat then String.length item
                else max_width) items m in
  (m <= r)%nat /\
  (forall item, In item items -> (String.length item <= r)%nat) /\
  (r = m \/ exists item, In item items /\ String.length item = r).
Proof.
  revert m. induction items as [|x items IH]; intros m; cbn [fold_left].
  - split; [lia|]. split; [intros ? []|now left].
  - destruct (IH (if (m <? String.length x)%nat then String.length x else m))
      as (H1 & H2 & H3).
    destruct (Nat.ltb_spec m (String.length x)) as [Hlt|Hge].
    + split; [lia|]. split.
      * intros item [<-|Hin]; [exact H1|now apply H2].
      * right. destruct H3 as [->|(item & Hin & Hlen)].
        -- exists x. split; [now left|reflexivity].
        -- exists item. split; [now right|exact Hlen].
    + split; [exact H1|]. split.
      * intros item [<-|Hin]; [lia|now apply H2].
      * destruct H3 as [->|(item & Hin & Hlen)]; [now left|].
        right. exists item. split; [now right|exact Hlen].
Qed.

(** X9.  [find_max_width] returns the greatest length among the items: no
    item is longer, some item has that length, and the result is 0 for no
    item. *)
Theorem find_max_width_is_greatest_length (items : list string) :
  (forall item, In item items -> (String.length item <= find_max_width items)%nat) /\
  (items <> [] ->
   exists item, In item items /\ String.length item = find_max_width items) /\
  find_max_width [] = 0%nat.
Proof.
  destruct (find_max_width_fold items 0) as (_ & H2 & H3).
  split; [exact H2|]. split; [|reflexivity].
  intros Hne. destruct H3 as [H0|H]; [|exact H].
  destruct items as [|x items]; [congruence|].
  exists x. split; [now left|].
  pose proof (H2 x (or_introl eq_refl)) as Hx.
  unfold find_max_width. rewrite H0 in *. lia.
Qed.

Lemma for_each_map {A B C : Type} (body : B -> run C) (f : A -> B) (g : A -> C)
    (l : list A) :
  (forall x, In x l -> body (f x) = Returned (g x)) ->
  for_each body (map f l) = Returned (map g l).
Proof.
  induction l as [|x l IH]; intros H; [reflexivity|].
  cbn [map for_each]. rewrite (H x (or_introl eq_refl)). cbn [run_bind].
  rewrite IH by (intros; apply H; now right). reflexivity.
Qed.

Lemma for_each_seq_nth {A B : Type} (l : list A) (body : nat -> run B)
    (g : A -> B) (off : nat) :
  (forall i x, nth_error l i = Some x -> body (off + i)%nat = Returned (g x)) ->
  for_each body (seq off (List.length l)) = Returned (map g l).
Proof.
  revert off. induction l as [|x l IH]; intros off H; [reflexivity|].
  cbn [List.length seq for_each map].
  rewrite <- (Nat.add_0_r off) at 1. rewrite (H 0%nat x eq_refl). cbn [run_bind].
  rewrite IH; [reflexivity|].
  intros i y Hi. rewrite <- (H (S i) y Hi). f_equal. lia.
Qed.

Lemma for_each_enumerate {A K B : Type} (l : list A) (f : A -> K)
    (body : nat * K -> run B) (g : A -> B) (off : nat) :
  (forall i x, nth_error l i = Some x -> body ((off + i)%nat, f x) = Returned (g x)) ->
  for_each body (combine (seq off (List.length l)) (map f l)) = Returned (map g l).
Proof.
  revert off. induction l as [|x l IH]; intros off H; [reflexivity|].
  cbn [List.length seq map combine for_each].
  rewrite <- (Nat.add_0_r off) at 1. rewrite (H 0%nat x eq_refl). cbn [run_bind].
  rewrite IH; [reflexivity|].
  intros i y Hi. rewrite <- (H (S i) y Hi). do 2 f_equal. lia.
Qed.

Lemma py_range_unit (fuel start stop : nat) :
  (stop - start <= fuel)%nat ->
  py_range fuel start stop 1 = seq start (stop - start).
Proof.
  revert start. induction fuel as [|fuel IH]; intros start H.
  - replace (stop - start)%nat with 0%nat by lia. reflexivity.
  - cbn [py_range]. destruct (Nat.ltb_spec start stop) as [Hlt|Hge].
    + rewrite IH by lia.
      replace (stop - start)%nat with (S (stop - (start + 1)))%nat by lia.
      cbn [seq]. f_equal. f_equal. lia.
    + replace (stop - start)%nat with 0%nat by lia. reflexivity.
Qed.

Lemma list_index_In (x : string) (l : list string) :
  In x l -> exists p, list_index x l = Returned p /\ nth_error l p = Some x.
Proof.
  induction l as [|y l IH]; intros Hin; [destruct Hin|].
  cbn [list_index]. destruct (String.eqb_spec y x) as [->|Hne].
  - exists 0%nat. split; reflexivity.
  - destruct Hin as [->|Hin]; [congruence|].
    destruct (IH Hin) as (p & -> & Hp). exists (S p). split; [reflexivity|exact Hp].
Qed.

Lemma dict_get_NoDup {V : Type} (d : dict V) (k : string) (v : V) :
  NoDup (keys d) -> In (k, v) d -> dict_get d k = Ok v.
Proof.
  induction d as [|[k' v'] d IH]; intros Hnd Hin; [destruct Hin|].
  cbn [keys map fst] in Hnd. inversion Hnd as [|? ? Hk Hd]; subst.
  cbn [dict_get]. destruct Hin as [Heq|Hin].
  - inversion Heq; subst. now rewrite String.eqb_refl.
  - destruct (String.eqb_spec k' k) as [->|Hne]; [|now apply IH].
    exfalso. apply Hk. change (In k (keys d)). unfold keys.
    apply in_map_iff. now exists (k, v).
Qed.

Lemma join_cons (s : string) (parts : list string) :
  join (s :: parts) = (s ++ join parts)%string.
Proof. reflexivity. Qed.

Section PresenterFacts.

Variable cell_text : string -> string -> float -> string.

(** One group of columns is printed as [group_lines] describes. *)
Lemma print_group_lines (stats_headers : list string)
    (stats_data : dict (list string)) (group : report) :
  (forall e, In e group ->
     dict_get stats_data (fst e)
     = Ok (column_texts cell_text stats_headers (fst e) (snd e))) ->
  print_group stats_headers stats_data (keys group)
  = Returned (group_lines cell_text stats_headers group).
Proof.
  intros Hdata. unfold print_group.
  (* the widths *)
  unfold keys at 1.
  rewrite (for_each_map _ fst (width_of cell_text stats_headers) group).
  2:{ intros e He. rewrite (Hdata e He). reflexivity. }
  cbn [run_bind].
  (* the header line *)
  cbn [List.length]. rewrite py_range_unit by lia.
  replace (S (List.length (keys group)) - 1)%nat with (List.length group)
    by (unfold keys; rewrite length_map; lia).
  rewrite (for_each_seq_nth group _
             (fun e => ljust (fst e) (width_of cell_text stats_headers e + 2))).
  2:{ intros i e Hi. cbn [Nat.add]. unfold at_index.
      cbn [nth_error]. unfold keys. rewrite (map_nth_error fst _ _ Hi).
      cbn [run_bind]. replace (S i - 1)%nat with i by lia.
      rewrite (map_nth_error (width_of cell_text stats_headers) _ _ Hi).
      reflexivity. }
  cbn [run_bind].
  (* the lines of the statistics *)
  rewrite <- (map_id stats_headers) at 1.
  rewrite (for_each_map _ (fun s => s) (stat_line cell_text stats_headers group)).
  2:{ intros stat Hstat. unfold enumerate, keys. rewrite length_map.
      rewrite (for_each_enumerate group fst _
                 (fun e => ljust (cell_of cell_text stat e)
                                 (width_of cell_text stats_headers e + 2))).
      - reflexivity.
      - intros i e Hi. cbn [Nat.add fst snd].
        rewrite (Hdata e (nth_error_In _ _ Hi)). cbn [lift run_bind].
        destruct (list_index_In stat stats_headers Hstat) as (p & -> & Hp).
        cbn [run_bind]. unfold at_index, column_texts.
        rewrite (map_nth_error _ _ _ Hp). cbn [run_bind].
        rewrite (map_nth_error (width_of cell_text stats_headers) _ _ Hi).
        reflexivity. }
  reflexivity.
Qed.

End PresenterFacts.

Lemma py_range_length3 (fuel start stop : nat) :
  (stop - start <= fuel)%nat ->
  List.length (py_range fuel start stop 3) = ((stop - start + 2) / 3)%nat.
Proof.
  revert start. induction fuel as [|fuel IH]; intros start H.
  - replace (stop - start)%nat with 0%nat by lia. reflexivity.
  - cbn [py_range]. destruct (Nat.ltb_spec start stop) as [Hlt|Hge].
    + cbn [List.length]. rewrite IH by lia.
      destruct (le_lt_dec 3 (stop - start)) as [H3|H3].
      * replace (stop - start + 2)%nat with (stop - (start + 3) + 2 + 1 * 3)%nat by lia.
        rewrite Nat.div_add by lia. lia.
      * replace (stop - (start + 3))%nat with 0%nat by lia.
        assert (Hd : (stop - start = 1 \/ stop - start = 2)%nat) by lia.
        destruct Hd as [-> | ->]; reflexivity.
    + replace (stop - start)%nat with 0%nat by lia. reflexivity.
Qed.

Lemma groups_cover {A : Type} (full : list A) (fuel off : nat) :
  (List.length full - off <= fuel)%nat ->
  List.concat (map (fun i => firstn 3 (skipn i full))
                   (py_range fuel off (List.length full) 3))
  = skipn off full.
Proof.
  revert off. induction fuel as [|fuel IH]; intros off H.
  - cbn [py_range map List.concat]. symmetry. apply skipn_all2. lia.
  - cbn [py_range]. destruct (Nat.ltb_spec off (List.length full)) as [Hlt|Hge].
    + cbn [map List.concat]. rewrite IH by lia.
      rewrite Nat.add_comm, <- skipn_skipn. apply firstn_skipn.
    + cbn [map List.concat]. symmetry. apply skipn_all2. lia.
Qed.

Lemma py_range_bound (fuel start stop step i : nat) :
  In i (py_range fuel start stop step) -> (start <= i < stop)%nat.
Proof.
  revert start. induction fuel as [|fuel IH]; intros start Hin; [destruct Hin|].
  cbn [py_range] in Hin.
  destruct (Nat.ltb_spec start stop) as [Hlt|Hge]; [|destruct Hin].
  destruct Hin as [<-|Hin]; [lia|]. apply IH in Hin. lia.
Qed.

Lemma In_slice {A : Type} (x : A) (l : list A) (i n : nat) :
  In x (firstn n (skipn i l)) -> In x l.
Proof.
  intros H. rewrite <- (firstn_skipn i l). apply in_or_app. right.
  rewrite <- (firstn_skipn n (skipn i l)). apply in_or_app. now left.
Qed.

Section PrintStatsFacts.

Variable cell_text : string -> string -> float -> string.

(** A report that is not empty is printed group by group, without any
    exception. *)
Lemma print_stats_lines (stats : report) :
  stats <> [] -> NoDup (keys stats) ->
  let stats_headers := keys (snd (hd (EmptyString, []) stats)) in
  print_stats cell_text stats
  = Returned (List.concat (map (group_lines cell_text stats_headers)
                               (groups_of 3 stats))).
Proof.
  intros Hne Hnd. destruct stats as [|[c0 r0] rest]; [congruence|].
  cbn [hd snd]. unfold print_stats.
  assert (Hfirst : dict_get ((c0, r0) :: rest) c0 = Ok r0).
  { cbn [dict_get]. now rewrite String.eqb_refl. }
  rewrite Hfirst. cbn [lift run_bind].
  set (stats := (c0, r0) :: rest) in *.
  set (stats_data := map (fun e => (fst e, column_texts cell_text (keys r0) (fst e) (snd e)))
                         stats).
  assert (Hkeys : keys stats_data = keys stats).
  { unfold stats_data, keys. rewrite map_map. reflexivity. }
  assert (Hdata : forall e, In e stats ->
            dict_get stats_data (fst e)
            = Ok (column_texts cell_text (keys r0) (fst e) (snd e))).
  { intros e He. apply dict_get_NoDup; [now rewrite Hkeys|].
    unfold stats_data. apply in_map_iff. now exists e. }
  unfold groups_of. rewrite map_map.
  replace (List.length (keys stats)) with (List.length stats)
    by (unfold keys; now rewrite length_map).
  rewrite <- (map_id (py_range _ 0 _ 3)) at 1.
  rewrite (for_each_map _ (fun i => i)
             (fun i => group_lines cell_text (keys r0) (firstn 3 (skipn i stats)))).
  - reflexivity.
  - intros i _.
    replace (firstn 3 (skipn i (keys stats)))
      with (keys (firstn 3 (skipn i stats)))
      by (unfold keys; now rewrite skipn_map, firstn_map).
    apply print_group_lines. intros e He. apply Hdata.
    now apply In_slice in He.
Qed.

Lemma length_append (s t : string) :
  String.length (s ++ t) = (String.length s + String.length t)%nat.
Proof. induction s; simpl; [reflexivity|now rewrite IHs]. Qed.

Lemma length_spaces (n : nat) : String.length (spaces n) = n.
Proof. induction n; simpl; [reflexivity|now rewrite IHn]. Qed.

Lemma length_ljust (s : string) (w : nat) :
  String.length (ljust s w) = Nat.max (String.length s) w.
Proof.
  unfold ljust. rewrite length_append, length_spaces.
  destruct (Nat.max_spec (String.length s) w) as [[? ->]|[? ->]]; lia.
Qed.

Lemma length_join_fields {A : Type} (text : A -> string) (width : A -> nat)
    (l : list A) :
  (forall x, In x l -> (String.length (text x) <= width x)%nat) ->
  String.length (join (map (fun x => ljust (text x) (width x + 2)) l))
  = list_sum (map (fun x => width x + 2)%nat l).
Proof.
  induction l as [|x l IH]; intros H; [reflexivity|].
  cbn [map]. rewrite join_cons, length_append, length_ljust.
  rewrite IH by (intros; apply H; now right).
  pose proof (H x (or_introl eq_refl)).
  rewrite Nat.max_r by lia. reflexivity.
Qed.

Lemma width_of_covers (stats_headers : list string) (e : string * col_stats) :
  (String.length (fst e) <= width_of cell_text stats_headers e)%nat /\
  forall stat, In stat stats_headers ->
    (String.length (cell_of cell_text stat e) <= width_of cell_text stats_headers e)%nat.
Proof.
  unfold width_of.
  destruct (find_max_width_fold
              (fst e :: column_texts cell_text stats_headers (fst e) (snd e)) 0)
    as (_ & H & _).
  split.
  - apply H. now left.
  - intros stat Hstat. apply H. right. unfold column_texts.
    apply in_map_iff. exists stat. split; [reflexivity|exact Hstat].
Qed.

(** In a group, the header line and the line of every statistic fill the
    width of the table exactly. *)
Lemma group_lines_aligned (stats_headers : list string) (group : report) :
  (forall stat, In stat stats_headers -> (String.length stat <= 15)%nat) ->
  String.length (header_line cell_text stats_headers group)
  = table_width cell_text stats_headers group /\
  forall stat, In stat stats_headers ->
    String.length (stat_line cell_text stats_headers group stat)
    = table_width cell_text stats_headers group.
Proof.
  intros Hshort. unfold header_line, stat_line, table_width. split.
  - rewrite length_append, length_spaces. f_equal.
    apply (length_join_fields fst (width_of cell_text stats_headers)).
    intros e _. apply width_of_covers.
  - intros stat Hstat.
    rewrite length_append, length_ljust. specialize (Hshort stat Hstat).
    rewrite (length_join_fields (cell_of cell_text stat)
               (width_of cell_text stats_headers)).
    + lia.
    + intros e _. now apply width_of_covers.
Qed.

End PrintStatsFacts.

Lemma length_concat_const {A : Type} (ls : list (list A)) (k : nat) :
  (forall l, In l ls -> List.length l = k) ->
  List.length (List.concat ls) = (k * List.length ls)%nat.
Proof.
  induction ls as [|l ls IH]; intros H; cbn [List.concat List.length]; [lia|].
  rewrite length_app.
  rewrite IH by (intros l' Hl'; apply H; now right).
  rewrite (H l) by now left.
  lia.
Qed.

Lemma length_group_lines cell_text stats_headers group :
  List.length (group_lines cell_text stats_headers group)
  = (List.length stats_headers + 2)%nat.
Proof.
  unfold group_lines. cbn [List.length]. rewrite length_app, length_map.
  cbn [List.length]. lia.
Qed.

Lemma groups_of_spec (stats : report) :
  List.concat (groups_of 3 stats) = stats /\
  List.length (groups_of 3 stats) = ((List.length stats + 2) / 3)%nat /\
  forall g, In g (groups_of 3 stats) -> (1 <= List.length g <= 3)%nat.
Proof.
  unfold groups_of. split; [|split].
  - rewrite groups_cover by lia. apply skipn_0.
  - rewrite length_map, py_range_length3 by lia. f_equal. lia.
  - intros g Hg. apply in_map_iff in Hg as (i & <- & Hi).
    apply py_range_bound in Hi. rewrite length_firstn, length_skipn. lia.
Qed.

(** X10.  On a report that is not empty (its keys are distinct, as those of
    a dictionary are), [print_stats] raises nothing and prints the columns
    in groups of three at most, each column once and in the order of the
    report; a group takes one header line, one line per key of the first
    record and one line of 60 dashes. *)
Theorem print_stats_groups_of_three
    (cell_text : string -> string -> float -> string) (stats : report) :
  stats <> [] ->
  NoDup (keys stats) ->
  let stats_headers := keys (snd (hd (EmptyString, []) stats)) in
  let groups := groups_of 3 stats in
  print_stats cell_text stats
  = Returned (List.concat (map (group_lines cell_text stats_headers) groups)) /\
  List.concat groups = stats /\
  (forall g, In g groups -> (1 <= List.length g <= 3)%nat) /\
  List.length (List.concat (map (group_lines cell_text stats_headers) groups))
  = ((List.length stats_headers + 2) * ((List.length stats + 2) / 3))%nat.
Proof.
  intros Hne Hnd stats_headers groups.
  destruct (groups_of_spec stats) as (Hcover & Hlen & Hsize).
  split; [now apply print_stats_lines|]. split; [exact Hcover|].
  split; [exact Hsize|].
  rewrite (length_concat_const _ (List.length stats_headers + 2)).
  - rewrite length_map. fold groups in Hlen. now rewrite Hlen.
  - intros l Hl. apply in_map_iff in Hl as (g & <- & _).
    apply length_group_lines.
Qed.

Lemma print_stats_groups_of_three_witness :
  let stats := [("A"%string, [("count"%string, of_int 1)]);
                ("B"%string, [("count"%string, of_int 2)]);
                ("C"%string, []); ("D"%string, [])] in
  stats <> [] /\ NoDup (keys stats) /\
  exists lines, print_stats text_stub stats = Returned lines /\
                List.length lines = 6%nat.
Proof.
  intros stats.
  assert (H1 : stats <> []) by discriminate.
  assert (H2 : NoDup (keys stats)).
  { repeat constructor; simpl; intros H;
      repeat (destruct H as [H|H]; [discriminate|]); exact H. }
  split; [exact H1|]. split; [exact H2|].
  destruct (print_stats_groups_of_three text_stub stats H1 H2) as (Hp & _ & _ & Hl).
  eexists. split; [exact Hp|]. rewrite Hl. reflexivity.
Defined.

(** X11.  When no key of the first record is longer than 15 characters,
    the table of every group is aligned: its header line and the line of
    every statistic have the same length, 15 plus, for each column of the
    group, the greatest length among the column name and its texts plus
    2. *)
Theorem print_stats_is_aligned
    (cell_text : string -> string -> float -> string) (stats : report) :
  stats <> [] ->
  NoDup (keys stats) ->
  let stats_headers := keys (snd (hd (EmptyString, []) stats)) in
  (forall stat, In stat stats_headers -> (String.length stat <= 15)%nat) ->
  print_stats cell_text stats
  = Returned (List.concat (map (group_lines cell_text stats_headers)
                               (groups_of 3 stats))) /\
  forall g line,
    In g (groups_of 3 stats) ->
    In line (group_lines cell_text stats_headers g) ->
    line = dashes 60 \/
    String.length line = table_width cell_text stats_headers g.
Proof.
  intros Hne Hnd stats_headers Hshort.
  split; [now apply print_stats_lines|].
  intros g line _ Hline.
  destruct (group_lines_aligned cell_text stats_headers g Hshort) as [Hh Hs].
  unfold group_lines in Hline. destruct Hline as [<-|Hline]; [now right|].
  apply in_app_or in Hline as [Hline|[<-|[]]]; [|now left].
  apply in_map_iff in Hline as (stat & <- & Hstat). right. now apply Hs.
Qed.

Lemma print_stats_is_aligned_witness :
  let stats := [("A"%string, [("count"%string, of_int 1)]);
                ("Arithmancy"%string, [("count"%string, of_int 2)])] in
  stats <> [] /\ NoDup (keys stats) /\
  print_stats text_stub stats
  = Returned ["               A      Arithmancy  ";
              "count          count  count       ";
              dashes 60]%string /\
  String.length "count          count  count       "
  = table_width text_stub ["count"%string] stats.
Proof.
  intros stats.
  assert (H1 : stats <> []) by discriminate.
  assert (H2 : NoDup (keys stats)).
  { repeat constructor; simpl; intros H;
      repeat (destruct H as [H|H]; [discriminate|]); exact H. }
  assert (H3 : forall stat, In stat (keys (snd (hd (EmptyString, []) stats))) ->
                 (String.length stat <= 15)%nat).
  { intros stat [<-|[]]. simpl. lia. }
  split; [exact H1|]. split; [exact H2|].
  destruct (print_stats_is_aligned text_stub stats H1 H2 H3) as [Hp Ha].
  split; [exact Hp|].
  destruct (Ha stats "count          count  count       "%string) as [E|E].
  - now left.
  - right. now left.
  - discriminate E.
  - exact E.
Defined.

Lemma NoDup_qualifying (data : DataFrame) :
  NoDup (keys data) -> NoDup (qualifying data).
Proof.
  intros Hnd. unfold qualifying. apply NoDup_filter.
  now apply NoDup_keys_filter.
Qed.

Lemma keys_init_stats (data : DataFrame) :
  NoDup (keys data) -> keys (init_stats data) = qualifying data.
Proof.
  intros Hnd. rewrite init_stats_entries by assumption.
  unfold keys. rewrite map_map. simpl. apply map_id.
Qed.

Lemma Describe_no_column (data : DataFrame) :
  NoDup (keys data) -> qualifying data = [] -> Describe data = Ok [].
Proof.
  intros Hnd Hq. unfold Describe.
  rewrite init_stats_entries, Hq by assumption. reflexivity.
Qed.


Lemma NoDup_keys_t12345 : NoDup (keys t12345).
Proof.
  repeat constructor; simpl; intros H;
    repeat (destruct H as [H|H]; [discriminate|]); exact H.
Qed.


(** ** The mode *)

Lemma occurrences_app (x : float) (l1 l2 : list float) :
  occurrences x (l1 ++ l2) = (occurrences x l1 + occurrences x l2)%nat.
Proof. unfold occurrences. now rewrite filter_app, length_app. Qed.

Lemma occurrences_perm (x : float) (l1 l2 : list float) :
  Permutation l1 l2 -> occurrences x l1 = occurrences x l2.
Proof.
  unfold occurrences. induction 1 as [|y l l' _ IH|y z l|l l' l'' _ IH1 _ IH2];
    simpl; [reflexivity| | |congruence].
  - destruct (feq x y); simpl; congruence.
  - destruct (feq x y), (feq x z); reflexivity.
Qed.

Lemma feq_self (x y : float) : feq x y = true -> feq x x = true.
Proof.
  destruct x as [a| | |], y as [b| | |]; simpl; try congruence.
  intros _. apply Qeq_bool_iff. reflexivity.
Qed.

Lemma occurrences_self (x : float) : isnan x = false -> occurrences x [x] = 1%nat.
Proof.
  destruct x as [a| | |]; unfold occurrences; simpl; try congruence; intros _.
  replace (Qeq_bool a a) with true; [reflexivity|].
  symmetry. apply Qeq_bool_iff. reflexivity.
Qed.

Lemma flt_irrefl (x : float) : flt x x = false.
Proof.
  destruct x as [a| | |]; simpl; try reflexivity.
  now rewrite (proj1 (Qeq_alt a a) (Qeq_refl a)).
Qed.

Lemma not_above_trans (x y z : float) :
  isnan y = false -> not_above x y -> not_above y z -> not_above x z.
Proof.
  unfold not_above.
  destruct x as [a| | |], y as [b| | |], z as [c| | |]; simpl;
    try congruence; intros _.
  destruct (b ?= a) eqn:E1; try discriminate;
    destruct (c ?= b) eqn:E2; try discriminate;
    destruct (c ?= a) eqn:E3; try reflexivity; intros _ _;
    compare_to_order E1; compare_to_order E2; compare_to_order E3; lra.
Qed.

Lemma sorted_head_smallest (l : list float) (a : float) :
  Forall (fun x => isnan x = false) l ->
  Sorted not_above (a :: l) ->
  Forall (not_above a) l.
Proof.
  revert a. induction l as [|b l IH]; intros a Hnan Hs; [constructor|].
  inversion Hnan as [|? ? Hb Hl]; subst.
  inversion Hs as [|? ? Hs' Hhd]; subst.
  inversion Hhd as [|? ? Hab]; subst.
  constructor; [exact Hab|].
  specialize (IH b Hl Hs'). rewrite Forall_forall in IH |- *.
  intros y Hy. apply (not_above_trans a b y Hb Hab). now apply IH.
Qed.

(** The value the loop of [get_mode] ends with is the starting value, or
    one of the values it went through. *)
Lemma mode_loop_In (rest : list float) (prev mode : float) (count max_count : Z) :
  In (mode_loop prev rest mode count max_count) (mode :: prev :: rest).
Proof.
  revert prev mode count max_count.
  induction rest as [|x rest IH]; intros prev mode count max_count;
    cbn [mode_loop]; [now left|].
  destruct (feq x prev).
  - destruct (IH x mode (count + 1)%Z max_count) as [H|H]; simpl in *; tauto.
  - destruct (count >? max_count)%Z.
    + destruct (IH x prev 0%Z count) as [H|H]; simpl in *; tauto.
    + destruct (IH x mode 0%Z max_count) as [H|H]; simpl in *; tauto.
Qed.

(** The loop of [get_mode] replaces the starting value only by a value met
    at least twice: [pre] is the part of the column before [prev]. *)
Lemma mode_loop_repeated (m0 : float) (rest pre : list float)
    (prev mode : float) (count max_count : Z) :
  (0 <= max_count)%Z ->
  ((0 < count)%Z -> (2 <= occurrences prev (pre ++ [prev]))%nat) ->
  (mode = m0 \/ (2 <= occurrences mode (pre ++ [prev]))%nat) ->
  mode_loop prev rest mode count max_count = m0 \/
  (2 <= occurrences (mode_loop prev rest mode count max_count)
                    (pre ++ prev :: rest))%nat.
Proof.
  revert pre prev mode count max_count.
  induction rest as [|x rest IH]; intros pre prev mode count max_count Hmax Hc Hm;
    cbn [mode_loop]; [exact Hm|].
  replace (pre ++ prev :: x :: rest) with ((pre ++ [prev]) ++ x :: rest)
    by (now rewrite <- app_assoc).
  destruct (feq x prev) eqn:Ex; [|destruct (count >? max_count)%Z eqn:Ec].
  - apply IH; [exact Hmax| |].
    + intros _. rewrite occurrences_app.
      assert (1 <= occurrences x (pre ++ [prev]))%nat.
      { rewrite occurrences_app. unfold occurrences at 2. simpl. rewrite Ex.
        simpl. lia. }
      rewrite (occurrences_self x); [lia|].
      destruct x; simpl in *; congruence.
    + destruct Hm as [Hm|Hm]; [now left|right].
      rewrite occurrences_app. lia.
  - apply IH; [lia|lia|]. right.
    rewrite occurrences_app. apply Z.gtb_lt in Ec.
    assert (2 <= occurrences prev (pre ++ [prev]))%nat by (apply Hc; lia). lia.
  - apply IH; [exact Hmax|lia|].
    destruct Hm as [Hm|Hm]; [now left|right].
    rewrite occurrences_app. lia.
Qed.

(** X13.  On a column with a present value [get_mode] stores one of the
    present values: the smallest of them, or else a value that is present
    at least twice.  In a column whose present values are all different
    the stored mode is therefore the smallest value. *)
Theorem mode_is_smallest_or_repeated (vs : list float) (rec : col_stats) :
  dropna vs <> [] ->
  exists m,
    get_mode_col vs rec = Ok (dict_set rec "mode" m) /\
    In m (dropna vs) /\
    ((forall y, In y (dropna vs) -> not_above m y) \/
     (2 <= occurrences m (dropna vs))%nat).
Proof.
  intros Hne. unfold get_mode_col, mode_of.
  pose proof (sort_values_perm (dropna vs)) as Hperm.
  pose proof (sort_values_Sorted (dropna vs)) as Hsorted.
  destruct (sort_values (dropna vs)) as [|m0 rest] eqn:Es.
  { apply Permutation_nil in Hperm. contradiction. }
  cbn [at_label Z.ltb Z.compare Z.to_nat nth_error of_option bind tl].
  exists (mode_loop m0 rest m0 0%Z 0%Z). split; [reflexivity|].
  assert (Hnan : Forall (fun x => isnan x = false) (m0 :: rest)).
  { apply Forall_forall. intros x Hx.
    apply (Permutation_in _ Hperm) in Hx. apply filter_In in Hx as [_ Hx].
    now destruct (isnan x). }
  split.
  - apply (Permutation_in _ Hperm).
    destruct (mode_loop_In rest m0 m0 0%Z 0%Z) as [<-|H]; [now left|exact H].
  - destruct (mode_loop_repeated m0 rest [] m0 m0 0%Z 0%Z) as [->|H].
    + lia.
    + lia.
    + now left.
    + left. intros y Hy.
      apply (Permutation_in _ (Permutation_sym Hperm)) in Hy as [<-|Hy].
      * apply flt_irrefl.
      * inversion Hnan; subst.
        pose proof (sorted_head_smallest rest m0 ltac:(assumption) Hsorted) as Hall.
        rewrite Forall_forall in Hall. now apply Hall.
    + right. rewrite <- (occurrences_perm _ _ _ Hperm). exact H.
Qed.

Lemma mode_is_smallest_or_repeated_witness :
  let vs := [of_int 3; NaN; of_int 1; of_int 2] in
  dropna vs <> [] /\
  get_mode_col vs [] = Ok [("mode"%string, of_int 1)] /\
  exists m,
    get_mode_col vs [] = Ok (dict_set [] "mode" m) /\
    In m (dropna vs) /\
    ((forall y, In y (dropna vs) -> not_above m y) \/
     (2 <= occurrences m (dropna vs))%nat).
Proof.
  intros vs.
  assert (H : dropna vs <> []) by discriminate.
  split; [exact H|]. split; [reflexivity|].
  exact (mode_is_smallest_or_repeated vs [] H).
Defined.

(** ** The histograms of all features *)

Lemma plot_for_calls {A : Type} (body : A -> plot unit) (f : A -> list plot_call)
    (l : list A) :
  (forall x, In x l -> forall calls, body x calls = (calls ++ f x, Returned tt)) ->
  forall calls,
    plot_for body l calls = (calls ++ List.concat (map f l), Returned tt).
Proof.
  induction l as [|x l IH]; intros H calls; cbn [plot_for map List.concat].
  - unfold plot_ret. now rewrite app_nil_r.
  - unfold plot_bind. rewrite (H x (or_introl eq_refl)).
    rewrite IH by (intros y Hy; apply H; now right).
    now rewrite <- app_assoc.
Qed.

Lemma concat_map_singleton {A B : Type} (f : A -> B) (l : list A) :
  List.concat (map (fun x => [f x]) l) = map f l.
Proof. induction l as [|x l IH]; simpl; congruence. Qed.

Lemma at_index_nth {A : Type} (l : list A) (i : nat) (d : A) :
  (i < List.length l)%nat -> at_index l i = Returned (nth i l d).
Proof.
  intros H. unfold at_index.
  destruct (nth_error l i) as [x|] eqn:E.
  - now rewrite (nth_error_nth _ _ d E).
  - apply nth_error_None in E. lia.
Qed.

Lemma dict_get_notin {V : Type} (d : dict V) (k : string) :
  ~ In k (keys d) -> dict_get d k = Raise KeyError.
Proof.
  induction d as [|[k' v] d IH]; intros H; [reflexivity|].
  cbn [dict_get]. destruct (String.eqb_spec k' k) as [->|Hne].
  - exfalso. apply H. now left.
  - apply IH. intros Hin. apply H. now right.
Qed.

Lemma skipn_nth_cons {A : Type} (l : list A) (i : nat) (d : A) :
  (i < List.length l)%nat -> skipn i l = nth i l d :: skipn (S i) l.
Proof.
  revert i. induction l as [|x l IH]; intros i H; [simpl in H; lia|].
  destruct i as [|i]; [reflexivity|].
  cbn [skipn nth]. cbn [List.length] in H. rewrite IH by lia. reflexivity.
Qed.

(** the window of [k] places from [i] on: the places beyond the end are
    skipped *)
Lemma window_slice {A B : Type} (G : A -> list B) (l : list A) (d : A)
    (k i : nat) :
  List.concat
    (map (fun p => if (p <? List.length l)%nat then G (nth p l d) else [])
         (seq i k))
  = flat_map G (firstn k (skipn i l)).
Proof.
  revert i. induction k as [|k IH]; intros i; [reflexivity|].
  cbn [seq map List.concat]. rewrite IH.
  destruct (Nat.ltb_spec i (List.length l)) as [Hlt|Hge].
  - rewrite (skipn_nth_cons l i d Hlt). reflexivity.
  - rewrite (skipn_all2 l) by lia. rewrite (skipn_all2 l) by lia.
    now rewrite firstn_nil.
Qed.

Lemma flat_map_concat_pages {A B C : Type} (p : B -> list C) (f : A -> list B)
    (l : list A) :
  flat_map p (List.concat (map f l)) = flat_map (fun x => flat_map p (f x)) l.
Proof.
  induction l as [|x l IH]; [reflexivity|].
  cbn [map List.concat flat_map]. now rewrite flat_map_app, IH.
Qed.

Lemma slices_cover {A : Type} (k : nat) (full : list A) (fuel off : nat) :
  (0 < k)%nat ->
  (List.length full - off <= fuel)%nat ->
  List.concat (map (fun i => firstn k (skipn i full))
                   (py_range fuel off (List.length full) k))
  = skipn off full.
Proof.
  intros Hk. revert off. induction fuel as [|fuel IH]; intros off H.
  - cbn [py_range map List.concat]. symmetry. apply skipn_all2. lia.
  - cbn [py_range]. destruct (Nat.ltb_spec off (List.length full)) as [Hlt|Hge].
    + cbn [map List.concat]. rewrite IH by lia.
      rewrite Nat.add_comm, <- skipn_skipn. apply firstn_skipn.
    + cbn [map List.concat]. symmetry. apply skipn_all2. lia.
Qed.

(** only the last figure is shown with [block=True] *)
Lemma last_page_blocks (n fuel start : nat) :
  (n - start <= fuel)%nat -> (start < n)%nat ->
  map (fun i => negb (i + 4 <? n)%nat) (py_range fuel start n 4)
  = repeat false (List.length (py_range fuel start n 4) - 1) ++ [true].
Proof.
  revert start. induction fuel as [|fuel IH]; intros start H Hlt; [lia|].
  cbn [py_range]. destruct (Nat.ltb_spec start n) as [_|Hge]; [|lia].
  cbn [map List.length]. rewrite Nat.sub_succ, Nat.sub_0_r.
  destruct (Nat.ltb_spec (start + 4) n) as [Hmore|Hlast].
  - rewrite IH by lia. cbn [negb].
    destruct fuel as [|fuel']; [lia|]. cbn [py_range].
    destruct (Nat.ltb_spec (start + 4) n) as [_|Hge]; [|lia].
    cbn [List.length]. rewrite Nat.sub_succ, Nat.sub_0_r. reflexivity.
  - destruct fuel as [|fuel']; [reflexivity|]. cbn [py_range].
    destruct (Nat.ltb_spec (start + 4) n) as [Hlt'|_]; [lia|]. reflexivity.
Qed.

Section HistogramFacts.

Variable data : DataFrame.
Variable house_data : dict DataFrame.

Let columns := features_of data.

Lemma flat_map_feature_calls {B : Type} (p : plot_call -> list B) (j : nat)
    (feature : string) :
  flat_map p (feature_calls house_data j feature)
  = p (subplot 2 2 (j + 1))
    ++ flat_map (fun item => p (hist_of feature item)) house_data
    ++ p (set_title (feature ++ " Distribution"))
    ++ p (set_xlabel "Marks") ++ p (set_ylabel "Frequency") ++ p legend.
Proof.
  unfold feature_calls. cbn [flat_map]. rewrite flat_map_app. cbn [flat_map].
  rewrite app_nil_r. f_equal. f_equal.
  induction house_data as [|item l IH]; [reflexivity|].
  cbn [map flat_map]. now rewrite IH.
Qed.

Lemma flat_map_page_calls {B : Type} (p : plot_call -> list B)
    (G : string -> list B) (i : nat) :
  (forall j feature, flat_map p (feature_calls house_data j feature) = G feature) ->
  flat_map p (page_calls house_data columns i)
  = p (figure 12 10) ++ flat_map G (firstn 4 (skipn i columns))
    ++ p tight_layout ++ p (show (negb (i + 4 <? List.length columns)%nat)).
Proof.
  intros HG. unfold page_calls. cbn [flat_map]. rewrite flat_map_app.
  cbn [flat_map]. rewrite app_nil_r. f_equal. f_equal.
  rewrite flat_map_concat_pages.
  rewrite <- (window_slice G columns EmptyString 4 i).
  cbn [seq map flat_map List.concat]. rewrite !app_nil_r.
  replace (i + 0)%nat with i by lia.
  replace (i + 1)%nat with (S i) by lia.
  replace (i + 2)%nat with (S (S i)) by lia.
  replace (i + 3)%nat with (S (S (S i))) by lia.
  repeat match goal with
         | |- context [if ?b then _ else _] => destruct b
         end;
    cbn [flat_map]; rewrite ?HG; reflexivity.
Qed.

Hypothesis groups_have_columns :
  forall item feature, In item house_data -> In feature columns ->
    exists vs, column (snd item) feature = Ok vs.

Lemma house_loop_known (feature : string) (p : nat) :
  (p < List.length columns)%nat ->
  nth p columns EmptyString = feature ->
  (forall item, In item house_data -> In (fst item) (keys colors)) ->
  forall calls,
    plot_for
      (fun item =>
         feature <~~ plot_lift (at_index columns p) ;;
         values <~~ plot_lift (lift (column (snd item) feature)) ;;
         color <~~ plot_lift (lift (dict_get colors (fst item))) ;;
         call (hist (dropna values) 20 color (fst item)))
      house_data calls
    = (calls ++ map (hist_of feature) house_data, Returned tt).
Proof.
  intros Hp Hf Hknown calls.
  rewrite <- concat_map_singleton. apply plot_for_calls.
  intros item Hitem calls'. unfold plot_bind, plot_lift, call.
  rewrite (at_index_nth columns p EmptyString Hp), Hf.
  destruct (groups_have_columns item feature Hitem) as [vs Hvs].
  { rewrite <- Hf. now apply nth_In. }
  assert (Hc : exists c, dict_get colors (fst item) = Ok c).
  { specialize (Hknown item Hitem). cbn in Hknown.
    destruct Hknown as [<-|[<-|[<-|[<-|[]]]]]; eexists; reflexivity. }
  destruct Hc as [c Hc]. unfold hist_of. rewrite Hvs, Hc. reflexivity.
Qed.

Lemma page_known (i : nat) :
  (forall item, In item house_data -> In (fst item) (keys colors)) ->
  forall calls,
    (_ <~~ call (figure 12 10) ;;
     _ <~~ plot_for
       (fun j =>
          if (i + j <? List.length columns)%nat then
            _ <~~ call (subplot 2 2 (j + 1)) ;;
            _ <~~ plot_for
              (fun item =>
                 feature <~~ plot_lift (at_index columns (i + j)) ;;
                 values <~~ plot_lift (lift (column (snd item) feature)) ;;
                 color <~~ plot_lift (lift (dict_get colors (fst item))) ;;
                 call (hist (dropna values) 20 color (fst item)))
              house_data ;;
            feature <~~ plot_lift (at_index columns (i + j)) ;;
            _ <~~ call (set_title (feature ++ " Distribution")) ;;
            _ <~~ call (set_xlabel "Marks") ;;
            _ <~~ call (set_ylabel "Frequency") ;;
            call legend
          else plot_ret tt)
       (py_range 4 0 4 1) ;;
     _ <~~ call tight_layout ;;
     if (Z.of_nat i <? Z.of_nat (List.length columns) - 4)%Z then call (show false)
     else call (show true)) calls
    = (calls ++ page_calls house_data columns i, Returned tt).
Proof.
  intros Hknown calls. unfold plot_bind at 1. unfold call at 1.
  unfold plot_bind at 1.
  rewrite (plot_for_calls _
             (fun j => if (i + j <? List.length columns)%nat
                       then feature_calls house_data j (nth (i + j) columns EmptyString)
                       else [])).
  - unfold plot_bind, call.
    assert (Hshow : forall t,
              (if (Z.of_nat i <? Z.of_nat (List.length columns) - 4)%Z
               then (fun calls0 => (calls0 ++ [show false], Returned tt))
               else (fun calls0 => (calls0 ++ [show true], Returned tt))) t
              = (t ++ [show (negb (i + 4 <? List.length columns)%nat)],
                 Returned tt : run unit)).
    { intros t. destruct (Z.ltb_spec (Z.of_nat i) (Z.of_nat (List.length columns) - 4)),
        (Nat.ltb_spec (i + 4) (List.length columns)); try lia; reflexivity. }
    rewrite Hshow. unfold page_calls. f_equal.
    cbn [py_range Nat.ltb Nat.leb Nat.add]. rewrite <- !app_assoc. reflexivity.
  - intros j _ calls'.
    destruct (Nat.ltb_spec (i + j) (List.length columns)) as [Hlt|Hge];
      [|unfold plot_ret; now rewrite app_nil_r].
    unfold plot_bind at 1. unfold call at 1. unfold plot_bind at 1.
    rewrite (house_loop_known (nth (i + j) columns EmptyString) (i + j) Hlt
               eq_refl Hknown).
    unfold plot_bind, plot_lift, call.
    rewrite (at_index_nth columns (i + j) EmptyString Hlt).
    unfold feature_calls. rewrite <- !app_assoc. reflexivity.
Qed.

Lemma histogram_all_features_calls :
  (forall item, In item house_data -> In (fst item) (keys colors)) ->
  histogram_all_features data house_data []
  = (List.concat (map (page_calls house_data columns)
                      (py_range (List.length columns) 0 (List.length columns) 4)),
     Returned tt).
Proof.
  intros Hknown. unfold histogram_all_features. fold (features_of data).
  fold columns.
  rewrite (plot_for_calls _ (page_calls house_data columns)); [reflexivity|].
  intros i _ calls. now apply page_known.
Qed.

End HistogramFacts.

Lemma flat_map_none {A B : Type} (f : A -> list B) (l : list A) :
  (forall x, f x = []) -> flat_map f l = [].
Proof.
  intros H. induction l as [|x l IH]; [reflexivity|].
  cbn [flat_map]. now rewrite H, IH.
Qed.

Lemma flat_map_one {A B : Type} (f : A -> list B) (g : A -> B) (l : list A) :
  (forall x, f x = [g x]) -> flat_map f l = map g l.
Proof.
  intros H. induction l as [|x l IH]; [reflexivity|].
  cbn [flat_map map]. now rewrite H, IH.
Qed.

Lemma slices_spec {A : Type} (l : list A) :
  List.concat (slices 4 l) = l /\
  forall page, In page (slices 4 l) -> (1 <= List.length page <= 4)%nat.
Proof.
  unfold slices. split.
  - rewrite slices_cover by lia. apply skipn_0.
  - intros page Hp. apply in_map_iff in Hp as (i & <- & Hi).
    apply py_range_bound in Hi. rewrite length_firstn, length_skipn. lia.
Qed.


Lemma t_five_groups_columns (groups : dict DataFrame) :
  map snd groups = map snd t_five_groups ->
  forall item feature,
    In item groups -> In feature (features_of t_five) ->
    exists vs, column (snd item) feature = Ok vs.
Proof.
  intros Hg item feature Hitem Hf.
  apply (in_map snd) in Hitem. rewrite Hg in Hitem.
  destruct Hitem as [<-|[<-|[]]];
    vm_compute in Hf;
    repeat (destruct Hf as [<-|Hf]; [eexists; reflexivity|]);
    destruct Hf.
Qed.


Lemma house_body_step (columns : list string) (feature : string) (p : nat)
    (item : string * DataFrame) (vs : list float) (calls : list plot_call) :
  (p < List.length columns)%nat ->
  nth p columns EmptyString = feature ->
  column (snd item) feature = Ok vs ->
  (feature <~~ plot_lift (at_index columns p) ;;
   values <~~ plot_lift (lift (column (snd item) feature)) ;;
   color <~~ plot_lift (lift (dict_get colors (fst item))) ;;
   call (hist (dropna values) 20 color (fst item))) calls
  = match dict_get colors (fst item) with
    | Ok color => (calls ++ [hist (dropna vs) 20 color (fst item)], Returned tt)
    | Raise e => (calls, Aborted (Builtin e))
    end.
Proof.
  intros Hp Hf Hvs. unfold plot_bind, plot_lift, call.
  rewrite (at_index_nth columns p EmptyString Hp), Hf, Hvs. cbn [lift].
  destruct (dict_get colors (fst item)); reflexivity.
Qed.

Lemma house_loop_unknown (columns : list string) (house_data : dict DataFrame)
    (feature : string) (p : nat) :
  (p < List.length columns)%nat ->
  nth p columns EmptyString = feature ->
  (forall item, In item house_data ->
     exists vs, column (snd item) feature = Ok vs) ->
  (exists item, In item house_data /\ ~ In (fst item) (keys colors)) ->
  forall calls,
    exists k,
      (k < List.length house_data)%nat /\
      plot_for
        (fun item =>
           feature <~~ plot_lift (at_index columns p) ;;
           values <~~ plot_lift (lift (column (snd item) feature)) ;;
           color <~~ plot_lift (lift (dict_get colors (fst item))) ;;
           call (hist (dropna values) 20 color (fst item)))
        house_data calls
      = (calls ++ map (hist_of feature) (firstn k house_data),
         Aborted (Builtin KeyError)).
Proof.
  intros Hp Hf. induction house_data as [|item rest IH]; intros Hcols Hbad calls.
  { destruct Hbad as (? & [] & _). }
  cbn [plot_for]. unfold plot_bind at 1.
  destruct (Hcols item (or_introl eq_refl)) as [vs Hvs].
  rewrite (house_body_step columns feature p item vs calls Hp Hf Hvs).
  destruct (in_dec string_dec (fst item) (keys colors)) as [Hin|Hout].
  - assert (Hc : exists c, dict_get colors (fst item) = Ok c).
    { cbn in Hin. destruct Hin as [<-|[<-|[<-|[<-|[]]]]]; eexists; reflexivity. }
    destruct Hc as [c Hc]. rewrite Hc.
    destruct (IH (fun it Hit => Hcols it (or_intror Hit)))
      with (calls := calls ++ [hist (dropna vs) 20 c (fst item)])
      as (k & Hk & Hrun).
    { destruct Hbad as (bad & [<-|Hb] & Hnot); [contradiction|eauto]. }
    exists (S k). split; [simpl; lia|].
    rewrite Hrun. cbn [firstn map]. rewrite <- app_assoc.
    unfold hist_of at 2. rewrite Hvs, Hc. reflexivity.
  - rewrite (dict_get_notin colors (fst item) Hout).
    exists 0%nat. split; [simpl; lia|]. cbn [firstn map]. now rewrite app_nil_r.
Qed.

Lemma plot_bind_returned {A B : Type} (m : plot A) (k : A -> plot B)
    (calls calls' : list plot_call) (a : A) :
  m calls = (calls', Returned a) -> plot_bind m k calls = k a calls'.
Proof. intros H. unfold plot_bind. now rewrite H. Qed.

Lemma plot_bind_aborted {A B : Type} (m : plot A) (k : A -> plot B)
    (calls calls' : list plot_call) (e : py_exn) :
  m calls = (calls', Aborted e) -> plot_bind m k calls = (calls', Aborted e).
Proof. intros H. unfold plot_bind. now rewrite H. Qed.

Lemma py_range_head (fuel start stop step : nat) :
  (start < stop)%nat -> (0 < fuel)%nat ->
  py_range fuel start stop step
  = start :: py_range (fuel - 1) (start + step) stop step.
Proof.
  intros Hlt Hf. destruct fuel as [|fuel]; [lia|]. cbn [py_range].
  destruct (Nat.ltb_spec start stop); [|lia].
  now rewrite Nat.sub_succ, Nat.sub_0_r.
Qed.


